(** * npm-cloudflare-sync: a shallow embedding of the synchronisation daemon

    The development follows the TypeScript sources:
    - [public-ip.ts]   the public IP resolver with its process-wide cache,
    - [cloudflare.ts]  the Cloudflare client (request layer, zone map, record
                       operations and the wildcard guard),
    - [npm-monitor.ts] the Nginx Proxy Manager monitor (login, host fetch, diff),
    - [index.ts]       the orchestrator callback [handleNPMChanges].

    Asynchronous code is sequential here: every [await] is a bind of the
    monad [M], which threads the process state ([World]) and carries thrown
    exceptions.  The network is an oracle ([Net]): its answer to a request
    may depend on how many requests the process has issued before. *)

From Stdlib Require Import ZArith List String Ascii Bool Lia PeanoNat.
Import ListNotations.

#[local] Open Scope string_scope.
#[local] Open Scope list_scope.
#[local] Open Scope Z_scope.

Infix "+++" := String.append (at level 60, right associativity).

(* ================================================================== *)
(** ** JavaScript built-ins used by the sources *)
(* ================================================================== *)

Module JS.

(** A string is a sequence of code units; code units below 256 are enough
    for host names, header values and addresses. *)

(** Truthiness of a [string | null] value: [null] and the empty string are
    falsy. *)
Definition truthy (o : option string) : bool :=
  match o with
  | Some s => negb (String.eqb s "")
  | None => false
  end.

(** [s.endsWith(suffix)] *)
Fixpoint endsWith (s suffix : string) : bool :=
  String.eqb s suffix ||
  match s with
  | EmptyString => false
  | String _ s' => endsWith s' suffix
  end.

(** [s.startsWith(p)] and [s.includes(p)] *)
Fixpoint startsWith (s p : string) : bool :=
  match p, s with
  | EmptyString, _ => true
  | String a p', String b s' => Ascii.eqb a b && startsWith s' p'
  | String _ _, EmptyString => false
  end.

Fixpoint includes (s p : string) : bool :=
  startsWith s p ||
  match s with
  | EmptyString => false
  | String _ s' => includes s' p
  end.

(** White space as [String.prototype.trim] sees it, among code units below
    256: TAB, LF, VT, FF, CR, SP and NBSP. *)
Definition isWhiteSpace (c : ascii) : bool :=
  match nat_of_ascii c with
  | 9%nat | 10%nat | 11%nat | 12%nat | 13%nat | 32%nat | 160%nat => true
  | _ => false
  end.

Fixpoint trimStart (s : string) : string :=
  match s with
  | EmptyString => EmptyString
  | String c s' => if isWhiteSpace c then trimStart s' else s
  end.

Fixpoint trimEnd (s : string) : string :=
  match s with
  | EmptyString => EmptyString
  | String c s' =>
      match trimEnd s' with
      | EmptyString => if isWhiteSpace c then EmptyString else String c EmptyString
      | t => String c t
      end
  end.

Definition trim (s : string) : string := trimEnd (trimStart s).

(** [s.split(sep)] for a one-character separator: never the empty list. *)
Fixpoint split_aux (sep : ascii) (s cur : string) : list string :=
  match s with
  | EmptyString => [cur]
  | String c s' =>
      if Ascii.eqb c sep then cur :: split_aux sep s' EmptyString
      else split_aux sep s' (cur +++ String c EmptyString)
  end.

Definition split (s : string) (sep : ascii) : list string :=
  split_aux sep s EmptyString.

(** *** [JSON.stringify] on strings and arrays of strings *)

Definition dquote : ascii := "034"%char.
Definition backslash : ascii := "092"%char.

Definition hexDigit (n : nat) : ascii :=
  nth n ["0"; "1"; "2"; "3"; "4"; "5"; "6"; "7";
         "8"; "9"; "a"; "b"; "c"; "d"; "e"; "f"]%char "0"%char.

(** QuoteJSONString, one code unit at a time. *)
Definition jsonEscape (c : ascii) : string :=
  match nat_of_ascii c with
  | 8%nat => String backslash "b"
  | 9%nat => String backslash "t"
  | 10%nat => String backslash "n"
  | 12%nat => String backslash "f"
  | 13%nat => String backslash "r"
  | 34%nat => String backslash (String dquote "")
  | 92%nat => String backslash (String backslash "")
  | n =>
      if (n <? 32)%nat
      then String backslash
             ("u00" +++ String (hexDigit (n / 16)) (String (hexDigit (n mod 16)) ""))
      else String c ""
  end.

Fixpoint jsonBody (s : string) : string :=
  match s with
  | EmptyString => EmptyString
  | String c s' => jsonEscape c +++ jsonBody s'
  end.

Definition jsonQuote (s : string) : string :=
  String dquote (jsonBody s +++ String dquote "").

Fixpoint jsonArrayTail (l : list string) : string :=
  match l with
  | [] => "]"
  | x :: l' => "," +++ jsonQuote x +++ jsonArrayTail l'
  end.

Definition jsonArray (l : list string) : string :=
  "[" +++ match l with
          | [] => "]"
          | x :: l' => jsonQuote x +++ jsonArrayTail l'
          end.

(** *** [parseInt(s, 10)]: [None] stands for NaN

    The result is the integer the digits denote; JavaScript holds it as a
    double, which is the same number while its magnitude is below 2^53. *)

Definition digitValue (c : ascii) : option Z :=
  let n := nat_of_ascii c in
  if ((48 <=? n) && (n <=? 57))%nat then Some (Z.of_nat (n - 48)) else None.

Definition isDigit (c : ascii) : bool :=
  match digitValue c with Some _ => true | None => false end.

Fixpoint parseDigits (s : string) (acc : option Z) : option Z :=
  match s with
  | EmptyString => acc
  | String c s' =>
      match digitValue c with
      | Some d =>
          parseDigits s' (Some (10 * match acc with Some a => a | None => 0 end + d))
      | None => acc
      end
  end.

Definition parseInt10 (s : string) : option Z :=
  match trimStart s with
  | String "-" s' => option_map Z.opp (parseDigits s' None)
  | String "+" s' => parseDigits s' None
  | s' => parseDigits s' None
  end.

(** [a !== b] on numbers: NaN differs from everything, itself included. *)
Definition number_ne (a b : option Z) : bool :=
  match a, b with
  | Some x, Some y => negb (x =? y)
  | _, _ => true
  end.

(** *** The test [/^\d{1,3}\.\d{1,3}\.\d{1,3}\.\d{1,3}$/.test(s)]

    [digits13 s] consumes one to three digits; a fourth digit is left in
    the input, where the pattern wants a dot or the end. *)
Definition digits13 (s : string) : option string :=
  match s with
  | String a r1 =>
      if isDigit a then
        match r1 with
        | String b r2 =>
            if isDigit b then
              match r2 with
              | String c r3 => if isDigit c then Some r3 else Some r2
              | EmptyString => Some r2
              end
            else Some r1
        | EmptyString => Some r1
        end
      else None
  | EmptyString => None
  end.

Definition dot (s : string) : option string :=
  match s with
  | String "." r => Some r
  | _ => None
  end.

Definition obind {A B} (o : option A) (f : A -> option B) : option B :=
  match o with Some a => f a | None => None end.

Definition matchesIPv4 (s : string) : bool :=
  match obind (digits13 s) (fun r1 => obind (dot r1) (fun r1 =>
        obind (digits13 r1) (fun r2 => obind (dot r2) (fun r2 =>
        obind (digits13 r2) (fun r3 => obind (dot r3) (fun r3 =>
        digits13 r3)))))) with
  | Some EmptyString => true
  | _ => false
  end.

End JS.

(* ================================================================== *)
(** ** Data model ([types.ts]) *)
(* ================================================================== *)

(** [domain_names: string | string[]] *)
Inductive DomainNames :=
| DomainString (s : string)
| DomainArray (l : list string).

Module NPMHost.
Record t := mk {
  id : Z;
  domain_names : DomainNames;
  forward_host : string;
  forward_port : Z;
  created_on : string;
  modified_on : string
}.
End NPMHost.

Module DNSRecord.
Record t := mk {
  id : string;
  name : string;
  type : string;
  content : string;
  proxied : bool
}.
End DNSRecord.

(** [Omit<DNSRecord, 'id'>], the body of a create request. *)
Module RecordData.
Record t := mk {
  name : string;
  type : string;
  content : string;
  proxied : bool
}.
End RecordData.

(** [Partial<DNSRecord>], the body of an update request. *)
Module PartialRecord.
Record t := mk {
  id : option string;
  name : option string;
  type : option string;
  content : option string;
  proxied : option bool
}.
End PartialRecord.

Module CloudflareZone.
Record t := mk { id : string; name : string }.
End CloudflareZone.

(** [CloudflareResponse<T>]; [errors] holds the [message] of each entry
    (the empty string for an entry without one). *)
Module CloudflareResponse.
Record t (T : Type) := mk {
  result : T;
  success : bool;
  errors : list string
}.
Arguments mk {T}.
Arguments result {T}.
Arguments success {T}.
Arguments errors {T}.
End CloudflareResponse.

Definition JSON_stringify (d : DomainNames) : string :=
  match d with
  | DomainString s => JS.jsonQuote s
  | DomainArray l => JS.jsonArray l
  end.

(** The normal form of [domain_names] that [handleNPMChanges] iterates over:
    [Array.isArray(d) ? d : d.split(",")], each entry trimmed. *)
Definition domainList (d : DomainNames) : list string :=
  match d with
  | DomainArray l => l
  | DomainString s => JS.split s ","%char
  end.

Definition normalizedDomains (d : DomainNames) : list string :=
  map JS.trim (domainList d).

(* ================================================================== *)
(** ** Effects: the process state, the network and exceptions *)
(* ================================================================== *)

Inductive Error :=
| CloudflareError (message : string) (statusCode : Z)
| JsError (message : string).

Inductive Result (A : Type) :=
| Return (a : A)
| Throw (e : Error).
Arguments Return {A}.
Arguments Throw {A}.

Inductive Method := GET | POST | PUT | DELETE.

Inductive Endpoint :=
| NpmTokens                                    (* /api/tokens *)
| NpmProxyHosts                                (* /api/nginx/proxy-hosts *)
| CfZones                                      (* /zones *)
| CfDnsRecords (zoneId : string)               (* /zones/:id/dns_records *)
| CfDnsRecord (zoneId recordId : string)       (* /zones/:id/dns_records/:rid *)
| IpService (url : string).

Inductive Body :=
| NoBody
| LoginBody (identity secret : string)
| CreateBody (data : RecordData.t)
| UpdateBody (data : PartialRecord.t).

Record Request := mkRequest {
  method : Method;
  endpoint : Endpoint;
  body : Body
}.

(** An HTTP response as the sources read it: status and status text, the
    Retry-After and Content-Type headers, the body parsed as JSON ([None]
    when parsing throws) and the body as [response.text()]. *)
Record HttpResponse (T : Type) := mkResponse {
  status : Z;
  statusText : string;
  retryAfter : option string;
  contentType : option string;
  json : option T;
  text : string
}.
Arguments mkResponse {T}.
Arguments status {T}.
Arguments statusText {T}.
Arguments retryAfter {T}.
Arguments contentType {T}.
Arguments json {T}.
Arguments text {T}.

Definition ok {T} (r : HttpResponse T) : bool :=
  (200 <=? status r) && (status r <=? 299).

(** What the network does with one request: after [elapsed] milliseconds it
    either fails (connection refused, reset, ...) or delivers a response. *)
Inductive Reply (T : Type) :=
| NetworkError (elapsed : N)
| Response (elapsed : N) (r : HttpResponse T).
Arguments NetworkError {T}.
Arguments Response {T}.

(** The value [data] of [public-ip.ts] after [response.json()]. *)
Inductive JsData :=
| JObject (ip : option string)     (* an object, with its [ip] member if any *)
| JString (s : string)
| JOther.                          (* null, a number, an array, ... *)

(** The monitor object of [npm-monitor.ts] (its mutable fields). *)
Module Monitor.
Record t := mk {
  token : option string;
  monitorInterval : bool;          (* an interval timer is installed *)
  isMonitoring : bool;
  lastKnownHosts : list NPMHost.t;
  consecutiveFailures : Z;
  isInitialized : bool
}.
Definition maxRetries : Z := 3.
Definition retryDelay : Z := 5000.
Definition requestTimeout : Z := 10000.
Definition maxConsecutiveFailures : Z := 5.
Definition initial : t := mk None false false [] 0 false.
End Monitor.

Record Sent := mkSent { sentAt : Z; request : Request }.

(** The process state: the clock (milliseconds), the requests issued so far
    in order, the module-level cache of [public-ip.ts] and the monitor. *)
Record World := mkWorld {
  now : Z;
  sent : list Sent;
  cachedIP : option string;
  lastCheck : Z;
  monitor : Monitor.t
}.

Definition initialWorld (t0 : Z) : World := mkWorld t0 [] None 0 Monitor.initial.

(** The network: the answer to a request, given how many requests the
    process has issued before it. *)
Record Net := mkNet {
  npm_tokens : nat -> Reply (option string);
  npm_proxy_hosts : nat -> option string -> Reply (list NPMHost.t);
  cf_zones : nat -> Reply (CloudflareResponse.t (list CloudflareZone.t));
  cf_dns_records : nat -> string -> Reply (CloudflareResponse.t (list DNSRecord.t));
  cf_create : nat -> string -> RecordData.t ->
              Reply (CloudflareResponse.t (option DNSRecord.t));
  cf_update : nat -> string -> string -> PartialRecord.t ->
              Reply (CloudflareResponse.t (option DNSRecord.t));
  cf_delete : nat -> string -> string -> Reply (CloudflareResponse.t unit);
  ip_service : nat -> string -> Reply JsData
}.

Definition M (A : Type) : Type := World -> Result A * World.

Definition ret {A} (a : A) : M A := fun w => (Return a, w).
Definition throw {A} (e : Error) : M A := fun w => (Throw e, w).
Definition bind {A B} (m : M A) (k : A -> M B) : M B :=
  fun w =>
    match m w with
    | (Return a, w') => k a w'
    | (Throw e, w') => (Throw e, w')
    end.
Definition try_catch {A} (m : M A) (handler : Error -> M A) : M A :=
  fun w =>
    match m w with
    | (Return a, w') => (Return a, w')
    | (Throw e, w') => handler e w'
    end.

Notation "x <- m ;; k" := (bind m (fun x => k))
  (at level 61, m at next level, right associativity).
Notation "m ;;; k" := (bind m (fun _ => k))
  (at level 61, right associativity).

Definition getWorld : M World := fun w => (Return w, w).
Definition setCache (ip : string) (t : Z) : M unit :=
  fun w => (Return tt, mkWorld (now w) (sent w) (Some ip) t (monitor w)).
Definition getMonitor : M Monitor.t := fun w => (Return (monitor w), w).
Definition setMonitor (m : Monitor.t) : M unit :=
  fun w => (Return tt, mkWorld (now w) (sent w) (cachedIP w) (lastCheck w) m).

(** [await new Promise(resolve => setTimeout(resolve, ms))]: [None] is a NaN
    delay.  Node arms the timer with the delay asked for when that lies
    between 1 and [TIMEOUT_MAX] = 2^31 - 1 milliseconds, and with 1
    millisecond otherwise (a delay below 1, above [TIMEOUT_MAX], or NaN).
    The clock advances by the delay the timer is armed with, the earliest
    it may fire. *)
Definition TIMEOUT_MAX : Z := 2147483647.

Definition timerDelay (ms : option Z) : Z :=
  match ms with
  | Some d => if (d <? 1) || (TIMEOUT_MAX <? d) then 1 else d
  | None => 1
  end.

Definition advance (d : Z) (w : World) : World :=
  mkWorld (now w + d) (sent w) (cachedIP w) (lastCheck w) (monitor w).

Definition sleep (ms : option Z) : M unit :=
  fun w => (Return tt, advance (timerDelay ms) w).

Definition record (req : Request) (w : World) : World :=
  mkWorld (now w) (sent w ++ [mkSent (now w) req]) (cachedIP w) (lastCheck w) (monitor w).

(** [await fetch(url, options)]: the request is issued now; a transport
    failure rejects.  With [timeout = Some t] an [AbortController] aborts
    the request after [t] milliseconds. *)
Definition fetch {T} (timeout : option Z) (req : Request)
    (answer : nat -> Reply T) : M (HttpResponse T) :=
  fun w =>
    let reply := answer (List.length (sent w)) in
    let w1 := record req w in
    let elapsed := match reply with
                   | NetworkError e => Z.of_N e
                   | Response e _ => Z.of_N e
                   end in
    match timeout with
    | Some t =>
        if t <=? elapsed then (Throw (JsError "The user aborted a request."), advance t w1)
        else match reply with
             | NetworkError _ => (Throw (JsError "fetch failed"), advance elapsed w1)
             | Response _ r => (Return r, advance elapsed w1)
             end
    | None =>
        match reply with
        | NetworkError _ => (Throw (JsError "fetch failed"), advance elapsed w1)
        | Response _ r => (Return r, advance elapsed w1)
        end
    end.

(** [await response.json()] *)
Definition readJson {T} (r : HttpResponse T) : M T :=
  match json r with
  | Some d => ret d
  | None => throw (JsError "invalid json response body")
  end.

(* ================================================================== *)
(** ** [npm-monitor.ts] *)
(* ================================================================== *)

Module NPMMonitor.
Import Monitor.

Section WithPlatform.

(** [new Date(s).getTime()]: [None] is the NaN of an invalid date. *)
Variable Date_getTime : string -> option Z.
Variable net : Net.
(** The configured credentials. *)
Variable email password : string.

Definition update (f : Monitor.t -> Monitor.t) : M unit :=
  m <- getMonitor ;; setMonitor (f m).

Definition set_token (tok : option string) (m : Monitor.t) : Monitor.t :=
  mk tok (monitorInterval m) (isMonitoring m) (lastKnownHosts m)
     (consecutiveFailures m) (isInitialized m).
Definition set_consecutiveFailures (n : Z) (m : Monitor.t) : Monitor.t :=
  mk (token m) (monitorInterval m) (isMonitoring m) (lastKnownHosts m)
     n (isInitialized m).
Definition set_baseline (hosts : list NPMHost.t) (init : bool) (m : Monitor.t) : Monitor.t :=
  mk (token m) (monitorInterval m) (isMonitoring m) hosts
     (consecutiveFailures m) init.

(** [retryDelay * Math.pow(2, attempt)] *)
Definition backoff (attempt : Z) : Z := retryDelay * 2 ^ attempt.

(** The [for] loop of [login]; [remaining] counts the iterations left. *)
Fixpoint login_loop (remaining : nat) (attempt : Z) : M bool :=
  match remaining with
  | O =>
      m <- getMonitor ;;
      setMonitor (set_consecutiveFailures (consecutiveFailures m + 1) m) ;;;
      ret false
  | S remaining' =>
      r <- try_catch
        (response <- fetch (Some requestTimeout)
                       (mkRequest POST NpmTokens (LoginBody email password))
                       (npm_tokens net) ;;
         if negb (ok response) then throw (JsError ("Login failed: " +++ text response))
         else
           data <- readJson response ;;
           update (fun m => set_consecutiveFailures 0 (set_token data m)) ;;;
           ret (Some true))
        (fun _ =>
           (if attempt <? maxRetries - 1 then sleep (Some (backoff attempt)) else ret tt) ;;;
           ret None) ;;
      match r with
      | Some b => ret b
      | None => login_loop remaining' (attempt + 1)
      end
  end.

Definition login : M bool := login_loop (Z.to_nat maxRetries) 0.

(** [getHeaders]: the bearer token of the request. *)
Definition getHeaders : M (option string) :=
  m <- getMonitor ;;
  (if negb (JS.truthy (token m))
   then logged <- login ;;
        if negb logged then throw (JsError "Unable to authenticate with NPM") else ret tt
   else ret tt) ;;;
  m' <- getMonitor ;;
  ret (token m').

(** [stopMonitoring] *)
Definition stopMonitoring : M unit :=
  update (fun m => mk (token m) false false (lastKnownHosts m)
                      (consecutiveFailures m) false).

(** One iteration of the [for] loop of [getProxyHosts] ends in one of three
    ways: [return hosts], [return this.getProxyHosts()] after a 401, or the
    next iteration. *)
Inductive Step :=
| Returned (hosts : list NPMHost.t)
| Recurse
| NextAttempt.

Definition getProxyHosts_attempt (attempt : Z) : M Step :=
  try_catch
    (headers <- getHeaders ;;
     response <- fetch (Some requestTimeout)
                   (mkRequest GET NpmProxyHosts NoBody)
                   (fun n => npm_proxy_hosts net n headers) ;;
     if negb (ok response) then
       if status response =? 401 then
         update (set_token None) ;;;
         ret Recurse
       else throw (JsError ("Failed to fetch proxy hosts: " +++ text response))
     else
       hosts <- readJson response ;;
       update (set_consecutiveFailures 0) ;;;
       ret (Returned hosts))
    (fun _ =>
       (if attempt <? maxRetries - 1 then sleep (Some (backoff attempt)) else ret tt) ;;;
       ret NextAttempt).

(** The loop and what follows it.  [None] is the pending tail call
    [return this.getProxyHosts()], whose result or exception is the
    caller's: a promise returned without [await] is not seen by the
    enclosing [catch]. *)
Fixpoint getProxyHosts_loop (remaining : nat) (attempt : Z)
    : M (option (list NPMHost.t)) :=
  match remaining with
  | O =>
      m <- getMonitor ;;
      setMonitor (set_consecutiveFailures (consecutiveFailures m + 1) m) ;;;
      m' <- getMonitor ;;
      if maxConsecutiveFailures <=? consecutiveFailures m' then
        stopMonitoring ;;;
        throw (JsError "NPM API is unreachable after multiple attempts. Monitoring stopped.")
      else ret (Some [])
  | S remaining' =>
      r <- getProxyHosts_attempt attempt ;;
      match r with
      | Returned hosts => ret (Some hosts)
      | Recurse => ret None
      | NextAttempt => getProxyHosts_loop remaining' (attempt + 1)
      end
  end.

(** Computations that may recurse without bound take [fuel]; [None] is
    "no result within this fuel", never a result of the program. *)
Definition MF (A : Type) : Type := World -> option (Result A * World).

Fixpoint getProxyHosts (fuel : nat) : MF (list NPMHost.t) :=
  fun w =>
    match fuel with
    | O => None
    | S fuel' =>
        match getProxyHosts_loop (Z.to_nat maxRetries) 0 w with
        | (Return (Some hosts), w') => Some (Return hosts, w')
        | (Return None, w') => getProxyHosts fuel' w'
        | (Throw e, w') => Some (Throw e, w')
        end
    end.

(** The comparison of [getChangesSinceLastCheck]. *)
Definition hasChanged (currentHost previousHost : NPMHost.t) : bool :=
  JS.number_ne (Date_getTime (NPMHost.modified_on currentHost))
               (Date_getTime (NPMHost.modified_on previousHost))
  || negb (String.eqb (NPMHost.forward_host currentHost)
                      (NPMHost.forward_host previousHost))
  || negb (NPMHost.forward_port currentHost =? NPMHost.forward_port previousHost)
  || negb (String.eqb (JSON_stringify (NPMHost.domain_names currentHost))
                      (JSON_stringify (NPMHost.domain_names previousHost))).

Definition sameId (a b : NPMHost.t) : bool := NPMHost.id a =? NPMHost.id b.

Definition changedHosts (lastKnown currentHosts : list NPMHost.t) : list NPMHost.t :=
  filter (fun currentHost =>
            match find (fun h => sameId h currentHost) lastKnown with
            | None => true
            | Some previousHost => hasChanged currentHost previousHost
            end)
         currentHosts.

Definition deletedHosts (lastKnown currentHosts : list NPMHost.t) : list NPMHost.t :=
  filter (fun previousHost =>
            negb (existsb (fun h => sameId h previousHost) currentHosts))
         lastKnown.

Record Changes := mkChanges {
  currentHosts : list NPMHost.t;
  changed : list NPMHost.t;
  deleted : list NPMHost.t
}.

(** [getChangesSinceLastCheck] after its [await this.getProxyHosts()]: the
    diff of the fetched list against the monitor's baseline. *)
Definition diff (current : list NPMHost.t) (m : Monitor.t) : Changes * Monitor.t :=
  if negb (isInitialized m) then
    (mkChanges current current [], set_baseline current true m)
  else
    (mkChanges current
       (changedHosts (lastKnownHosts m) current)
       (deletedHosts (lastKnownHosts m) current),
     set_baseline current (isInitialized m) m).

Definition getChangesSinceLastCheck (fuel : nat) : MF Changes :=
  fun w =>
    match getProxyHosts fuel w with
    | None => None
    | Some (Throw e, w') => Some (Throw e, w')
    | Some (Return current, w') =>
        let (changes, m') := diff current (monitor w') in
        Some (Return changes, snd (setMonitor m' w'))
    end.

Definition Callback : Type :=
  list NPMHost.t -> list NPMHost.t -> list NPMHost.t -> M unit.

(** The closure [monitor] of [startMonitoring]: one monitoring check. *)
Definition monitorCheck (fuel : nat) (callback : Callback) : MF unit :=
  fun w =>
    let onError : M unit :=
      m <- getMonitor ;;
      if maxConsecutiveFailures <=? consecutiveFailures m then stopMonitoring
      else ret tt in
    match getChangesSinceLastCheck fuel w with
    | None => None
    | Some (Throw _, w') => Some (onError w')
    | Some (Return c, w') =>
        if (0 <? Z.of_nat (List.length (changed c)))
           || (0 <? Z.of_nat (List.length (deleted c)))
        then Some (try_catch (callback (currentHosts c) (changed c) (deleted c))
                             (fun _ => onError) w')
        else Some (Return tt, w')
    end.

(** [startMonitoring] up to the installation of the interval timer; each
    later tick of the timer is one [monitorCheck]. *)
Definition startMonitoring (fuel : nat) (callback : Callback) : MF unit :=
  fun w =>
    if isMonitoring (monitor w) then Some (Return tt, w)
    else
      let m := monitor w in
      let w1 := snd (setMonitor (mk (token m) (monitorInterval m) true
                                    (lastKnownHosts m) (consecutiveFailures m) false) w) in
      match monitorCheck fuel callback w1 with
      | None => None
      | Some (_, w2) =>
          let m2 := monitor w2 in
          Some (Return tt,
                snd (setMonitor (mk (token m2) true (isMonitoring m2)
                                    (lastKnownHosts m2) (consecutiveFailures m2)
                                    (isInitialized m2)) w2))
      end.

End WithPlatform.
End NPMMonitor.

(** [for (const x of xs) { await body(x) }] *)
Fixpoint forEach {A} (xs : list A) (body : A -> M unit) : M unit :=
  match xs with
  | [] => ret tt
  | x :: xs' => body x ;;; forEach xs' body
  end.

(* ================================================================== *)
(** ** [public-ip.ts] *)
(* ================================================================== *)

Module PublicIP.

Definition CACHE_DURATION : Z := 300000.
Definition TIMEOUT : Z := 15000.
Definition MAX_RETRIES : Z := 3.
Definition RETRY_DELAY : Z := 2000.

(** The two extraction rules of the service table: [data.ip] and
    [data.trim()]. *)
Inductive Extract := ExtractIp | ExtractTrim.

Record Service := mkService { url : string; extract : Extract }.

Definition services : list Service :=
  [ mkService "https://api64.ipify.org?format=json" ExtractIp;
    mkService "https://ip.seeip.org/jsonip" ExtractIp;
    mkService "https://api.myip.com" ExtractIp;
    mkService "https://ifconfig.me/ip" ExtractTrim;
    mkService "https://icanhazip.com" ExtractTrim ].

(** [service.extract(data)]: [None] is [undefined]; a TypeError (a member of
    [null], [trim] of a non-string) is raised to the same [catch]. *)
Definition applyExtract (e : Extract) (data : JsData) : M (option string) :=
  match e, data with
  | ExtractIp, JObject ip => ret ip
  | ExtractIp, JString _ => ret None
  | ExtractIp, JOther => throw (JsError "Cannot read properties of null")
  | ExtractTrim, JString s => ret (Some (JS.trim s))
  | ExtractTrim, _ => throw (JsError "data.trim is not a function")
  end.

Section WithNet.
Variable net : Net.

(** The body of the [try] block of one attempt; [t0] is the [now] read at
    the start of [getPublicIP]. *)
Definition tryService (t0 : Z) (service : Service) : M string :=
  response <- fetch (Some TIMEOUT)
                (mkRequest GET (IpService (url service)) NoBody)
                (fun n => ip_service net n (url service)) ;;
  if negb (ok response) then throw (JsError "HTTP error")
  else
    let ct := match contentType response with Some c => c | None => "" end in
    data <- (if JS.includes ct "application/json"
             then readJson response
             else ret (JString (text response))) ;;
    ip <- applyExtract (extract service) data ;;
    match ip with
    | Some ip =>
        if negb (JS.truthy (Some ip)) || negb (JS.matchesIPv4 ip)
        then throw (JsError "Invalid IP format received")
        else setCache ip t0 ;;; ret ip
    | None => throw (JsError "Invalid IP format received")
    end.

(** The inner [for] loop: the attempts at one service.  [Some ip] is the
    [return ip] that leaves the function. *)
Fixpoint attempts (t0 : Z) (service : Service) (remaining : nat) (attempt : Z)
    : M (option string) :=
  match remaining with
  | O => ret None
  | S remaining' =>
      r <- try_catch
             (ip <- tryService t0 service ;; ret (Some ip))
             (fun _ =>
                (if attempt <? MAX_RETRIES - 1 then sleep (Some RETRY_DELAY) else ret tt) ;;;
                ret None) ;;
      match r with
      | Some ip => ret (Some ip)
      | None => attempts t0 service remaining' (attempt + 1)
      end
  end.

(** The outer loop over the services. *)
Fixpoint tryServices (t0 : Z) (l : list Service) : M (option string) :=
  match l with
  | [] => ret None
  | service :: l' =>
      r <- attempts t0 service (Z.to_nat MAX_RETRIES) 0 ;;
      match r with
      | Some ip => ret (Some ip)
      | None => tryServices t0 l'
      end
  end.

(** Where the cached value is returned it is truthy, hence not [null]:
    the [None] branches below are never taken. *)
Definition getPublicIP : M string :=
  w <- getWorld ;;
  let t0 := now w in
  if JS.truthy (cachedIP w) && (t0 - lastCheck w <? CACHE_DURATION) then
    match cachedIP w with Some ip => ret ip | None => ret "" end
  else
    r <- tryServices t0 services ;;
    match r with
    | Some ip => ret ip
    | None =>
        w' <- getWorld ;;
        if JS.truthy (cachedIP w') then
          match cachedIP w' with Some ip => ret ip | None => ret "" end
        else throw (JsError "Failed to retrieve public IP from all services")
    end.

End WithNet.
End PublicIP.

(* ================================================================== *)
(** ** [cloudflare.ts] *)
(* ================================================================== *)

Module CloudflareAPI.

(** [Map<string, string>]: insertion-ordered, one entry per key. *)
Definition ZoneMap : Type := list (string * string).

Fixpoint Map_set (m : ZoneMap) (k v : string) : ZoneMap :=
  match m with
  | [] => [(k, v)]
  | (k', v') :: m' =>
      if String.eqb k' k then (k', v) :: m' else (k', v') :: Map_set m' k v
  end.

Fixpoint Map_get (m : ZoneMap) (k : string) : option string :=
  match m with
  | [] => None
  | (k', v') :: m' => if String.eqb k' k then Some v' else Map_get m' k
  end.

Definition Map_keys (m : ZoneMap) : list string := map fst m.

Record t := mk {
  apiToken : string;
  zones : ZoneMap
}.

Definition maxRetries : Z := 3.
Definition retryDelay : Z := 1000.

(** The constructor. *)
Definition new (token : string) : M t :=
  if negb (JS.truthy (Some token))
  then throw (JsError "Cloudflare API token is required")
  else ret (mk token []).

(** [delay(attempt)]: exponential backoff, capped at ten seconds. *)
Definition delay (attempt : Z) : M unit :=
  sleep (Some (Z.min (retryDelay * 2 ^ attempt) 10000)).

(** [getRootDomain] *)
Definition getRootDomain (cf : t) (domain : string) : string :=
  fold_left
    (fun bestMatch zoneName =>
       if JS.endsWith domain zoneName
          && (String.length bestMatch <? String.length zoneName)%nat
       then zoneName else bestMatch)
    (Map_keys (zones cf)) "".

Definition getZoneIdForDomain (cf : t) (domain : string) : option string :=
  Map_get (zones cf) (getRootDomain cf domain).

(** How one iteration of the loop of [makeRequest] ends when it neither
    returns nor throws: [continue], with the [lastError] of the function. *)
Inductive Iter (T : Type) :=
| Done (data : T)
| Continue (lastError : option Error).
Arguments Done {T}.
Arguments Continue {T}.

Section WithNet.
Variable net : Net.

(** [waitTime] of the 429 case. *)
Definition rateLimitWait (retryAfterHeader : option string) : option Z :=
  match retryAfterHeader with
  | Some h =>
      if JS.truthy (Some h)
      then option_map (fun n => n * 1000) (JS.parseInt10 h)
      else Some retryDelay
  | None => Some retryDelay
  end.

(** [errors[0]?.message || fallback] *)
Definition firstMessage (errors : list string) (fallback : string) : string :=
  match errors with
  | m :: _ => if JS.truthy (Some m) then m else fallback
  | [] => fallback
  end.

(** [errorData?.errors?.[0]?.message || response.statusText], where
    [errorData] is the body parsed as JSON, or [{ raw }] when it does not
    parse. *)
Definition errorMessage {T} (response : HttpResponse (CloudflareResponse.t T)) : string :=
  match json response with
  | Some errorData => firstMessage (CloudflareResponse.errors errorData) (statusText response)
  | None => statusText response
  end.

Definition makeRequest_attempt {T} (req : Request)
    (answer : nat -> Reply (CloudflareResponse.t T)) (context : string)
    (attempt : Z) (lastError : option Error) : M (Iter (CloudflareResponse.t T)) :=
  try_catch
    (response <- fetch None req answer ;;
     if negb (ok response) then
       let failed := CloudflareError (context +++ " failed: " +++ errorMessage response)
                                     (status response) in
       if status response =? 530 then
         throw (CloudflareError "Authentication failed. Please check your API token." 530)
       else if status response =? 429 then
         if attempt <? maxRetries - 1 then
           sleep (rateLimitWait (retryAfter response)) ;;;
           ret (Continue lastError)
         else throw failed
       else if status response =? 403 then
         throw (CloudflareError "Access denied. Please check your API token permissions." 403)
       else if (500 <=? status response) && (attempt <? maxRetries - 1) then
         delay attempt ;;;
         ret (Continue lastError)
       else throw failed
     else
       data <- readJson response ;;
       if negb (CloudflareResponse.success data) then
         throw (CloudflareError
                  (context +++ " failed: " +++
                   firstMessage (CloudflareResponse.errors data) "Unknown error")
                  (status response))
       else ret (Done data))
    (fun error =>
       match error with
       | CloudflareError _ _ => throw error
       | JsError _ =>
           if attempt <? maxRetries - 1 then
             delay attempt ;;;
             ret (Continue (Some error))
           else throw error
       end).

Fixpoint makeRequest_loop {T} (req : Request)
    (answer : nat -> Reply (CloudflareResponse.t T)) (context : string)
    (remaining : nat) (attempt : Z) (lastError : option Error)
    : M (CloudflareResponse.t T) :=
  match remaining with
  | O =>
      throw (match lastError with
             | Some e => e
             | None => JsError (context +++ " failed after 3 attempts")
             end)
  | S remaining' =>
      it <- makeRequest_attempt req answer context attempt lastError ;;
      match it with
      | Done data => ret data
      | Continue lastError' =>
          makeRequest_loop req answer context remaining' (attempt + 1) lastError'
      end
  end.

Definition makeRequest {T} (req : Request)
    (answer : nat -> Reply (CloudflareResponse.t T)) (context : string)
    : M (CloudflareResponse.t T) :=
  makeRequest_loop req answer context (Z.to_nat maxRetries) 0 None.

Definition getZones : M (list CloudflareZone.t) :=
  try_catch
    (data <- makeRequest (mkRequest GET CfZones NoBody) (cf_zones net) "Fetching zones" ;;
     ret (CloudflareResponse.result data))
    (fun _ => ret []).

Definition getDNSRecords (cf : t) (domain : string) : M (list DNSRecord.t) :=
  match getZoneIdForDomain cf domain with
  | Some zoneId =>
      if negb (JS.truthy (Some zoneId)) then ret []
      else
        try_catch
          (data <- makeRequest (mkRequest GET (CfDnsRecords zoneId) NoBody)
                     (fun n => cf_dns_records net n zoneId) "Fetching DNS records" ;;
           ret (CloudflareResponse.result data))
          (fun _ => ret [])
  | None => ret []
  end.

Definition wildcardName (rootDomain : string) : string := "*." +++ rootDomain.

Definition isWildcardA (rootDomain : string) (record : DNSRecord.t) : bool :=
  String.eqb (DNSRecord.type record) "A"
  && String.eqb (DNSRecord.name record) (wildcardName rootDomain).

Definition hasWildcardARecord (cf : t) (domain : string) : M bool :=
  let rootDomain := getRootDomain cf domain in
  records <- getDNSRecords cf rootDomain ;;
  match find (isWildcardA rootDomain) records with
  | Some _ => ret true
  | None => ret false
  end.

Definition createDNSRecord (cf : t) (domain : string) (data : RecordData.t)
    : M (option DNSRecord.t) :=
  match getZoneIdForDomain cf domain with
  | Some zoneId =>
      if negb (JS.truthy (Some zoneId)) then ret None
      else
        refused <- (if String.eqb (RecordData.type data) "CNAME"
                    then hasWildcardARecord cf domain
                    else ret false) ;;
        if (refused : bool) then ret None
        else
          try_catch
            (result <- makeRequest (mkRequest POST (CfDnsRecords zoneId) (CreateBody data))
                         (fun n => cf_create net n zoneId data) "Creating DNS record" ;;
             ret (CloudflareResponse.result result))
            (fun _ => ret None)
  | None => ret None
  end.

Definition isCNAME (ty : option string) : bool :=
  match ty with
  | Some s => String.eqb s "CNAME"
  | None => false
  end.

Definition updateDNSRecord (cf : t) (domain recordId : string) (data : PartialRecord.t)
    : M (option DNSRecord.t) :=
  match getZoneIdForDomain cf domain with
  | Some zoneId =>
      if negb (JS.truthy (Some zoneId)) then ret None
      else
        refused <- (if isCNAME (PartialRecord.type data)
                    then hasWildcardARecord cf domain
                    else ret false) ;;
        if (refused : bool) then ret None
        else
          try_catch
            (result <- makeRequest
                         (mkRequest PUT (CfDnsRecord zoneId recordId) (UpdateBody data))
                         (fun n => cf_update net n zoneId recordId data)
                         "Updating DNS record" ;;
             ret (CloudflareResponse.result result))
            (fun _ => ret None)
  | None => ret None
  end.

Definition deleteDNSRecord (cf : t) (domain recordId : string) : M bool :=
  match getZoneIdForDomain cf domain with
  | Some zoneId =>
      if negb (JS.truthy (Some zoneId)) then ret false
      else
        try_catch
          (makeRequest (mkRequest DELETE (CfDnsRecord zoneId recordId) NoBody)
             (fun n => cf_delete net n zoneId recordId) "Deleting DNS record" ;;;
           ret true)
          (fun _ => ret false)
  | None => ret false
  end.

Definition isRootA (domain : string) (r : DNSRecord.t) : bool :=
  String.eqb (DNSRecord.type r) "A" && String.eqb (DNSRecord.name r) domain.

(** [{ ...aRecord, content }] *)
Definition withContent (r : DNSRecord.t) (content : string) : PartialRecord.t :=
  PartialRecord.mk (Some (DNSRecord.id r)) (Some (DNSRecord.name r))
    (Some (DNSRecord.type r)) (Some content) (Some (DNSRecord.proxied r)).

Definition updateRootDomainRecords (cf : t) : M unit :=
  try_catch
    (publicIP <- PublicIP.getPublicIP net ;;
     forEach (zones cf) (fun entry =>
       let domain := fst entry in
       records <- getDNSRecords cf domain ;;
       match find (isRootA domain) records with
       | Some aRecord =>
           if negb (String.eqb (DNSRecord.content aRecord) publicIP) then
             updateDNSRecord cf domain (DNSRecord.id aRecord) (withContent aRecord publicIP) ;;;
             ret tt
           else ret tt
       | None =>
           createDNSRecord cf domain (RecordData.mk domain "A" publicIP true) ;;;
           ret tt
       end))
    (fun _ => ret tt).

(** [initZones]: the zone map is cleared and refilled, then the root
    records are reconciled. *)
Definition initZones (cf : t) : M t :=
  zs <- getZones ;;
  let cf' := mk (apiToken cf)
                (fold_left (fun m z => Map_set m (CloudflareZone.name z) (CloudflareZone.id z))
                           zs []) in
  updateRootDomainRecords cf' ;;;
  ret cf'.

End WithNet.
End CloudflareAPI.

(* ================================================================== *)
(** ** [index.ts] *)
(* ================================================================== *)

Module Index.
Import CloudflareAPI.

Record Config := mkConfig {
  cloudflare_apiToken : string;
  autoCreateRootRecords : bool
}.

Section WithNet.
Variable net : Net.
Variable config : Config.

Definition ensureRootDomainRecord (cf : CloudflareAPI.t) (domain : string) : M bool :=
  let rootDomain := getRootDomain cf domain in
  if negb (JS.truthy (Some rootDomain)) then ret false
  else if String.eqb domain rootDomain then ret true
  else
    rootRecords <- getDNSRecords net cf rootDomain ;;
    match find (isRootA rootDomain) rootRecords with
    | None =>
        if negb (autoCreateRootRecords config) then ret false
        else
          publicIP <- PublicIP.getPublicIP net ;;
          created <- createDNSRecord net cf rootDomain
                       (RecordData.mk rootDomain "A" publicIP true) ;;
          match created with
          | None => ret false
          | Some _ => ret true
          end
    | Some _ => ret true
    end.

Definition hasName (domainName : string) (r : DNSRecord.t) : bool :=
  String.eqb (DNSRecord.name r) domainName.

(** The body of the inner loop over the domains of a deleted host. *)
Definition deleteDomain (cf : CloudflareAPI.t) (domain : string) : M unit :=
  let domainName := JS.trim domain in
  existingRecords <- getDNSRecords net cf domainName ;;
  match find (hasName domainName) existingRecords with
  | Some existingRecord =>
      deleteDNSRecord net cf domainName (DNSRecord.id existingRecord) ;;;
      ret tt
  | None => ret tt
  end.

(** The body of the inner loop over the domains of a changed host. *)
Definition syncDomain (cf : CloudflareAPI.t) (domain : string) : M unit :=
  let domainName := JS.trim domain in
  let rootDomain := getRootDomain cf domainName in
  proceed <- (if negb (String.eqb domainName rootDomain)
              then ensureRootDomainRecord cf domainName
              else ret true) ;;
  if negb proceed then ret tt (* continue *)
  else
    existingRecords <- getDNSRecords net cf domainName ;;
    match find (hasName domainName) existingRecords with
    | Some _ => ret tt (* continue *)
    | None =>
        if negb (String.eqb domainName rootDomain) then
          createDNSRecord net cf domainName
            (RecordData.mk domainName "CNAME" rootDomain true) ;;;
          ret tt
        else
          currentIP <- PublicIP.getPublicIP net ;;
          if autoCreateRootRecords config then
            createDNSRecord net cf domainName
              (RecordData.mk domainName "A" currentIP true) ;;;
            ret tt
          else ret tt
    end.

(** The two loops of [handleNPMChanges]. *)
Definition handleDeletedHosts (cf : CloudflareAPI.t) (deletedHosts : list NPMHost.t)
    : M unit :=
  forEach deletedHosts (fun host =>
    forEach (domainList (NPMHost.domain_names host)) (deleteDomain cf)).

Definition handleChangedHosts (cf : CloudflareAPI.t) (changedHosts : list NPMHost.t)
    : M unit :=
  forEach changedHosts (fun host =>
    forEach (domainList (NPMHost.domain_names host)) (syncDomain cf)).

Definition handleNPMChanges (currentHosts changedHosts deletedHosts : list NPMHost.t)
    : M unit :=
  cf0 <- CloudflareAPI.new (cloudflare_apiToken config) ;;
  cf <- initZones net cf0 ;;
  handleDeletedHosts cf deletedHosts ;;;
  handleChangedHosts cf changedHosts.

End WithNet.
End Index.

(* ================================================================== *)
(** ** A platform and networks for the examples *)
(* ================================================================== *)

Module Sample.
Import JS.

(** An instance of [Date_getTime]: the UTC form [YYYY-MM-DDTHH:mm:ss.sssZ]
    of the ECMAScript date-time format (the output of [toISOString]), read
    as Node reads it: a day number up to 31 is accepted in every month and
    runs over into the next month, and the hour 24 is accepted at
    24:00:00.000.  Strings of other forms, some of which Node's parser
    reads as dates too, count as invalid here: the instance is used at
    strings of this form and at a string that holds no date. *)
Fixpoint takeDigits (n : nat) (s : string) (acc : Z) : option (Z * string) :=
  match n with
  | O => Some (acc, s)
  | S n' =>
      match s with
      | String c r =>
          match digitValue c with
          | Some d => takeDigits n' r (10 * acc + d)
          | None => None
          end
      | EmptyString => None
      end
  end.

Definition expect (c : ascii) (s : string) : option string :=
  match s with
  | String x r => if Ascii.eqb x c then Some r else None
  | EmptyString => None
  end.

(** Days from 1970-01-01 to the given civil date. *)
Definition daysFromCivil (y m d : Z) : Z :=
  let y' := if m <=? 2 then y - 1 else y in
  let era := y' / 400 in
  let yoe := y' - era * 400 in
  let mp := if 2 <? m then m - 3 else m + 9 in
  let doy := (153 * mp + 2) / 5 + d - 1 in
  let doe := yoe * 365 + yoe / 4 - yoe / 100 + doy in
  era * 146097 + doe - 719468.

Definition field (n : nat) (sep : option ascii) (s : string) : option (Z * string) :=
  obind (takeDigits n s 0) (fun '(v, r) =>
    match sep with
    | Some c => option_map (fun r' => (v, r')) (expect c r)
    | None => Some (v, r)
    end).

Definition Date_getTime (s : string) : option Z :=
  obind (field 4 (Some "-"%char) s) (fun '(y, s) =>
  obind (field 2 (Some "-"%char) s) (fun '(mo, s) =>
  obind (field 2 (Some "T"%char) s) (fun '(d, s) =>
  obind (field 2 (Some ":"%char) s) (fun '(h, s) =>
  obind (field 2 (Some ":"%char) s) (fun '(mi, s) =>
  obind (field 2 (Some "."%char) s) (fun '(sec, s) =>
  obind (field 3 (Some "Z"%char) s) (fun '(ms, s) =>
    match s with
    | EmptyString =>
        if (1 <=? mo) && (mo <=? 12) && (1 <=? d) && (d <=? 31)
           && (mi <=? 59) && (sec <=? 59)
           && ((h <=? 23) || ((h =? 24) && (mi =? 0) && (sec =? 0) && (ms =? 0)))
        then Some ((((daysFromCivil y mo d * 24 + h) * 60 + mi) * 60 + sec) * 1000 + ms)
        else None
    | _ => None
    end))))))).

Example Date_getTime_epoch : Date_getTime "1970-01-01T00:00:00.000Z" = Some 0.
Proof. reflexivity. Qed.

Example Date_getTime_2024 :
  Date_getTime "2024-03-01T12:30:15.250Z" = Some 1709296215250.
Proof. reflexivity. Qed.

Example Date_getTime_rollover :
  Date_getTime "2024-02-30T00:00:00.000Z" = Date_getTime "2024-03-01T00:00:00.000Z"
  /\ Date_getTime "2024-02-29T24:00:00.000Z" = Some 1709251200000.
Proof. split; reflexivity. Qed.

Example Date_getTime_invalid :
  Date_getTime "2024-13-01T00:00:00.000Z" = None /\ Date_getTime "yesterday" = None.
Proof. split; reflexivity. Qed.

End Sample.

Module Networks.

(** The reason phrases of the statuses the examples use. *)
Definition reason (st : Z) : string :=
  if st =? 200 then "OK"
  else if st =? 401 then "Unauthorized"
  else if st =? 403 then "Forbidden"
  else if st =? 429 then "Too Many Requests"
  else if st =? 503 then "Service Unavailable"
  else "".

Definition respond {T} (elapsed : N) (st : Z) (ctype : string) (parsed : option T)
    (raw : string) : Reply T :=
  Response elapsed (mkResponse st (reason st) None (Some ctype) parsed raw).

(** A successful answer of the Cloudflare API, and the answer of an edge
    that cannot reach it. *)
Definition cfOk {T} (result : T) : Reply (CloudflareResponse.t T) :=
  respond 20 200 "application/json" (Some (CloudflareResponse.mk result true [])) "".

Definition unavailable {T} : Reply T :=
  respond 20 503 "text/html" None "Service Unavailable".

(** Answers of IP providers. *)
Definition ipJson (ip : string) : Reply JsData :=
  respond 30 200 "application/json; charset=utf-8" (Some (JObject (Some ip))) "".

Definition ipText (raw : string) : Reply JsData :=
  respond 30 200 "text/plain" None raw.

(** A Cloudflare account with zones and records that requests do not
    change, reached through a network on which the requests that [up]
    rejects are answered 503; IP providers answering [ipAnswer]; an NPM
    instance answering [npmHosts]. *)
Record Server := mkServer {
  zonesOf : list CloudflareZone.t;
  recordsOf : string -> list DNSRecord.t;
  up : nat -> bool;
  ipAnswer : nat -> string -> Reply JsData;
  npmHosts : nat -> Reply (list NPMHost.t)
}.

Definition serve (s : Server) : Net :=
  mkNet
    (fun _ => respond 10 200 "application/json" (Some (Some "jwt")) "")
    (fun n _ => npmHosts s n)
    (fun n => if up s n then cfOk (zonesOf s) else unavailable)
    (fun n zoneId => if up s n then cfOk (recordsOf s zoneId) else unavailable)
    (fun n zoneId data =>
       if up s n
       then cfOk (Some (DNSRecord.mk "created" (RecordData.name data) (RecordData.type data)
                          (RecordData.content data) (RecordData.proxied data)))
       else unavailable)
    (fun n zoneId recordId data =>
       if up s n
       then cfOk (Some (DNSRecord.mk recordId
                          (match PartialRecord.name data with Some x => x | None => "" end)
                          (match PartialRecord.type data with Some x => x | None => "" end)
                          (match PartialRecord.content data with Some x => x | None => "" end)
                          (match PartialRecord.proxied data with Some x => x | None => false end)))
       else unavailable)
    (fun n zoneId recordId => if up s n then cfOk tt else unavailable)
    (ipAnswer s).

(** The zone example.com (id z1) with its root A record, and more records
    as given. *)
Definition rootA : DNSRecord.t :=
  DNSRecord.mk "r0" "example.com" "A" "203.0.113.7" true.

Definition exampleZone (more : list DNSRecord.t) (up : nat -> bool)
    (hosts : nat -> Reply (list NPMHost.t)) : Server :=
  mkServer [CloudflareZone.mk "z1" "example.com"]
           (fun zoneId => if String.eqb zoneId "z1" then rootA :: more else [])
           up
           (fun _ _ => ipJson "203.0.113.7")
           hosts.

Definition noHosts : nat -> Reply (list NPMHost.t) :=
  fun _ => respond 10 200 "application/json" (Some []) "".

Definition always : nat -> bool := fun _ => true.

(** A client that has mapped the zone. *)
Definition client : CloudflareAPI.t := CloudflareAPI.mk "token" [("example.com", "z1")].

(** The requests of a world, without their times. *)
Definition requests (w : World) : list Request := map request (sent w).

End Networks.

(* ================================================================== *)
(** ** Properties of the built-ins *)
(* ================================================================== *)

Module JSFacts.
Import JS.

Lemma append_assoc (a b c : string) : (a +++ b) +++ c = a +++ (b +++ c).
Proof. induction a as [|x a IH]; simpl; [reflexivity | now rewrite IH]. Qed.

Lemma append_empty_r (a : string) : a +++ "" = a.
Proof. induction a as [|x a IH]; simpl; [reflexivity | now rewrite IH]. Qed.

Lemma length_append (a b : string) :
  String.length (a +++ b) = (String.length a + String.length b)%nat.
Proof. induction a as [|x a IH]; simpl; [reflexivity | now rewrite IH]. Qed.

(** Two splits of one string at the same distance from its end agree. *)
Lemma append_inj_suffix (p p' z z' : string) :
  p +++ z = p' +++ z' -> String.length z = String.length z' -> p = p' /\ z = z'.
Proof.
  revert p'. induction p as [|x p IH]; intros [|y p'] E L; simpl in E.
  - now split.
  - exfalso. apply (f_equal String.length) in E. simpl in E.
    rewrite length_append in E. lia.
  - exfalso. apply (f_equal String.length) in E. simpl in E.
    rewrite length_append in E. lia.
  - injection E as -> E. destruct (IH _ E L) as [-> ->]. now split.
Qed.

Lemma endsWith_spec (s z : string) :
  endsWith s z = true <-> exists p, s = p +++ z.
Proof.
  induction s as [|c s IH]; cbn [endsWith].
  - rewrite orb_false_r, String.eqb_eq. split.
    + intros <-. now exists "".
    + intros [[|x p] E]; simpl in E; [now symmetry | discriminate].
  - rewrite orb_true_iff, String.eqb_eq, IH. split.
    + intros [<- | [p ->]]; [now exists "" | now exists (String c p)].
    + intros [[|x p] E]; simpl in E; [now left | right].
      injection E as _ ->. now exists p.
Qed.

Lemma endsWith_refl (s : string) : endsWith s s = true.
Proof. apply endsWith_spec. now exists "". Qed.

Lemma endsWith_length (s z : string) :
  endsWith s z = true -> (String.length z <= String.length s)%nat.
Proof.
  intros H. apply endsWith_spec in H as [p ->]. rewrite length_append. lia.
Qed.

Lemma endsWith_same_length (s z z' : string) :
  endsWith s z = true -> endsWith s z' = true ->
  String.length z = String.length z' -> z = z'.
Proof.
  intros H H' L. apply endsWith_spec in H as [p E], H' as [p' E'].
  rewrite E in E'. now destruct (append_inj_suffix _ _ _ _ E' L).
Qed.

Lemma length_zero (s : string) : String.length s = 0%nat -> s = "".
Proof. now destruct s. Qed.

(** *** [JSON.stringify] is injective on [string | string[]]

    The proof reads an escaped code unit back: [unescape] undoes
    [jsonEscape] at the head of any string. *)

Definition unhex (c : ascii) : option nat :=
  match digitValue c with
  | Some d => Some (Z.to_nat d)
  | None =>
      let n := nat_of_ascii c in
      if ((97 <=? n) && (n <=? 102))%nat then Some (n - 87)%nat else None
  end.

Definition unescape (s : string) : option (ascii * string) :=
  match s with
  | EmptyString => None
  | String c r =>
      if Ascii.eqb c dquote then None
      else if Ascii.eqb c backslash then
        match r with
        | String x r' =>
            if Ascii.eqb x "b" then Some ("008"%char, r')
            else if Ascii.eqb x "t" then Some ("009"%char, r')
            else if Ascii.eqb x "n" then Some ("010"%char, r')
            else if Ascii.eqb x "f" then Some ("012"%char, r')
            else if Ascii.eqb x "r" then Some ("013"%char, r')
            else if Ascii.eqb x dquote then Some (dquote, r')
            else if Ascii.eqb x backslash then Some (backslash, r')
            else
              match r' with
              | String _ (String _ (String h1 (String h2 r''))) =>
                  match unhex h1, unhex h2 with
                  | Some a, Some b => Some (ascii_of_nat (16 * a + b), r'')
                  | _, _ => None
                  end
              | _ => None
              end
        | EmptyString => None
        end
      else Some (c, r)
  end.

Lemma unescape_escape (c : ascii) (r : string) :
  unescape (jsonEscape c +++ r) = Some (c, r).
Proof.
  destruct c as [b0 b1 b2 b3 b4 b5 b6 b7].
  destruct b0, b1, b2, b3, b4, b5, b6, b7; reflexivity.
Qed.

Lemma jsonBody_inj (s s' r r' : string) :
  jsonBody s +++ String dquote r = jsonBody s' +++ String dquote r' ->
  s = s' /\ r = r'.
Proof.
  revert s'. induction s as [|c s IH]; intros [|c' s'] E; simpl in E.
  - injection E as ->. now split.
  - apply (f_equal unescape) in E. rewrite append_assoc, unescape_escape in E.
    discriminate.
  - apply (f_equal unescape) in E. rewrite append_assoc, unescape_escape in E.
    discriminate.
  - apply (f_equal unescape) in E. rewrite !append_assoc, !unescape_escape in E.
    injection E as -> E. destruct (IH _ E) as [-> ->]. now split.
Qed.

Lemma jsonQuote_inj (s s' r r' : string) :
  jsonQuote s +++ r = jsonQuote s' +++ r' -> s = s' /\ r = r'.
Proof.
  unfold jsonQuote. simpl. rewrite !append_assoc. simpl.
  intros E. injection E as E. now apply jsonBody_inj.
Qed.

Lemma jsonQuoted_inj (s s' r r' : string) :
  (jsonBody s +++ String dquote "") +++ r = (jsonBody s' +++ String dquote "") +++ r' ->
  s = s' /\ r = r'.
Proof. rewrite !append_assoc. simpl. apply jsonBody_inj. Qed.

Lemma jsonArrayTail_inj (l l' : list string) :
  jsonArrayTail l = jsonArrayTail l' -> l = l'.
Proof.
  revert l'. induction l as [|x l IH]; intros [|x' l'] E;
    cbn [jsonArrayTail String.append] in E; try reflexivity; try discriminate.
  injection E as E. apply jsonQuoted_inj in E as [-> E]. now rewrite (IH _ E).
Qed.

Lemma jsonArray_inj (l l' : list string) :
  jsonArray l = jsonArray l' -> l = l'.
Proof.
  unfold jsonArray. destruct l as [|x l], l' as [|x' l'];
    cbn [String.append]; intros E; try reflexivity.
  - injection E as E. unfold jsonQuote in E. simpl in E. discriminate.
  - injection E as E. unfold jsonQuote in E. simpl in E. discriminate.
  - injection E as E. apply jsonQuoted_inj in E as [-> E].
    now rewrite (jsonArrayTail_inj _ _ E).
Qed.

Lemma JSON_stringify_inj (d d' : DomainNames) :
  JSON_stringify d = JSON_stringify d' -> d = d'.
Proof.
  destruct d as [s|l], d' as [s'|l']; simpl; intros E.
  - rewrite <- (append_empty_r (jsonQuote s)), <- (append_empty_r (jsonQuote s')) in E.
    now apply jsonQuote_inj in E as [-> _].
  - unfold jsonQuote, jsonArray in E. simpl in E. discriminate.
  - unfold jsonQuote, jsonArray in E. simpl in E. discriminate.
  - now rewrite (jsonArray_inj _ _ E).
Qed.

End JSFacts.

(* ================================================================== *)
(** ** The root domain of a host name ([getRootDomain]) *)
(* ================================================================== *)

Module RootDomain.
Import JS JSFacts CloudflareAPI.

(** The loop of [getRootDomain], started from any [bestMatch]: the result is
    the start value or a matching key, it is at least as long as the start
    value, and no matching key is longer. *)
Lemma getRootDomain_fold (domain : string) (keys : list string) (best : string) :
  let r := fold_left
             (fun bestMatch zoneName =>
                if endsWith domain zoneName
                   && (String.length bestMatch <? String.length zoneName)%nat
                then zoneName else bestMatch) keys best in
  (r = best \/ (In r keys /\ endsWith domain r = true)) /\
  (String.length best <= String.length r)%nat /\
  (forall z, In z keys -> endsWith domain z = true ->
             (String.length z <= String.length r)%nat).
Proof.
  revert best. induction keys as [|k keys IH]; intros best; cbn [fold_left].
  - repeat split; [now left | lia | intros z []].
  - destruct (endsWith domain k) eqn:Ek; cbn [andb].
    + destruct (Nat.ltb_spec (String.length best) (String.length k)) as [Hlt|Hge].
      * specialize (IH k). cbv zeta in IH. destruct IH as (Hr & Hlen & Hmax).
        repeat split.
        -- destruct Hr as [-> | [Hin Hs]]; right; split; auto; now left + right.
        -- lia.
        -- intros z [<- | Hin] Hz; [exact Hlen | now apply Hmax].
      * specialize (IH best). cbv zeta in IH. destruct IH as (Hr & Hlen & Hmax).
        repeat split.
        -- destruct Hr as [-> | [Hin Hs]]; [now left | right; split; auto; now right].
        -- exact Hlen.
        -- intros z [<- | Hin] Hz; [lia | now apply Hmax].
    + specialize (IH best). cbv zeta in IH. destruct IH as (Hr & Hlen & Hmax).
      repeat split.
      * destruct Hr as [-> | [Hin Hs]]; [now left | right; split; auto; now right].
      * exact Hlen.
      * intros z [<- | Hin] Hz; [congruence | now apply Hmax].
Qed.

Lemma getRootDomain_cases (cf : t) (domain : string) :
  getRootDomain cf domain = ""
  \/ (In (getRootDomain cf domain) (Map_keys (zones cf))
      /\ endsWith domain (getRootDomain cf domain) = true).
Proof. exact (proj1 (getRootDomain_fold domain (Map_keys (zones cf)) "")). Qed.

Lemma getRootDomain_max (cf : t) (domain z : string) :
  In z (Map_keys (zones cf)) -> endsWith domain z = true ->
  (String.length z <= String.length (getRootDomain cf domain))%nat.
Proof.
  exact (proj2 (proj2 (getRootDomain_fold domain (Map_keys (zones cf)) "")) z).
Qed.

Lemma getRootDomain_idempotent (cf : t) (domain : string) :
  getRootDomain cf (getRootDomain cf domain) = getRootDomain cf domain.
Proof.
  pose proof (getRootDomain_cases cf domain) as Hc.
  set (r := getRootDomain cf domain) in *.
  destruct (getRootDomain_cases cf r) as [E | [Hin Hs]].
  - destruct Hc as [E' | [Hin' _]].
    + congruence.
    + pose proof (getRootDomain_max cf r r Hin' (endsWith_refl r)) as L.
      rewrite E in L. simpl in L. rewrite E. symmetry. apply length_zero. lia.
  - destruct Hc as [E' | [Hin' _]].
    + apply endsWith_length in Hs. rewrite E' in Hs |- *. simpl in Hs.
      apply length_zero. lia.
    + pose proof (getRootDomain_max cf r r Hin' (endsWith_refl r)) as L.
      pose proof (endsWith_length _ _ Hs) as L'.
      apply (endsWith_same_length r); auto using endsWith_refl. lia.
Qed.

(** Known zones look themselves up. *)
Lemma getRootDomain_of_root (cf : t) (domain : string) :
  getZoneIdForDomain cf (getRootDomain cf domain) = getZoneIdForDomain cf domain.
Proof. unfold getZoneIdForDomain. now rewrite getRootDomain_idempotent. Qed.

(** C4.  For every host name [x] and zone map, [getRootDomain] returns a
    registered zone name that is a suffix of [x], or the empty string; no
    registered zone name that is a suffix of [x] is longer, and one of the
    same length is the result itself, so the result is the longest matching
    zone; it is the empty string when no non-empty zone name matches;
    [getRootDomain] is idempotent; and with the zones b.com and a.b.com
    (registered in either order) sub.a.b.com maps to a.b.com. *)
Theorem getRootDomain_longest_suffix :
  forall (cf : t) (x : string),
    let r := getRootDomain cf x in
    (r = "" \/ (In r (Map_keys (zones cf)) /\ exists p, x = p +++ r)) /\
    (forall z, In z (Map_keys (zones cf)) -> (exists p, x = p +++ z) ->
       (String.length z <= String.length r)%nat /\
       (String.length z = String.length r -> z = r)) /\
    ((forall z, In z (Map_keys (zones cf)) -> (exists p, x = p +++ z) -> z = "") ->
       r = "") /\
    getRootDomain cf r = r /\
    getRootDomain (mk "token" [("b.com", "zb"); ("a.b.com", "za")]) "sub.a.b.com"
      = "a.b.com" /\
    getRootDomain (mk "token" [("a.b.com", "za"); ("b.com", "zb")]) "sub.a.b.com"
      = "a.b.com".
Proof.
  intros cf x r.
  assert (Hcases : r = "" \/ (In r (Map_keys (zones cf)) /\ exists p, x = p +++ r)).
  { destruct (getRootDomain_cases cf x) as [E | [Hin Hs]]; [now left | right].
    split; [exact Hin | now apply endsWith_spec]. }
  split; [exact Hcases |].
  split.
  { intros z Hin Hs. apply endsWith_spec in Hs.
    pose proof (getRootDomain_max cf x z Hin Hs) as L. fold r in L.
    split; [exact L |]. intros E.
    destruct Hcases as [E0 | [_ Hr]].
    - rewrite E0 in E |- *. now apply length_zero.
    - apply endsWith_spec in Hr. now apply (endsWith_same_length x). }
  split.
  { intros Hnone. destruct Hcases as [E | [Hin Hs]]; [exact E | now apply Hnone]. }
  split; [apply getRootDomain_idempotent |].
  split; reflexivity.
Qed.

End RootDomain.

(* ================================================================== *)
(** ** The diff of the monitor ([getChangesSinceLastCheck]) *)
(* ================================================================== *)

Module DiffFacts.
Import JS JSFacts Monitor NPMMonitor.

(** *** The partition rule in the words of the specification *)




Section Spec.
Variable Date_getTime : string -> option Z.






(** The data model: ids are unique within a list, [modified_on] is a
    time stamp. *)
Definition uniqueIds (l : list NPMHost.t) : Prop := NoDup (map NPMHost.id l).
Definition validTimes (l : list NPMHost.t) : Prop :=
  forall h, In h l -> Date_getTime (NPMHost.modified_on h) <> None.

(** *** The code against the rule *)

Lemma hasChanged_false_iff (h p : NPMHost.t) :
  hasChanged Date_getTime h p = false <->
  (exists t, Date_getTime (NPMHost.modified_on h) = Some t
             /\ Date_getTime (NPMHost.modified_on p) = Some t)
  /\ NPMHost.forward_host h = NPMHost.forward_host p
  /\ NPMHost.forward_port h = NPMHost.forward_port p
  /\ NPMHost.domain_names h = NPMHost.domain_names p.
Proof.
  unfold hasChanged. rewrite !orb_false_iff, !negb_false_iff.
  rewrite !String.eqb_eq, Z.eqb_eq. unfold number_ne.
  split.
  - intros [[[Ht Hh] Hp] Hd]. repeat split; auto.
    + destruct (Date_getTime (NPMHost.modified_on h)) as [a|]; [|discriminate].
      destruct (Date_getTime (NPMHost.modified_on p)) as [b|]; [|discriminate].
      apply negb_false_iff, Z.eqb_eq in Ht. subst b. now exists a.
    + now apply JSON_stringify_inj.
  - intros ([t [-> ->]] & Hh & Hp & Hd). repeat split; auto.
    + now rewrite Z.eqb_refl.
    + now rewrite Hd.
Qed.


Lemma uniqueIds_inj (l : list NPMHost.t) (a b : NPMHost.t) :
  uniqueIds l -> In a l -> In b l -> NPMHost.id a = NPMHost.id b -> a = b.
Proof.
  unfold uniqueIds. induction l as [|x l IH]; simpl; intros Hn Ha Hb E; [easy|].
  inversion Hn as [|? ? Hnotin Hn']; subst.
  destruct Ha as [-> | Ha], Hb as [-> | Hb]; auto.
  - exfalso. apply Hnotin. rewrite E. now apply in_map.
  - exfalso. apply Hnotin. rewrite <- E. now apply in_map.
Qed.





(** The monitor starts, and restarts, uninitialised. *)
Lemma uninitialised_at_start :
  isInitialized Monitor.initial = false
  /\ forall w, isInitialized (monitor (snd (stopMonitoring w))) = false.
Proof. split; reflexivity. Qed.

(** C8, as the code has it.  For a current host whose id exists in the
    baseline and whose other compared fields are unchanged (equal, valid
    time stamps, equal forward host and port), the host is reported as
    changed exactly when the received [domain_names] values differ: the
    field is compared by its JSON serialisation, without normalisation. *)
Theorem diff_domain_names_raw :
  forall (H1 H2 : list NPMHost.t) (h p : NPMHost.t),
    In h H2 ->
    find (fun q => sameId q h) H1 = Some p ->
    Date_getTime (NPMHost.modified_on h) = Date_getTime (NPMHost.modified_on p) ->
    Date_getTime (NPMHost.modified_on h) <> None ->
    NPMHost.forward_host h = NPMHost.forward_host p ->
    NPMHost.forward_port h = NPMHost.forward_port p ->
    (In h (changedHosts Date_getTime H1 H2)
     <-> NPMHost.domain_names h <> NPMHost.domain_names p).
Proof.
  intros H1 H2 h p Hh Ef Et Hv Efh Efp. unfold changedHosts.
  rewrite filter_In, Ef. split.
  - intros [_ Hc] Ed.
    assert (Hf : hasChanged Date_getTime h p = false); [|congruence].
    apply hasChanged_false_iff. repeat split; auto.
    destruct (Date_getTime (NPMHost.modified_on h)) as [t|] eqn:E; [|contradiction].
    exists t. now rewrite <- Et.
  - intros Hd. split; [exact Hh |].
    destruct (hasChanged Date_getTime h p) eqn:Ec; [reflexivity | exfalso].
    now apply hasChanged_false_iff in Ec as (_ & _ & _ & Ed).
Qed.

End Spec.
End DiffFacts.

Module DiffExamples.
Import Monitor NPMMonitor DiffFacts.

Definition t1 : string := "2024-03-01T12:30:15.250Z".
Definition t2 : string := "2024-03-02T08:00:00.000Z".


(** A host whose domains arrive once as a delimited string and once as
    an array. *)
Definition hostS : NPMHost.t :=
  NPMHost.mk 7 (DomainString "a.example.com, b.example.com") "10.0.0.8" 443 t1 t1.
Definition hostS' : NPMHost.t :=
  NPMHost.mk 7 (DomainArray ["a.example.com"; "b.example.com"]) "10.0.0.8" 443 t1 t1.

Definition running (baseline : list NPMHost.t) : Monitor.t :=
  Monitor.mk (Some "jwt") true true baseline 0 true.





(** C8 fails on the code: the two entries of host 7 have the same
    normalised domain list and agree on every other compared field, and the
    host is reported as changed. *)
Lemma diff_domain_names_not_normalized :
  normalizedDomains (NPMHost.domain_names hostS')
    = normalizedDomains (NPMHost.domain_names hostS)
  /\ NPMHost.id hostS' = NPMHost.id hostS
  /\ NPMHost.modified_on hostS' = NPMHost.modified_on hostS
  /\ NPMHost.forward_host hostS' = NPMHost.forward_host hostS
  /\ NPMHost.forward_port hostS' = NPMHost.forward_port hostS
  /\ changed (fst (diff Sample.Date_getTime [hostS'] (running [hostS]))) = [hostS'].
Proof. repeat split. Qed.

Lemma diff_domain_names_raw_witness :
  In hostS' (changedHosts Sample.Date_getTime [hostS] [hostS'])
  <-> NPMHost.domain_names hostS' <> NPMHost.domain_names hostS.
Proof.
  apply (diff_domain_names_raw Sample.Date_getTime [hostS] [hostS'] hostS' hostS);
    try reflexivity; [now left | discriminate].
Defined.

End DiffExamples.

(* ================================================================== *)
(** ** Reasoning about the requests a computation issues *)
(* ================================================================== *)

Module Trace.

(** [issues P m]: the requests [m] adds to the trace all satisfy [P], and
    it removes none. *)
Definition issues {A} (P : Request -> Prop) (m : M A) : Prop :=
  forall w, exists l,
    sent (snd (m w)) = sent w ++ l /\ Forall (fun s => P (request s)) l.

(** [noThrow m]: [m] always returns. *)
Definition noThrow {A} (m : M A) : Prop :=
  forall w, exists a, fst (m w) = Return a.

Definition methodIn (ms : list Method) (r : Request) : Prop := In (method r) ms.

Section Rules.
Context {A B : Type}.
Variable P : Request -> Prop.

Lemma issues_nothing (m : M A) :
  (forall w, sent (snd (m w)) = sent w) -> issues P m.
Proof. intros H w. exists []. rewrite app_nil_r. split; [apply H | constructor]. Qed.

Lemma issues_ret (a : A) : issues P (ret a).
Proof. now apply issues_nothing. Qed.

Lemma issues_throw (e : Error) : issues P (@throw A e).
Proof. now apply issues_nothing. Qed.

Lemma issues_bind (m : M A) (k : A -> M B) :
  issues P m -> (forall a, issues P (k a)) -> issues P (bind m k).
Proof.
  intros Hm Hk w. unfold bind. destruct (Hm w) as [l1 [E1 F1]].
  destruct (m w) as [[a | e] w1]; simpl in E1.
  - destruct (Hk a w1) as [l2 [E2 F2]]. exists (l1 ++ l2). split.
    + now rewrite E2, E1, app_assoc.
    + now apply Forall_app.
  - now exists l1.
Qed.

Lemma issues_try_catch (m : M A) (h : Error -> M A) :
  issues P m -> (forall e, issues P (h e)) -> issues P (try_catch m h).
Proof.
  intros Hm Hh w. unfold try_catch. destruct (Hm w) as [l1 [E1 F1]].
  destruct (m w) as [[a | e] w1]; simpl in E1.
  - now exists l1.
  - destruct (Hh e w1) as [l2 [E2 F2]]. exists (l1 ++ l2). split.
    + now rewrite E2, E1, app_assoc.
    + now apply Forall_app.
Qed.

Lemma issues_fetch (timeout : option Z) (req : Request) (answer : nat -> Reply A) :
  P req -> issues P (fetch timeout req answer).
Proof.
  intros Hp w. exists [mkSent (now w) req]. split; [| now repeat constructor].
  unfold fetch. destruct timeout as [t|];
    destruct (answer (List.length (sent w))) as [e | e r];
    try destruct (t <=? _); reflexivity.
Qed.

Lemma issues_forEach (xs : list A) (body : A -> M unit) :
  (forall x, issues P (body x)) -> issues P (forEach xs body).
Proof.
  intros Hb. induction xs as [|x xs IH]; cbn [forEach].
  - intros w. exists []. rewrite app_nil_r. split; [reflexivity | constructor].
  - intros w. unfold bind. destruct (Hb x w) as [l1 [E1 F1]].
    destruct (body x w) as [[[] | e] w1]; simpl in E1.
    + destruct (IH w1) as [l2 [E2 F2]]. exists (l1 ++ l2). split.
      * now rewrite E2, E1, app_assoc.
      * now apply Forall_app.
    + now exists l1.
Qed.

End Rules.

Lemma issues_weaken {A} (P Q : Request -> Prop) (m : M A) :
  (forall r, P r -> Q r) -> issues P m -> issues Q m.
Proof.
  intros HPQ Hm w. destruct (Hm w) as [l [E F]]. exists l. split; [exact E |].
  eapply Forall_impl; [| exact F]. intros s. apply HPQ.
Qed.

Lemma issues_sleep (P : Request -> Prop) (ms : option Z) : issues P (sleep ms).
Proof. now apply issues_nothing. Qed.

Lemma issues_getWorld (P : Request -> Prop) : issues P getWorld.
Proof. now apply issues_nothing. Qed.

Lemma issues_setCache (P : Request -> Prop) (ip : string) (t : Z) :
  issues P (setCache ip t).
Proof. now apply issues_nothing. Qed.

Lemma issues_getMonitor (P : Request -> Prop) : issues P getMonitor.
Proof. now apply issues_nothing. Qed.

Lemma issues_setMonitor (P : Request -> Prop) (m : Monitor.t) : issues P (setMonitor m).
Proof. now apply issues_nothing. Qed.

Lemma issues_readJson {T} (P : Request -> Prop) (r : HttpResponse T) :
  issues P (readJson r).
Proof. unfold readJson. destruct (json r); now apply issues_nothing. Qed.

(** One step of a syntax-directed proof of [issues]. *)
Ltac issues_step :=
  match goal with
  | |- issues _ (bind _ _) => apply issues_bind; [| intros ?]
  | |- issues _ (try_catch _ _) => apply issues_try_catch; [| intros ?]
  | |- issues _ (ret _) => apply issues_ret
  | |- issues _ (throw _) => apply issues_throw
  | |- issues _ (sleep _) => apply issues_sleep
  | |- issues _ getWorld => apply issues_getWorld
  | |- issues _ (setCache _ _) => apply issues_setCache
  | |- issues _ getMonitor => apply issues_getMonitor
  | |- issues _ (setMonitor _) => apply issues_setMonitor
  | |- issues _ (readJson _) => apply issues_readJson
  | |- issues _ (forEach _ _) => apply issues_forEach; intros ?
  | |- issues _ (if ?b then _ else _) => destruct b
  | |- issues _ (match ?x with _ => _ end) => destruct x
  end.

Section NoThrow.
Context {A B : Type}.

Lemma noThrow_ret (a : A) : noThrow (ret a).
Proof. intros w. now exists a. Qed.

Lemma noThrow_bind (m : M A) (k : A -> M B) :
  noThrow m -> (forall a, noThrow (k a)) -> noThrow (bind m k).
Proof.
  intros Hm Hk w. unfold bind. destruct (Hm w) as [a Ea].
  destruct (m w) as [[a' | e] w1]; simpl in Ea; [| discriminate]. apply Hk.
Qed.

Lemma noThrow_try_catch (m : M A) (h : Error -> M A) :
  (forall e, noThrow (h e)) -> noThrow (try_catch m h).
Proof.
  intros Hh w. unfold try_catch. destruct (m w) as [[a | e] w1].
  - now exists a.
  - apply Hh.
Qed.

Lemma noThrow_forEach (xs : list A) (body : A -> M unit) :
  (forall x, noThrow (body x)) -> noThrow (forEach xs body).
Proof.
  intros Hb. induction xs as [|x xs IH]; cbn [forEach].
  - intros w. now exists tt.
  - intros w. unfold bind. destruct (Hb x w) as [a Ea].
    destruct (body x w) as [[a' | e] w1]; simpl in Ea; [| discriminate]. apply IH.
Qed.

End NoThrow.

End Trace.

(* ================================================================== *)
(** ** The public IP resolver ([getPublicIP]) *)
(* ================================================================== *)

Module PublicIPFacts.
Import JS PublicIP Trace.

(** The value [service.extract(data)] of one attempt, when the answer is
    delivered in time with a 2xx status and a readable body. *)
Definition extractedValue (e : Extract) (reply : Reply JsData) : option string :=
  match reply with
  | NetworkError _ => None
  | Response elapsed r =>
      if (TIMEOUT <=? Z.of_N elapsed) || negb (ok r) then None
      else
        let ct := match contentType r with Some c => c | None => "" end in
        let data := if includes ct "application/json" then json r
                    else Some (JString (text r)) in
        match e, data with
        | ExtractIp, Some (JObject ip) => ip
        | ExtractTrim, Some (JString s) => Some (trim s)
        | _, _ => None
        end
  end.

(** What one answer of a provider is worth: the address the attempt
    accepts, or [None] when the attempt fails (transport failure, timeout,
    status outside 2xx, unreadable body, no value, value refused by the
    format test). *)
Definition answerIP (e : Extract) (reply : Reply JsData) : option string :=
  match extractedValue e reply with
  | Some ip => if truthy (Some ip) && matchesIPv4 ip then Some ip else None
  | None => None
  end.

(** The attempts of one resolution, in order: each service three times. *)
Definition schedule : list Service :=
  flat_map (fun s => [s; s; s]) services.

(** The first accepted address when the attempts of [l] are answered by the
    requests number [n], [n+1], ... *)
Fixpoint firstValid (net : Net) (n : nat) (l : list Service) : option string :=
  match l with
  | [] => None
  | s :: l' =>
      match answerIP (extract s) (ip_service net n (url s)) with
      | Some ip => Some ip
      | None => firstValid net (S n) l'
      end
  end.

(** The cache is stale or empty: the resolution asks the providers. *)
Definition stale (w : World) : Prop :=
  truthy (cachedIP w) && (now w - lastCheck w <? CACHE_DURATION) = false.

(** Cached values are non-empty (they passed the format test). *)
Definition cacheValid (w : World) : Prop := cachedIP w <> Some "".

(** The form the test accepts: four groups of one to three decimal
    digits, separated by dots. *)
Definition digitGroup (g : string) : Prop :=
  (1 <= String.length g <= 3)%nat
  /\ forall c, In c (list_ascii_of_string g) -> isDigit c = true.

Definition dottedQuadForm (s : string) : Prop :=
  exists a b c d,
    s = a +++ "." +++ b +++ "." +++ c +++ "." +++ d
    /\ digitGroup a /\ digitGroup b /\ digitGroup c /\ digitGroup d.

Lemma digits13_sound (s r : string) :
  digits13 s = Some r -> exists g, s = g +++ r /\ digitGroup g.
Proof.
  unfold digits13, digitGroup.
  destruct s as [|a s1]; [discriminate |].
  destruct (isDigit a) eqn:Ea; [| discriminate].
  destruct s1 as [|b s2].
  { intros [= <-]. exists (String a ""). cbn. repeat split; try lia.
    intros c [<- | []]; assumption. }
  destruct (isDigit b) eqn:Eb.
  2:{ intros [= <-]. exists (String a ""). cbn. repeat split; try lia.
      intros c [<- | []]; assumption. }
  destruct s2 as [|c s3].
  { intros [= <-]. exists (String a (String b "")). cbn. repeat split; try lia.
    intros x [<- | [<- | []]]; assumption. }
  destruct (isDigit c) eqn:Ec.
  - intros [= <-]. exists (String a (String b (String c ""))). cbn.
    repeat split; try lia. intros x [<- | [<- | [<- | []]]]; assumption.
  - intros [= <-]. exists (String a (String b "")). cbn. repeat split; try lia.
    intros x [<- | [<- | []]]; assumption.
Qed.

Lemma digits13_complete (g r : string) :
  digitGroup g ->
  match r with String c _ => isDigit c = false | EmptyString => True end ->
  digits13 (g +++ r) = Some r.
Proof.
  unfold digitGroup. intros [[Hlo Hhi] Hd] Hr.
  destruct g as [|a [|b [|c [|d g]]]]; cbn in Hlo, Hhi; try lia.
  - cbn. rewrite (Hd a) by (cbn; auto). destruct r as [|x r]; [reflexivity |].
    now rewrite Hr.
  - cbn. rewrite (Hd a), (Hd b) by (cbn; auto). destruct r as [|x r]; [reflexivity |].
    now rewrite Hr.
  - cbn. now rewrite (Hd a), (Hd b), (Hd c) by (cbn; auto).
Qed.

(** The format test accepts exactly the strings of the dotted form. *)
Lemma matchesIPv4_spec (s : string) :
  matchesIPv4 s = true <-> dottedQuadForm s.
Proof.
  unfold matchesIPv4, dottedQuadForm, obind, dot. split.
  - destruct (digits13 s) as [r1|] eqn:E1; [| discriminate].
    destruct r1 as [|x1 r1]; [discriminate |].
    destruct x1 as [[] [] [] [] [] [] [] []]; try discriminate.
    destruct (digits13 r1) as [r2|] eqn:E2; [| discriminate].
    destruct r2 as [|x2 r2]; [discriminate |].
    destruct x2 as [[] [] [] [] [] [] [] []]; try discriminate.
    destruct (digits13 r2) as [r3|] eqn:E3; [| discriminate].
    destruct r3 as [|x3 r3]; [discriminate |].
    destruct x3 as [[] [] [] [] [] [] [] []]; try discriminate.
    destruct (digits13 r3) as [r4|] eqn:E4; [| discriminate].
    destruct r4; [intros _ | discriminate].
    apply digits13_sound in E1 as (a & -> & Ha), E2 as (b & -> & Hb),
      E3 as (c & -> & Hc), E4 as (d & -> & Hd).
    exists a, b, c, d. rewrite (JSFacts.append_empty_r d). auto.
  - intros (a & b & c & d & -> & Ha & Hb & Hc & Hd).
    cbn [String.append].
    rewrite (digits13_complete a) by (auto; reflexivity).
    rewrite (digits13_complete b) by (auto; reflexivity).
    rewrite (digits13_complete c) by (auto; reflexivity).
    rewrite <- (JSFacts.append_empty_r d).
    now rewrite (digits13_complete d) by (auto; exact I).
Qed.

Section WithNet.
Variable net : Net.

Lemma tryService_spec (t0 : Z) (s : Service) (w : World) :
  let r := tryService net t0 s w in
  List.length (sent (snd r)) = S (List.length (sent w))
  /\ match answerIP (extract s) (ip_service net (List.length (sent w)) (url s)) with
     | Some ip => fst r = Return ip
                  /\ cachedIP (snd r) = Some ip /\ lastCheck (snd r) = t0
     | None => (exists e, fst r = Throw e)
               /\ cachedIP (snd r) = cachedIP w /\ lastCheck (snd r) = lastCheck w
     end.
Proof.
  cbv zeta. unfold tryService, answerIP, extractedValue, fetch, bind, readJson,
    applyExtract, setCache.
  destruct (ip_service net (List.length (sent w)) (url s)) as [el | el r].
  - destruct (TIMEOUT <=? Z.of_N el); cbn; rewrite length_app; cbn;
      (split; [lia | eauto]).
  - destruct (TIMEOUT <=? Z.of_N el); cbn -[includes matchesIPv4 trim truthy];
      [rewrite length_app; cbn; split; [lia | eauto] |].
    destruct (ok r); cbn -[includes matchesIPv4 trim truthy];
      [| rewrite length_app; cbn; split; [lia | eauto]].
    destruct (includes _ "application/json"); cbn -[includes matchesIPv4 trim truthy].
    + destruct (json r) as [[ip | x | ] | ]; destruct (extract s);
        cbn -[includes matchesIPv4 trim truthy];
        try (rewrite length_app; cbn; split; [lia | eauto]).
      * destruct ip as [ip|]; cbn -[includes matchesIPv4 trim truthy];
          [| rewrite length_app; cbn; split; [lia | eauto]].
        destruct (truthy (Some ip)); cbn -[includes matchesIPv4 trim truthy];
          [| rewrite length_app; cbn; split; [lia | eauto]].
        destruct (matchesIPv4 ip); cbn -[includes matchesIPv4 trim truthy];
          rewrite length_app; cbn; split; try lia; eauto.
      * destruct (truthy (Some (trim x))); cbn -[includes matchesIPv4 trim truthy];
          [| rewrite length_app; cbn; split; [lia | eauto]].
        destruct (matchesIPv4 (trim x)); cbn -[includes matchesIPv4 trim truthy];
          rewrite length_app; cbn; split; try lia; eauto.
    + destruct (extract s); cbn -[includes matchesIPv4 trim truthy];
        try (rewrite length_app; cbn; split; [lia | eauto]).
      destruct (truthy (Some (trim (text r)))); cbn -[includes matchesIPv4 trim truthy];
        [| rewrite length_app; cbn; split; [lia | eauto]].
      destruct (matchesIPv4 (trim (text r))); cbn -[includes matchesIPv4 trim truthy];
        rewrite length_app; cbn; split; try lia; eauto.
Qed.

Lemma firstValid_app (n : nat) (l1 l2 : list Service) :
  firstValid net n (l1 ++ l2) =
  match firstValid net n l1 with
  | Some ip => Some ip
  | None => firstValid net (n + List.length l1) l2
  end.
Proof.
  revert n. induction l1 as [|s l1 IH]; intros n; cbn [firstValid app List.length].
  - now rewrite Nat.add_0_r.
  - destruct (answerIP _ _); [reflexivity |]. rewrite IH. now rewrite Nat.add_succ_r.
Qed.

Lemma attempts_step (t0 : Z) (s : Service) (remaining : nat) (attempt : Z) (w : World) :
  attempts net t0 s (S remaining) attempt w =
  match tryService net t0 s w with
  | (Return ip, w1) => (Return (Some ip), w1)
  | (Throw _, w1) =>
      attempts net t0 s remaining (attempt + 1)
        (if attempt <? MAX_RETRIES - 1
         then advance (timerDelay (Some RETRY_DELAY)) w1 else w1)
  end.
Proof.
  cbn [attempts]. unfold bind, try_catch.
  destruct (tryService net t0 s w) as [[ip | e] w1]; [reflexivity |].
  destruct (attempt <? MAX_RETRIES - 1); reflexivity.
Qed.

(** The attempts at one service: the first accepted answer is returned and
    cached; if none is accepted the cache is untouched and [remaining]
    requests have been issued. *)
Lemma attempts_spec (t0 : Z) (s : Service) (remaining : nat) :
  forall (attempt : Z) (w : World),
    let r := attempts net t0 s remaining attempt w in
    match firstValid net (List.length (sent w)) (repeat s remaining) with
    | Some ip => fst r = Return (Some ip)
                 /\ cachedIP (snd r) = Some ip /\ lastCheck (snd r) = t0
    | None => fst r = Return None
              /\ cachedIP (snd r) = cachedIP w /\ lastCheck (snd r) = lastCheck w
              /\ List.length (sent (snd r)) = (List.length (sent w) + remaining)%nat
    end.
Proof.
  induction remaining as [|remaining IH]; intros attempt w; cbv zeta.
  - cbn. repeat split. lia.
  - rewrite attempts_step. cbn [repeat firstValid].
    pose proof (tryService_spec t0 s w) as Hs. cbv zeta in Hs.
    destruct Hs as [Hlen Hs].
    destruct (tryService net t0 s w) as [r0 w1]. cbn [fst snd] in Hlen, Hs.
    destruct (answerIP (extract s) (ip_service net (List.length (sent w)) (url s)))
      as [ip|].
    + destruct Hs as (-> & Hc & Hl). cbn. auto.
    + destruct Hs as ([e ->] & Hc & Hl).
      set (w2 := if attempt <? MAX_RETRIES - 1
                 then advance (timerDelay (Some RETRY_DELAY)) w1 else w1).
      assert (Hw2 : sent w2 = sent w1 /\ cachedIP w2 = cachedIP w1
                    /\ lastCheck w2 = lastCheck w1).
      { subst w2. destruct (attempt <? MAX_RETRIES - 1); cbn; auto. }
      destruct Hw2 as (Hs2 & Hc2 & Hl2).
      specialize (IH (attempt + 1) w2). cbv zeta in IH.
      rewrite Hs2, Hlen in IH.
      destruct (firstValid net (S (List.length (sent w))) (repeat s remaining)) as [ip|].
      * exact IH.
      * destruct IH as (Hr & Hc' & Hl' & Hn).
        repeat split; auto; try congruence. rewrite Hn. lia.
Qed.

Lemma tryServices_spec (t0 : Z) (l : list Service) :
  forall (w : World),
    let r := tryServices net t0 l w in
    match firstValid net (List.length (sent w)) (flat_map (fun s => [s; s; s]) l) with
    | Some ip => fst r = Return (Some ip)
                 /\ cachedIP (snd r) = Some ip /\ lastCheck (snd r) = t0
    | None => fst r = Return None
              /\ cachedIP (snd r) = cachedIP w /\ lastCheck (snd r) = lastCheck w
    end.
Proof.
  induction l as [|s l IH]; intros w; cbv zeta.
  - cbn. auto.
  - cbn [tryServices flat_map]. rewrite firstValid_app. unfold bind.
    pose proof (attempts_spec t0 s 3 0 w) as Ha. cbv zeta in Ha.
    change (Z.to_nat MAX_RETRIES) with 3%nat.
    change (repeat s 3) with [s; s; s] in Ha.
    destruct (attempts net t0 s 3 0 w) as [r0 w1]. cbn [fst snd] in Ha.
    destruct (firstValid net (List.length (sent w)) [s; s; s]) as [ip|].
    + destruct Ha as (-> & Hc & Hl). cbn. auto.
    + destruct Ha as (-> & Hc & Hl & Hn).
      specialize (IH w1). cbv zeta in IH. cbn [List.length]. rewrite <- Hn.
      destruct (firstValid net (List.length (sent w1)) _) as [ip|].
      * exact IH.
      * destruct IH as (Hr & Hc' & Hl'). repeat split; congruence.
Qed.

End WithNet.
End PublicIPFacts.

Module PublicIPTheorems.
Import JS PublicIP Trace PublicIPFacts.

Lemma firstValid_None_iff (net : Net) (l : list Service) (n : nat) :
  firstValid net n l = None <->
  forall k s, nth_error l k = Some s ->
              answerIP (extract s) (ip_service net (n + k) (url s)) = None.
Proof.
  revert n. induction l as [|s l IH]; intros n; cbn [firstValid].
  - split; [intros _ [|k] s' E; discriminate | reflexivity].
  - destruct (answerIP (extract s) (ip_service net n (url s))) as [ip|] eqn:Ea.
    + split; [discriminate |]. intros H.
      specialize (H 0%nat s eq_refl). rewrite Nat.add_0_r in H. congruence.
    + rewrite IH. split.
      * intros H [|k] s' E; cbn in E.
        -- injection E as <-. now rewrite Nat.add_0_r.
        -- rewrite Nat.add_succ_r. now apply (H k s').
      * intros H k s' E. specialize (H (S k) s' E). now rewrite Nat.add_succ_r in H.
Qed.

(** An attempt succeeds with [ip] exactly when [ip] is the extracted value
    and has the dotted form. *)
Lemma answerIP_iff (e : Extract) (reply : Reply JsData) (ip : string) :
  answerIP e reply = Some ip <-> extractedValue e reply = Some ip /\ dottedQuadForm ip.
Proof.
  unfold answerIP. destruct (extractedValue e reply) as [v|].
  - split.
    + destruct (truthy (Some v)); cbn [andb]; [| discriminate].
      destruct (matchesIPv4 v) eqn:Em; [| discriminate].
      intros [= <-]. split; [reflexivity | now apply matchesIPv4_spec].
    + intros [[= ->] Hf]. apply matchesIPv4_spec in Hf. rewrite Hf.
      destruct ip; [discriminate | reflexivity].
  - split; [discriminate | now intros [? _]].
Qed.

Lemma answerIP_form (e : Extract) (reply : Reply JsData) (ip : string) :
  answerIP e reply = Some ip -> dottedQuadForm ip.
Proof. intros H. now apply answerIP_iff in H. Qed.

Lemma firstValid_form (net : Net) (l : list Service) (n : nat) (ip : string) :
  firstValid net n l = Some ip -> dottedQuadForm ip.
Proof.
  revert n. induction l as [|s l IH]; intros n; cbn [firstValid]; [discriminate |].
  destruct (answerIP (extract s) (ip_service net n (url s))) as [x|] eqn:Ea.
  - intros [= <-]. now apply answerIP_form in Ea.
  - apply IH.
Qed.

(** [getPublicIP] when the cache does not answer. *)
Lemma getPublicIP_stale (net : Net) (w : World) :
  stale w ->
  getPublicIP net w =
  match tryServices net (now w) services w with
  | (Return (Some ip), w') => (Return ip, w')
  | (Return None, w') =>
      if truthy (cachedIP w')
      then (Return match cachedIP w' with Some ip => ip | None => "" end, w')
      else (Throw (JsError "Failed to retrieve public IP from all services"), w')
  | (Throw e, w') => (Throw e, w')
  end.
Proof.
  unfold stale, getPublicIP, bind, getWorld. intros ->.
  destruct (tryServices net (now w) services w) as [[[ip|] | e] w']; try reflexivity.
  destruct (truthy (cachedIP w')); [| reflexivity].
  now destruct (cachedIP w').
Qed.

(** C6.  When every one of the fifteen provider attempts of a resolution
    fails, [getPublicIP] leaves the cache as it is and returns the cached
    address, whatever its age; it raises exactly when the cache is empty.
    (The cache holds only addresses that passed the format test, so a
    cached value is never the empty string.) *)
Theorem getPublicIP_all_providers_fail :
  forall (net : Net) (w : World),
    cacheValid w ->
    (forall k s, nth_error schedule k = Some s ->
       answerIP (extract s) (ip_service net (List.length (sent w) + k) (url s)) = None) ->
    let r := getPublicIP net w in
    cachedIP (snd r) = cachedIP w /\ lastCheck (snd r) = lastCheck w
    /\ fst r = match cachedIP w with
               | Some ip => Return ip
               | None => Throw (JsError "Failed to retrieve public IP from all services")
               end.
Proof.
  intros net w Hv Hfail. cbv zeta. apply firstValid_None_iff in Hfail.
  destruct (truthy (cachedIP w) && (now w - lastCheck w <? CACHE_DURATION)) eqn:Ef.
  - unfold getPublicIP, bind, getWorld. rewrite Ef.
    apply andb_prop in Ef as [Ht _].
    destruct (cachedIP w) as [ip|] eqn:Ec; [cbn; auto | discriminate].
  - rewrite (getPublicIP_stale net w Ef).
    pose proof (tryServices_spec net (now w) services w) as Hs. cbv zeta in Hs.
    change (flat_map (fun s => [s; s; s]) services) with schedule in Hs.
    rewrite Hfail in Hs. destruct Hs as (Hr & Hc & Hl).
    destruct (tryServices net (now w) services w) as [r0 w']. cbn [fst snd] in *.
    subst r0. rewrite Hc.
    destruct (cachedIP w) as [ip|] eqn:Ec.
    + assert (Ht : truthy (Some ip) = true).
      { cbn. destruct (String.eqb_spec ip ""); [subst; now elim Hv | reflexivity]. }
      rewrite Ht. cbn. auto.
    + cbn. auto.
Qed.

(** C7, as the code has it.  An attempt succeeds with a value exactly when
    the value is what the provider's extraction rule yields and it has four
    dot-separated groups of one to three decimal digits (the groups' values
    are not bounded); a value of any other form makes the attempt fail.
    With a stale or empty cache, [getPublicIP] returns the first value so
    accepted, in the order of the attempts (each provider three times,
    providers in table order); it becomes the cached value, and the cache
    time is the time the call started.  When no attempt succeeds the cache
    is left alone and the cached address, if any, is returned. *)
Theorem getPublicIP_first_accepted :
  forall (net : Net) (w : World),
    stale w ->
    let r := getPublicIP net w in
    (forall e reply ip,
       answerIP e reply = Some ip <-> extractedValue e reply = Some ip /\ dottedQuadForm ip)
    /\ match firstValid net (List.length (sent w)) schedule with
       | Some ip => fst r = Return ip /\ dottedQuadForm ip
                    /\ cachedIP (snd r) = Some ip /\ lastCheck (snd r) = now w
       | None => cachedIP (snd r) = cachedIP w /\ lastCheck (snd r) = lastCheck w
                 /\ fst r = if truthy (cachedIP w)
                            then Return match cachedIP w with Some ip => ip | None => "" end
                            else Throw (JsError "Failed to retrieve public IP from all services")
       end.
Proof.
  intros net w Hs. cbv zeta. split; [apply answerIP_iff |].
  rewrite (getPublicIP_stale net w Hs).
  pose proof (tryServices_spec net (now w) services w) as Ht. cbv zeta in Ht.
  change (flat_map (fun s => [s; s; s]) services) with schedule in Ht.
  destruct (firstValid net (List.length (sent w)) schedule) as [ip|] eqn:Ef.
  - destruct Ht as (Hr & Hc & Hl).
    destruct (tryServices net (now w) services w) as [r0 w']. cbn [fst snd] in *.
    subst r0. cbn. repeat split; auto. now apply firstValid_form in Ef.
  - destruct Ht as (Hr & Hc & Hl).
    destruct (tryServices net (now w) services w) as [r0 w']. cbn [fst snd] in *.
    subst r0. rewrite Hc. destruct (truthy (cachedIP w)); cbn; auto.
Qed.

(** The cache never holds the empty string: it starts empty, and
    [getPublicIP] stores only accepted addresses and never clears it. *)
Lemma getPublicIP_cacheValid (net : Net) (w : World) :
  cacheValid (initialWorld (now w))
  /\ (cacheValid w -> cacheValid (snd (getPublicIP net w)))
  /\ (cachedIP w <> None -> cachedIP (snd (getPublicIP net w)) <> None).
Proof.
  split; [discriminate |].
  assert (H : cachedIP (snd (getPublicIP net w)) = cachedIP w
              \/ exists ip, cachedIP (snd (getPublicIP net w)) = Some ip
                            /\ dottedQuadForm ip).
  { destruct (truthy (cachedIP w) && (now w - lastCheck w <? CACHE_DURATION)) eqn:Ef.
    - left. unfold getPublicIP, bind, getWorld. rewrite Ef.
      destruct (cachedIP w) eqn:Ec; cbn; exact Ec.
    - rewrite (getPublicIP_stale net w Ef).
      pose proof (tryServices_spec net (now w) services w) as Hs. cbv zeta in Hs.
      destruct (firstValid net (List.length (sent w)) _) as [ip|] eqn:Ev.
      + right. exists ip. destruct Hs as (Hr & Hc & _).
        destruct (tryServices net (now w) services w) as [r0 w']. cbn [fst snd] in *.
        subst r0. cbn [snd]. split; [exact Hc | now apply firstValid_form in Ev].
      + left. destruct Hs as (Hr & Hc & _).
        destruct (tryServices net (now w) services w) as [r0 w']. cbn [fst snd] in *.
        subst r0. now destruct (truthy (cachedIP w')). }
  split.
  - unfold cacheValid. intros Hv. destruct H as [-> | (ip & -> & Hf)]; [exact Hv |].
    intros [= ->]. apply matchesIPv4_spec in Hf. discriminate.
  - intros Hn. destruct H as [-> | (ip & -> & _)]; [exact Hn | discriminate].
Qed.

(** *** Examples *)

Import Networks.

(** No provider can be reached. *)
Definition offline : Net :=
  serve (mkServer [] (fun _ => []) always (fun _ _ => NetworkError 40) noHosts).

(** Ten past midnight, an address cached at midnight: stale. *)
Definition staleWorld : World :=
  mkWorld 600000 [] (Some "198.51.100.4") 0 Monitor.initial.

Lemma getPublicIP_all_providers_fail_witness :
  fst (getPublicIP offline staleWorld) = Return "198.51.100.4"
  /\ cachedIP (snd (getPublicIP offline staleWorld)) = Some "198.51.100.4"
  /\ fst (getPublicIP offline (initialWorld 0))
     = Throw (JsError "Failed to retrieve public IP from all services").
Proof.
  assert (Hoff : forall w k s, nth_error schedule k = Some s ->
            answerIP (extract s) (ip_service offline (List.length (sent w) + k) (url s))
            = None) by reflexivity.
  destruct (getPublicIP_all_providers_fail offline staleWorld
              ltac:(discriminate) (Hoff staleWorld)) as (Hc & _ & Hr).
  destruct (getPublicIP_all_providers_fail offline (initialWorld 0)
              ltac:(discriminate) (Hoff (initialWorld 0))) as (_ & _ & Hr').
  split; [exact Hr | split; [exact Hc | exact Hr']].
Defined.

(** The first provider is down, the second answers with an address. *)
Definition secondAnswers : Net :=
  serve (mkServer [] (fun _ => []) always
           (fun _ u => if String.eqb u "https://ip.seeip.org/jsonip"
                       then ipJson "203.0.113.7" else NetworkError 40)
           noHosts).

Lemma getPublicIP_first_accepted_witness :
  fst (getPublicIP secondAnswers staleWorld) = Return "203.0.113.7"
  /\ cachedIP (snd (getPublicIP secondAnswers staleWorld)) = Some "203.0.113.7"
  /\ lastCheck (snd (getPublicIP secondAnswers staleWorld)) = 600000.
Proof.
  destruct (getPublicIP_first_accepted secondAnswers staleWorld eq_refl)
    as (_ & Hr & _ & Hc & Hl).
  split; [exact Hr | split; [exact Hc | exact Hl]].
Defined.

(** A provider that answers 999.999.999.999: no octet is in range, and
    the value is accepted, returned and cached. *)
Definition outOfRange : Net :=
  serve (mkServer [] (fun _ => []) always
           (fun _ _ => ipJson "999.999.999.999") noHosts).

Lemma getPublicIP_accepts_out_of_range :
  parseInt10 "999" = Some 999 /\ 255 < 999
  /\ fst (getPublicIP outOfRange (initialWorld 0)) = Return "999.999.999.999"
  /\ cachedIP (snd (getPublicIP outOfRange (initialWorld 0))) = Some "999.999.999.999".
Proof. repeat split. Qed.

End PublicIPTheorems.

(* ================================================================== *)
(** ** The Cloudflare client: which requests each operation issues *)
(* ================================================================== *)

Module CloudflareFacts.
Import JS CloudflareAPI Trace.

(** Requests that are a listing, or the creation of the given record. *)
Definition getOrCreate (data : RecordData.t) (r : Request) : Prop :=
  method r = GET \/ (method r = POST /\ body r = CreateBody data).

Lemma methodIn_GET (r : Request) (ms : list Method) :
  In GET ms -> method r = GET -> methodIn ms r.
Proof. unfold methodIn. now intros H ->. Qed.

Lemma methodIn_incl (ms ms' : list Method) (r : Request) :
  incl ms ms' -> methodIn ms r -> methodIn ms' r.
Proof. unfold methodIn. auto. Qed.

Lemma issues_delay (P : Request -> Prop) (attempt : Z) : issues P (delay attempt).
Proof. apply issues_sleep. Qed.

Section WithNet.
Variable net : Net.

Lemma makeRequest_attempt_issues {T} (P : Request -> Prop) (req : Request)
    (answer : nat -> Reply (CloudflareResponse.t T)) (context : string)
    (attempt : Z) (lastError : option Error) :
  P req -> issues P (makeRequest_attempt req answer context attempt lastError).
Proof.
  intros Hp. unfold makeRequest_attempt.
  apply issues_try_catch.
  - apply issues_bind; [now apply issues_fetch |]. intros response.
    repeat (first [apply issues_delay | issues_step]).
  - intros e. repeat (first [apply issues_delay | issues_step]).
Qed.

Lemma makeRequest_loop_issues {T} (P : Request -> Prop) (req : Request)
    (answer : nat -> Reply (CloudflareResponse.t T)) (context : string)
    (remaining : nat) :
  P req ->
  forall attempt lastError,
    issues P (makeRequest_loop req answer context remaining attempt lastError).
Proof.
  intros Hp. induction remaining as [|remaining IH]; intros attempt lastError;
    cbn [makeRequest_loop].
  - apply issues_throw.
  - apply issues_bind; [now apply makeRequest_attempt_issues |].
    intros [data | le]; [apply issues_ret | apply IH].
Qed.

Lemma makeRequest_issues {T} (P : Request -> Prop) (req : Request)
    (answer : nat -> Reply (CloudflareResponse.t T)) (context : string) :
  P req -> issues P (makeRequest req answer context).
Proof. intros Hp. now apply makeRequest_loop_issues. Qed.

Lemma getZones_issues : issues (methodIn [GET]) (getZones net).
Proof.
  unfold getZones. apply issues_try_catch; [| intros e; apply issues_ret].
  apply issues_bind; [| intros d; apply issues_ret].
  apply makeRequest_issues. now left.
Qed.

Lemma getZones_noThrow : noThrow (getZones net).
Proof. apply noThrow_try_catch. intros e. apply noThrow_ret. Qed.

Lemma getDNSRecords_issues (cf : t) (domain : string) :
  issues (fun r => method r = GET) (getDNSRecords net cf domain).
Proof.
  unfold getDNSRecords. destruct (getZoneIdForDomain cf domain) as [zoneId|];
    [| apply issues_ret].
  destruct (negb _); [apply issues_ret |].
  apply issues_try_catch; [| intros e; apply issues_ret].
  apply issues_bind; [| intros d; apply issues_ret].
  now apply makeRequest_issues.
Qed.

Lemma getDNSRecords_noThrow (cf : t) (domain : string) :
  noThrow (getDNSRecords net cf domain).
Proof.
  unfold getDNSRecords. destruct (getZoneIdForDomain cf domain) as [zoneId|];
    [| apply noThrow_ret].
  destruct (negb _); [apply noThrow_ret |].
  apply noThrow_try_catch. intros e. apply noThrow_ret.
Qed.

Lemma hasWildcardARecord_issues (cf : t) (domain : string) :
  issues (fun r => method r = GET) (hasWildcardARecord net cf domain).
Proof.
  unfold hasWildcardARecord. apply issues_bind; [apply getDNSRecords_issues |].
  intros records. destruct (find _ records); apply issues_ret.
Qed.

Lemma hasWildcardARecord_noThrow (cf : t) (domain : string) :
  noThrow (hasWildcardARecord net cf domain).
Proof.
  unfold hasWildcardARecord. apply noThrow_bind; [apply getDNSRecords_noThrow |].
  intros records. destruct (find _ records); apply noThrow_ret.
Qed.

Lemma createDNSRecord_issues (cf : t) (domain : string) (data : RecordData.t) :
  issues (getOrCreate data) (createDNSRecord net cf domain data).
Proof.
  unfold createDNSRecord. destruct (getZoneIdForDomain cf domain) as [zoneId|];
    [| apply issues_ret].
  destruct (negb _); [apply issues_ret |].
  apply issues_bind.
  - destruct (String.eqb _ "CNAME"); [| apply issues_ret].
    eapply issues_weaken; [| apply hasWildcardARecord_issues]. now left.
  - intros [|]; [apply issues_ret |].
    apply issues_try_catch; [| intros e; apply issues_ret].
    apply issues_bind; [| intros d; apply issues_ret].
    apply makeRequest_issues. now right.
Qed.

Lemma createDNSRecord_noThrow (cf : t) (domain : string) (data : RecordData.t) :
  noThrow (createDNSRecord net cf domain data).
Proof.
  unfold createDNSRecord. destruct (getZoneIdForDomain cf domain) as [zoneId|];
    [| apply noThrow_ret].
  destruct (negb _); [apply noThrow_ret |].
  apply noThrow_bind.
  - destruct (String.eqb _ "CNAME"); [apply hasWildcardARecord_noThrow | apply noThrow_ret].
  - intros [|]; [apply noThrow_ret |].
    apply noThrow_try_catch. intros e. apply noThrow_ret.
Qed.

Lemma updateDNSRecord_issues (cf : t) (domain recordId : string) (data : PartialRecord.t) :
  issues (methodIn [GET; PUT]) (updateDNSRecord net cf domain recordId data).
Proof.
  unfold updateDNSRecord. destruct (getZoneIdForDomain cf domain) as [zoneId|];
    [| apply issues_ret].
  destruct (negb _); [apply issues_ret |].
  apply issues_bind.
  - destruct (isCNAME _); [| apply issues_ret].
    eapply issues_weaken; [| apply hasWildcardARecord_issues].
    intros r. apply methodIn_GET. now left.
  - intros [|]; [apply issues_ret |].
    apply issues_try_catch; [| intros e; apply issues_ret].
    apply issues_bind; [| intros d; apply issues_ret].
    apply makeRequest_issues. right. now left.
Qed.

Lemma updateDNSRecord_noThrow (cf : t) (domain recordId : string) (data : PartialRecord.t) :
  noThrow (updateDNSRecord net cf domain recordId data).
Proof.
  unfold updateDNSRecord. destruct (getZoneIdForDomain cf domain) as [zoneId|];
    [| apply noThrow_ret].
  destruct (negb _); [apply noThrow_ret |].
  apply noThrow_bind.
  - destruct (isCNAME _); [apply hasWildcardARecord_noThrow | apply noThrow_ret].
  - intros [|]; [apply noThrow_ret |].
    apply noThrow_try_catch. intros e. apply noThrow_ret.
Qed.

Lemma deleteDNSRecord_issues (cf : t) (domain recordId : string) :
  issues (methodIn [DELETE]) (deleteDNSRecord net cf domain recordId).
Proof.
  unfold deleteDNSRecord. destruct (getZoneIdForDomain cf domain) as [zoneId|];
    [| apply issues_ret].
  destruct (negb _); [apply issues_ret |].
  apply issues_try_catch; [| intros e; apply issues_ret].
  apply issues_bind; [| intros d; apply issues_ret].
  apply makeRequest_issues. now left.
Qed.

Lemma deleteDNSRecord_noThrow (cf : t) (domain recordId : string) :
  noThrow (deleteDNSRecord net cf domain recordId).
Proof.
  unfold deleteDNSRecord. destruct (getZoneIdForDomain cf domain) as [zoneId|];
    [| apply noThrow_ret].
  destruct (negb _); [apply noThrow_ret |].
  apply noThrow_try_catch. intros e. apply noThrow_ret.
Qed.

Lemma tryService_issues (t0 : Z) (s : PublicIP.Service) :
  issues (fun r => method r = GET) (PublicIP.tryService net t0 s).
Proof.
  unfold PublicIP.tryService.
  apply issues_bind; [now apply issues_fetch |]. intros response.
  unfold PublicIP.applyExtract. repeat issues_step.
Qed.

Lemma getPublicIP_issues : issues (fun r => method r = GET) (PublicIP.getPublicIP net).
Proof.
  assert (Ha : forall t0 s remaining attempt,
             issues (fun r => method r = GET) (PublicIP.attempts net t0 s remaining attempt)).
  { intros t0 s remaining. induction remaining as [|remaining IH]; intros attempt;
      cbn [PublicIP.attempts]; [apply issues_ret |].
    apply issues_bind.
    - apply issues_try_catch.
      + apply issues_bind; [apply tryService_issues | intros ip; apply issues_ret].
      + intros e. repeat issues_step.
    - intros [ip|]; [apply issues_ret | apply IH]. }
  assert (Hs : forall t0 l, issues (fun r => method r = GET) (PublicIP.tryServices net t0 l)).
  { intros t0 l. induction l as [|s l IH]; cbn [PublicIP.tryServices]; [apply issues_ret |].
    apply issues_bind; [apply Ha |]. intros [ip|]; [apply issues_ret | apply IH]. }
  unfold PublicIP.getPublicIP. apply issues_bind; [apply issues_getWorld |].
  intros w. destruct (_ && _); [destruct (cachedIP w); apply issues_ret |].
  apply issues_bind; [apply Hs |]. intros [ip|]; [apply issues_ret |].
  apply issues_bind; [apply issues_getWorld |]. intros w'.
  destruct (truthy (cachedIP w')); [destruct (cachedIP w'); apply issues_ret |].
  apply issues_throw.
Qed.

Lemma updateRootDomainRecords_issues (cf : t) :
  issues (methodIn [GET; POST; PUT]) (updateRootDomainRecords net cf).
Proof.
  unfold updateRootDomainRecords.
  apply issues_try_catch; [| intros e; apply issues_ret].
  apply issues_bind.
  { eapply issues_weaken; [| apply getPublicIP_issues].
    intros r. apply methodIn_GET. now left. }
  intros publicIP. apply issues_forEach. intros entry.
  apply issues_bind.
  { eapply issues_weaken; [| apply getDNSRecords_issues].
    intros r. apply methodIn_GET. now left. }
  intros records. destruct (find _ records) as [aRecord|].
  - destruct (negb _); [| apply issues_ret].
    apply issues_bind; [| intros x; apply issues_ret].
    eapply issues_weaken; [| apply updateDNSRecord_issues].
    intros r. apply methodIn_incl. intros m [<- | [<- | []]]; cbn; auto.
  - apply issues_bind; [| intros x; apply issues_ret].
    eapply issues_weaken; [| apply createDNSRecord_issues].
    intros r [Hg | [Hp _]]; unfold methodIn; rewrite ?Hg, ?Hp; cbn; auto.
Qed.

Lemma initZones_issues (cf : t) :
  issues (methodIn [GET; POST; PUT]) (initZones net cf).
Proof.
  unfold initZones. apply issues_bind.
  { eapply issues_weaken; [| apply getZones_issues].
    intros r. apply methodIn_incl. intros m [<- | []]. now left. }
  intros zs. apply issues_bind; [apply updateRootDomainRecords_issues |].
  intros x. apply issues_ret.
Qed.

Lemma initZones_noThrow (cf : t) : noThrow (initZones net cf).
Proof.
  unfold initZones. apply noThrow_bind; [apply getZones_noThrow |]. intros zs.
  apply noThrow_bind; [| intros x; apply noThrow_ret].
  apply noThrow_try_catch. intros e. apply noThrow_ret.
Qed.

End WithNet.
End CloudflareFacts.

(* ================================================================== *)
(** ** The request layer of the Cloudflare client ([makeRequest]) *)
(* ================================================================== *)

Module RequestLayer.
Import JS CloudflareAPI Trace CloudflareFacts.

Definition nothing : Request -> Prop := fun _ => False.

Lemma issues_nothing_sent {A} (m : M A) :
  issues nothing m -> forall w, sent (snd (m w)) = sent w.
Proof.
  intros H w. destruct (H w) as [l [E F]]. destruct l as [|s l].
  - now rewrite app_nil_r in E.
  - inversion F as [|? ? Hs]. destruct Hs.
Qed.

Section Loop.
Context {T : Type}.
Variable req : Request.
Variable answer : nat -> Reply (CloudflareResponse.t T).
Variable context : string.

Lemma fetch_run (w : World) :
  fetch None req answer w =
  match answer (List.length (sent w)) with
  | NetworkError el => (Throw (JsError "fetch failed"), advance (Z.of_N el) (record req w))
  | Response el r => (Return r, advance (Z.of_N el) (record req w))
  end.
Proof. unfold fetch. now destruct (answer (List.length (sent w))). Qed.

(** One iteration issues exactly one request, at the time it starts. *)
Lemma makeRequest_attempt_sent (attempt : Z) (lastError : option Error) (w : World) :
  sent (snd (makeRequest_attempt req answer context attempt lastError w))
  = sent w ++ [mkSent (now w) req].
Proof.
  unfold makeRequest_attempt, try_catch. unfold bind at 1. rewrite fetch_run.
  destruct (answer (List.length (sent w))) as [el | el r].
  - match goal with |- sent (snd (?h ?w1)) = _ =>
      rewrite (issues_nothing_sent h); [reflexivity |] end.
    repeat (first [apply issues_delay | issues_step]).
  - match goal with |- sent (snd (let (_, _) := ?k ?w1 in _)) = _ =>
      pose proof (issues_nothing_sent k) as Hk; destruct (k w1) as [[it | e] w2] eqn:Ek end.
    + cbn [snd]. change w2 with (snd (Return it, w2)). rewrite <- Ek, Hk; [reflexivity |].
      repeat (first [apply issues_delay | issues_step]).
    + match goal with |- sent (snd (?h w2)) = _ =>
        rewrite (issues_nothing_sent h) end.
      * change w2 with (snd (@Throw (Iter (CloudflareResponse.t T)) e, w2)).
        rewrite <- Ek, Hk; [reflexivity |].
        repeat (first [apply issues_delay | issues_step]).
      * repeat (first [apply issues_delay | issues_step]).
Qed.

Lemma makeRequest_loop_step (remaining : nat) (attempt : Z) (lastError : option Error)
    (w : World) :
  makeRequest_loop req answer context (S remaining) attempt lastError w =
  match makeRequest_attempt req answer context attempt lastError w with
  | (Return (Done data), w1) => (Return data, w1)
  | (Return (Continue lastError'), w1) =>
      makeRequest_loop req answer context remaining (attempt + 1) lastError' w1
  | (Throw e, w1) => (Throw e, w1)
  end.
Proof.
  cbn [makeRequest_loop]. unfold bind.
  now destruct (makeRequest_attempt req answer context attempt lastError w)
    as [[[data | le] | e] w1].
Qed.

(** The loop issues at most [remaining] requests, all of them [req], the
    first one at once. *)
Lemma makeRequest_loop_sent (remaining : nat) :
  forall (attempt : Z) (lastError : option Error) (w : World),
  exists l,
    sent (snd (makeRequest_loop req answer context remaining attempt lastError w))
    = sent w ++ l
    /\ (List.length l <= remaining)%nat
    /\ Forall (fun s => request s = req) l
    /\ (remaining <> 0%nat -> exists rest, l = mkSent (now w) req :: rest).
Proof.
  induction remaining as [|remaining IH]; intros attempt lastError w.
  - exists []. cbn. rewrite app_nil_r. repeat split; auto. congruence.
  - rewrite makeRequest_loop_step.
    pose proof (makeRequest_attempt_sent attempt lastError w) as Hs.
    destruct (makeRequest_attempt req answer context attempt lastError w)
      as [[[data | le] | e] w1]; cbn [snd] in Hs |- *.
    + exists [mkSent (now w) req].
      repeat split; auto; cbn; try lia; try (now repeat constructor);
        try (intros _; now exists []).
    + destruct (IH (attempt + 1) le w1) as (l & El & Hlen & Hall & _).
      exists (mkSent (now w) req :: l). rewrite El, Hs, <- app_assoc.
      repeat split; auto; cbn; try lia; try (now constructor);
        try (intros _; now exists l).
    + exists [mkSent (now w) req].
      repeat split; auto; cbn; try lia; try (now repeat constructor);
        try (intros _; now exists []).
Qed.

Lemma status_not_ok (r : HttpResponse (CloudflareResponse.t T)) :
  status r = 530 \/ status r = 429 -> ok r = false.
Proof. unfold ok. now intros [-> | ->]. Qed.

Definition authenticationFailed : Error :=
  CloudflareError "Authentication failed. Please check your API token." 530.

Lemma makeRequest_attempt_530 (attempt : Z) (lastError : option Error) (w : World)
    (el : N) (r : HttpResponse (CloudflareResponse.t T)) :
  answer (List.length (sent w)) = Response el r -> status r = 530 ->
  makeRequest_attempt req answer context attempt lastError w
  = (Throw authenticationFailed, advance (Z.of_N el) (record req w)).
Proof.
  intros Ea Es. unfold makeRequest_attempt, try_catch. unfold bind at 1.
  rewrite fetch_run, Ea, (status_not_ok r) by auto. now rewrite Es.
Qed.

Lemma makeRequest_attempt_429 (attempt : Z) (lastError : option Error) (w : World)
    (el : N) (r : HttpResponse (CloudflareResponse.t T)) :
  answer (List.length (sent w)) = Response el r -> status r = 429 ->
  makeRequest_attempt req answer context attempt lastError w
  = if attempt <? maxRetries - 1
    then (Return (Continue lastError),
          advance (timerDelay (rateLimitWait (retryAfter r)))
                  (advance (Z.of_N el) (record req w)))
    else (Throw (CloudflareError (context +++ " failed: " +++ errorMessage r) 429),
          advance (Z.of_N el) (record req w)).
Proof.
  intros Ea Es. unfold makeRequest_attempt, try_catch. unfold bind at 1.
  rewrite fetch_run, Ea, (status_not_ok r) by auto. rewrite Es.
  cbn -[Z.ltb maxRetries rateLimitWait timerDelay String.append errorMessage].
  now destruct (attempt <? maxRetries - 1).
Qed.

Lemma rateLimitWait_seconds (hdr : string) (n : Z) :
  parseInt10 hdr = Some n -> rateLimitWait (Some hdr) = Some (n * 1000).
Proof.
  intros Ep. unfold rateLimitWait. rewrite Ep.
  destruct hdr; [discriminate | reflexivity].
Qed.

End Loop.

(** A guarded [makeRequest]: one to three copies of the request. *)
Lemma guarded_request_sent {T B} (req : Request)
    (answer : nat -> Reply (CloudflareResponse.t T)) (context : string)
    (k : CloudflareResponse.t T -> M B) (h : Error -> M B) (w : World) :
  (forall d, issues nothing (k d)) -> (forall e, issues nothing (h e)) ->
  exists rest,
    sent (snd (try_catch (bind (makeRequest req answer context) k) h w))
    = sent w ++ (mkSent (now w) req :: rest)
    /\ (List.length rest <= 2)%nat
    /\ Forall (fun s => request s = req) rest.
Proof.
  intros Hk Hh. unfold try_catch, bind, makeRequest.
  change (Z.to_nat maxRetries) with 3%nat.
  destruct (makeRequest_loop_sent req answer context 3 0 None w)
    as (l & El & Hlen & Hall & Hfirst).
  destruct Hfirst as [rest ->]; [lia |]. exists rest.
  split; [| split; [cbn in Hlen; lia | now inversion Hall]].
  destruct (makeRequest_loop req answer context 3 0 None w) as [[d | e] w1];
    cbn [snd] in El.
  - pose proof (issues_nothing_sent (k d) (Hk d) w1) as Hs.
    destruct (k d w1) as [[b | e] w2]; cbn [snd] in Hs |- *.
    + congruence.
    + rewrite (issues_nothing_sent (h e) (Hh e)). cbn [snd]. congruence.
  - rewrite (issues_nothing_sent (h e) (Hh e)). exact El.
Qed.

End RequestLayer.

Module RequestLayerTheorems.
Import JS CloudflareAPI Trace RequestLayer.

(** C5.  In [makeRequest], at the attempt number [k] (0, 1 or 2, with
    [3 - k] attempts left): a response with status 530 makes the call throw
    the authentication error at once, with no further request, whatever
    budget remains.  A response with status 429 whose Retry-After header
    reads as [n] seconds is followed, when an attempt is left ([k < 2]), by
    a next request issued when the timer armed with [1000 * n] milliseconds
    fires: no earlier than [1000 * n] milliseconds after the response
    arrived while [1000 * n] lies between 1 and 2^31 - 1, and 1 millisecond
    after the response when [1000 * n] exceeds 2^31 - 1, where the claimed
    wait is not kept.  On the last attempt ([k = 2]) no request follows.
    The attempts from [k] on issue at most [3 - k] requests. *)
Theorem makeRequest_530_fatal_429_waits :
  forall (T : Type) (req : Request) (answer : nat -> Reply (CloudflareResponse.t T))
         (context : string) (k : nat) (lastError : option Error) (w : World)
         (el : N) (r : HttpResponse (CloudflareResponse.t T)),
    (k < 3)%nat ->
    answer (List.length (sent w)) = Response el r ->
    let run := makeRequest_loop req answer context (3 - k) (Z.of_nat k) lastError w in
    (status r = 530 ->
       fst run = Throw authenticationFailed
       /\ sent (snd run) = sent w ++ [mkSent (now w) req])
    /\ (status r = 429 ->
        forall hdr n, retryAfter r = Some hdr -> parseInt10 hdr = Some n ->
          ((k < 2)%nat ->
             exists tNext rest,
               sent (snd run) = sent w ++ (mkSent (now w) req :: mkSent tNext req :: rest)
               /\ tNext = now w + Z.of_N el + timerDelay (Some (n * 1000))
               /\ (1 <= 1000 * n <= TIMEOUT_MAX -> now w + Z.of_N el + 1000 * n <= tNext)
               /\ (TIMEOUT_MAX < 1000 * n -> tNext = now w + Z.of_N el + 1))
          /\ (k = 2%nat ->
                (exists e, fst run = Throw e)
                /\ sent (snd run) = sent w ++ [mkSent (now w) req]))
    /\ (exists l, sent (snd run) = sent w ++ l /\ (List.length l <= 3 - k)%nat).
Proof.
  intros T req answer context k lastError w el r Hk Ea run.
  assert (Hrem : (3 - k = S (2 - k))%nat) by lia.
  split; [| split].
  - intros Es. subst run. rewrite Hrem, makeRequest_loop_step.
    rewrite (makeRequest_attempt_530 req answer context _ _ w el r Ea Es).
    split; reflexivity.
  - intros Es hdr n Eh Ep. subst run. rewrite Hrem, makeRequest_loop_step.
    rewrite (makeRequest_attempt_429 req answer context _ _ w el r Ea Es).
    rewrite Eh, (rateLimitWait_seconds hdr n Ep). split.
    + intros Hk2.
      assert (Hlt : (Z.of_nat k <? maxRetries - 1) = true)
        by (apply Z.ltb_lt; unfold maxRetries; lia).
      rewrite Hlt.
      set (w2 := advance (timerDelay (Some (n * 1000)))
                         (advance (Z.of_N el) (record req w))).
      destruct (makeRequest_loop_sent req answer context (2 - k) (Z.of_nat k + 1)
                  lastError w2) as (l & El & _ & _ & Hfirst).
      destruct Hfirst as [rest ->]; [lia |].
      exists (now w2), rest. split; [| split; [| split]].
      * rewrite El. subst w2. cbn [sent advance record]. now rewrite <- app_assoc.
      * reflexivity.
      * intros Hrange. subst w2. cbn [now advance record]. unfold timerDelay.
        destruct (Z.ltb_spec (n * 1000) 1); destruct (Z.ltb_spec TIMEOUT_MAX (n * 1000));
          cbn [orb]; lia.
      * intros Hbig. subst w2. cbn [now advance record]. unfold timerDelay.
        destruct (Z.ltb_spec (n * 1000) 1); destruct (Z.ltb_spec TIMEOUT_MAX (n * 1000));
          cbn [orb]; lia.
    + intros ->. cbn. split; [eauto | reflexivity].
  - subst run. destruct (makeRequest_loop_sent req answer context (3 - k) (Z.of_nat k)
                           lastError w) as (l & El & Hlen & _). now exists l.
Qed.

(** *** Example: rate-limited once with Retry-After: 2, then served. *)

Definition listRecords : Request := mkRequest GET (CfDnsRecords "z1") NoBody.

Definition rateLimited : HttpResponse (CloudflareResponse.t (list DNSRecord.t)) :=
  mkResponse 429 "Too Many Requests" (Some "2") (Some "application/json") None "".

Definition limitedOnce (n : nat) : Reply (CloudflareResponse.t (list DNSRecord.t)) :=
  match n with
  | O => Response 35 rateLimited
  | _ => Networks.cfOk [Networks.rootA]
  end.

Lemma makeRequest_530_fatal_429_waits_witness :
  exists tNext rest,
    sent (snd (makeRequest listRecords limitedOnce "Fetching DNS records" (initialWorld 1000)))
    = [] ++ (mkSent 1000 listRecords :: mkSent tNext listRecords :: rest)
    /\ 1000 + 35 + 1000 * 2 <= tNext.
Proof.
  destruct (makeRequest_530_fatal_429_waits _ listRecords limitedOnce "Fetching DNS records"
              0 None (initialWorld 1000) 35 rateLimited ltac:(lia) eq_refl)
    as (_ & H429 & _).
  destruct (H429 eq_refl "2" 2 eq_refl eq_refl) as [Hnext _].
  destruct (Hnext ltac:(lia)) as (tNext & rest & Hsent & _ & Hwait & _).
  exists tNext, rest. split; [exact Hsent |]. apply Hwait. unfold TIMEOUT_MAX. lia.
Defined.

(** A Retry-After of 2147484 seconds, one more than the timer holds in
    milliseconds: the request is repeated one millisecond after the 429
    arrived. *)
Definition rateLimitedForLong : HttpResponse (CloudflareResponse.t (list DNSRecord.t)) :=
  mkResponse 429 "Too Many Requests" (Some "2147484") (Some "application/json") None "".

Definition limitedForLongOnce (n : nat) : Reply (CloudflareResponse.t (list DNSRecord.t)) :=
  match n with
  | O => Response 35 rateLimitedForLong
  | _ => Networks.cfOk [Networks.rootA]
  end.

Lemma makeRequest_429_retries_early :
  parseInt10 "2147484" = Some 2147484
  /\ sent (snd (makeRequest listRecords limitedForLongOnce "Fetching DNS records"
                  (initialWorld 1000)))
     = [mkSent 1000 listRecords; mkSent 1036 listRecords]
  /\ ~ (1000 + 35 + 1000 * 2147484 <= 1036).
Proof. split; [reflexivity | split; [reflexivity | lia]]. Qed.

Example makeRequest_rate_limited_trace :
  sent (snd (makeRequest listRecords limitedOnce "Fetching DNS records" (initialWorld 1000)))
  = [mkSent 1000 listRecords; mkSent 3035 listRecords].
Proof. reflexivity. Qed.

End RequestLayerTheorems.

(* ================================================================== *)
(** ** The wildcard guard of [createDNSRecord] and [updateDNSRecord] *)
(* ================================================================== *)

Module WildcardGuard.
Import JS CloudflareAPI Trace CloudflareFacts RootDomain.


Section WithNet.
Variable net : Net.

(** A listing that shows records was made for a known zone. *)
Lemma getDNSRecords_nonempty (cf : t) (domain : string) (w w1 : World)
    (records : list DNSRecord.t) (rec : DNSRecord.t) :
  getDNSRecords net cf domain w = (Return records, w1) -> In rec records ->
  exists zoneId, getZoneIdForDomain cf domain = Some zoneId
                 /\ truthy (Some zoneId) = true.
Proof.
  unfold getDNSRecords, ret. destruct (getZoneIdForDomain cf domain) as [zoneId|].
  - destruct (truthy (Some zoneId)) eqn:Et; cbn [negb]; [now exists zoneId |].
    intros [= <- _] [].
  - intros [= <- _] [].
Qed.



End WithNet.

(** *** Examples *)

Import Networks.








End WildcardGuard.

(* ================================================================== *)
(** ** The orchestrator callback ([handleNPMChanges]) *)
(* ================================================================== *)

Module IndexFacts.
Import JS CloudflareAPI Index Trace CloudflareFacts RequestLayer.

(** Requests that leave the records named [d] alone: listings, and
    creations of records with another name. *)
Definition leavesAlone (d : string) (r : Request) : Prop :=
  method r = GET
  \/ exists data, method r = POST /\ body r = CreateBody data /\ RecordData.name data <> d.

(** A delivered, successful listing that shows a record named [d]. *)
Definition listsName (d : string) (reply : Reply (CloudflareResponse.t (list DNSRecord.t)))
    : Prop :=
  exists el r data,
    reply = Response el r /\ ok r = true /\ json r = Some data
    /\ CloudflareResponse.success data = true
    /\ existsb (hasName d) (CloudflareResponse.result data) = true.

Section WithNet.
Variable net : Net.
Variable config : Config.

Lemma deleteDomain_issues (cf : CloudflareAPI.t) (domain : string) :
  issues (methodIn [GET; DELETE]) (deleteDomain net cf domain).
Proof.
  unfold deleteDomain. apply issues_bind.
  { eapply issues_weaken; [| apply getDNSRecords_issues].
    intros r. apply methodIn_GET. now left. }
  intros records. destruct (find _ records) as [rec|]; [| apply issues_ret].
  apply issues_bind; [| intros x; apply issues_ret].
  eapply issues_weaken; [| apply deleteDNSRecord_issues].
  intros r. apply methodIn_incl. intros m [<- | []]. right. now left.
Qed.

Lemma deleteDomain_noThrow (cf : CloudflareAPI.t) (domain : string) :
  noThrow (deleteDomain net cf domain).
Proof.
  unfold deleteDomain. apply noThrow_bind; [apply getDNSRecords_noThrow |].
  intros records. destruct (find _ records) as [rec|]; [| apply noThrow_ret].
  apply noThrow_bind; [apply deleteDNSRecord_noThrow | intros x; apply noThrow_ret].
Qed.

Lemma handleDeletedHosts_issues (cf : CloudflareAPI.t) (hosts : list NPMHost.t) :
  issues (methodIn [GET; DELETE]) (handleDeletedHosts net cf hosts).
Proof.
  unfold handleDeletedHosts. apply issues_forEach. intros host.
  apply issues_forEach. intros domain. apply deleteDomain_issues.
Qed.

Lemma handleDeletedHosts_noThrow (cf : CloudflareAPI.t) (hosts : list NPMHost.t) :
  noThrow (handleDeletedHosts net cf hosts).
Proof.
  unfold handleDeletedHosts. apply noThrow_forEach. intros host.
  apply noThrow_forEach. intros domain. apply deleteDomain_noThrow.
Qed.

Lemma ensureRootDomainRecord_issues (cf : CloudflareAPI.t) (domain : string) :
  issues (fun r => method r = GET
                   \/ exists ip, method r = POST
                        /\ body r = CreateBody
                                      (RecordData.mk (getRootDomain cf domain) "A" ip true))
         (ensureRootDomainRecord net config cf domain).
Proof.
  unfold ensureRootDomainRecord.
  destruct (negb _); [apply issues_ret |].
  destruct (String.eqb domain _); [apply issues_ret |].
  apply issues_bind.
  { eapply issues_weaken; [| apply getDNSRecords_issues]. now left. }
  intros records. destruct (find _ records) as [rec|]; [apply issues_ret |].
  destruct (negb _); [apply issues_ret |].
  apply issues_bind.
  { eapply issues_weaken; [| apply getPublicIP_issues]. now left. }
  intros publicIP. apply issues_bind.
  - eapply issues_weaken; [| apply createDNSRecord_issues].
    intros r [Hg | Hp]; [now left | right; now exists publicIP].
  - intros [created|]; apply issues_ret.
Qed.

Lemma leavesAlone_methods (d : string) (r : Request) :
  leavesAlone d r -> methodIn [GET; POST] r.
Proof.
  unfold methodIn. intros [-> | (data & -> & _)]; cbn; auto.
Qed.


Lemma syncDomain_issues (cf : CloudflareAPI.t) (domain : string) :
  issues (methodIn [GET; POST]) (syncDomain net config cf domain).
Proof.
  assert (Hget : forall r, method r = GET -> methodIn [GET; POST] r)
    by (intros r; apply methodIn_GET; now left).
  assert (Hcreate : forall data r, getOrCreate data r -> methodIn [GET; POST] r).
  { intros data r [Hg | [Hp _]]; unfold methodIn; rewrite ?Hg, ?Hp; cbn; auto. }
  unfold syncDomain. apply issues_bind.
  { destruct (negb _); [| apply issues_ret].
    eapply issues_weaken; [| apply ensureRootDomainRecord_issues].
    intros r [Hg | (ip & Hp & _)]; [now apply Hget |].
    unfold methodIn. rewrite Hp. cbn. auto. }
  intros proceed. destruct (negb proceed); [apply issues_ret |].
  apply issues_bind.
  { eapply issues_weaken; [| apply getDNSRecords_issues]. exact Hget. }
  intros records. destruct (find _ records) as [rec|]; [apply issues_ret |].
  destruct (negb _).
  - apply issues_bind; [| intros x; apply issues_ret].
    eapply issues_weaken; [| apply createDNSRecord_issues]. apply Hcreate.
  - apply issues_bind.
    { eapply issues_weaken; [| apply getPublicIP_issues]. exact Hget. }
    intros currentIP. destruct (autoCreateRootRecords config); [| apply issues_ret].
    apply issues_bind; [| intros x; apply issues_ret].
    eapply issues_weaken; [| apply createDNSRecord_issues]. apply Hcreate.
Qed.

Lemma handleChangedHosts_issues (cf : CloudflareAPI.t) (hosts : list NPMHost.t) :
  issues (methodIn [GET; POST]) (handleChangedHosts net config cf hosts).
Proof.
  unfold handleChangedHosts. apply issues_forEach. intros host.
  apply issues_forEach. intros domain. apply syncDomain_issues.
Qed.

(** C9.  One invocation of [handleNPMChanges] with a configured token runs
    three phases in sequence: the zone initialisation, the loop over the
    deleted hosts, the loop over the changed hosts.  The requests of the
    invocation are those of the three phases in that order; the deletion
    loop always completes, and issues only listings and DELETE requests;
    the loop over the changed hosts issues only listings and POST (create)
    requests; the initialisation issues no DELETE.  Hence every deletion
    for the deleted hosts is issued before any create or update for the
    changed hosts.  (Without a token the constructor throws and nothing
    is issued.) *)
Theorem deletions_precede_creations :
  forall (currentHosts changedHosts deletedHosts : list NPMHost.t) (w : World),
    let run := handleNPMChanges net config currentHosts changedHosts deletedHosts w in
    (truthy (Some (cloudflare_apiToken config)) = false ->
       run = (Throw (JsError "Cloudflare API token is required"), w))
    /\ (truthy (Some (cloudflare_apiToken config)) = true ->
        exists cf w1 w2 init dels syncs,
          initZones net (CloudflareAPI.mk (cloudflare_apiToken config) []) w = (Return cf, w1)
          /\ handleDeletedHosts net cf deletedHosts w1 = (Return tt, w2)
          /\ run = handleChangedHosts net config cf changedHosts w2
          /\ sent w1 = sent w ++ init
          /\ sent w2 = sent w1 ++ dels
          /\ sent (snd run) = sent w2 ++ syncs
          /\ Forall (fun s => methodIn [GET; POST; PUT] (request s)) init
          /\ Forall (fun s => methodIn [GET; DELETE] (request s)) dels
          /\ Forall (fun s => methodIn [GET; POST] (request s)) syncs).
Proof.
  intros currentHosts changedHosts deletedHosts w run. subst run.
  unfold handleNPMChanges, CloudflareAPI.new. split; intros Ht; rewrite Ht; cbn [negb].
  - reflexivity.
  - set (cf0 := CloudflareAPI.mk (cloudflare_apiToken config) []).
    destruct (initZones_noThrow net cf0 w) as [cf Hcf].
    destruct (initZones_issues net cf0 w) as (init & Ei & Fi).
    destruct (initZones net cf0 w) as [r1 w1] eqn:E1. cbn [fst snd] in Hcf, Ei. subst r1.
    destruct (handleDeletedHosts_noThrow cf deletedHosts w1) as [[] Hd].
    destruct (handleDeletedHosts_issues cf deletedHosts w1) as (dels & Ed & Fd).
    destruct (handleDeletedHosts net cf deletedHosts w1) as [r2 w2] eqn:E2.
    cbn [fst snd] in Hd, Ed. subst r2.
    destruct (handleChangedHosts_issues cf changedHosts w2) as (syncs & Es & Fs).
    assert (Hrun : (cf1 <- ret cf0 ;; cf2 <- initZones net cf1 ;;
                    handleDeletedHosts net cf2 deletedHosts ;;;
                    handleChangedHosts net config cf2 changedHosts) w
                   = handleChangedHosts net config cf changedHosts w2).
    { unfold bind, ret. now rewrite E1, E2. }
    rewrite Hrun.
    exists cf, w1, w2, init, dels, syncs. repeat split; auto.
Qed.

(** What [syncDomain] runs before it lists the records of the domain. *)
Definition rootCheck (cf : CloudflareAPI.t) (domainName : string) : M bool :=
  if negb (String.eqb domainName (getRootDomain cf domainName))
  then ensureRootDomainRecord net config cf domainName
  else ret true.

Lemma rootCheck_issues (cf : CloudflareAPI.t) (d : string) :
  issues (leavesAlone d) (rootCheck cf d).
Proof.
  unfold rootCheck. destruct (String.eqb_spec d (getRootDomain cf d)) as [E | N];
    cbn [negb]; [apply issues_ret |].
  eapply issues_weaken; [| apply ensureRootDomainRecord_issues].
  intros r [Hg | (ip & Hp & Hb)]; [now left | right].
  exists (RecordData.mk (getRootDomain cf d) "A" ip true).
  repeat split; auto; cbn; congruence.
Qed.

Lemma syncDomain_step (cf : CloudflareAPI.t) (domain : string) (w : World) :
  let d := trim domain in
  let root := getRootDomain cf d in
  syncDomain net config cf domain w =
  match rootCheck cf d w with
  | (Throw e, wp) => (Throw e, wp)
  | (Return false, wp) => (Return tt, wp)
  | (Return true, wp) =>
      match getDNSRecords net cf d wp with
      | (Throw e, w2) => (Throw e, w2)
      | (Return records, w2) =>
          match find (hasName d) records with
          | Some _ => (Return tt, w2)
          | None =>
              if negb (String.eqb d root) then
                (createDNSRecord net cf d (RecordData.mk d "CNAME" root true) ;;;
                 ret tt) w2
              else
                (currentIP <- PublicIP.getPublicIP net ;;
                 if autoCreateRootRecords config then
                   createDNSRecord net cf d (RecordData.mk d "A" currentIP true) ;;;
                   ret tt
                 else ret tt) w2
          end
      end
  end.
Proof.
  cbv zeta. unfold syncDomain. cbv zeta.
  change (if negb (trim domain =? getRootDomain cf (trim domain))%string
          then ensureRootDomainRecord net config cf (trim domain)
          else ret true) with (rootCheck cf (trim domain)).
  unfold bind at 1.
  destruct (rootCheck cf (trim domain) w) as [[[|] | e] wp]; cbn [negb]; try reflexivity.
  unfold bind at 1.
  destruct (getDNSRecords net cf (trim domain) wp) as [[records | e] w2]; [| reflexivity].
  destruct (find (hasName (trim domain)) records); [reflexivity |].
  now destruct (negb (trim domain =? getRootDomain cf (trim domain))%string).
Qed.

Lemma find_hasName (d : string) (records : list DNSRecord.t) :
  (existsb (hasName d) records = true -> exists rec, find (hasName d) records = Some rec)
  /\ (existsb (hasName d) records = false -> find (hasName d) records = None).
Proof.
  destruct (find (hasName d) records) as [rec|] eqn:Ef; split; intros Hex; eauto.
  - apply find_some in Ef as [Hin Hn].
    assert (Ht : existsb (hasName d) records = true)
      by (apply existsb_exists; now exists rec).
    congruence.
  - apply existsb_exists in Hex as (rec & Hin & Hn).
    now rewrite (find_none _ _ Ef rec Hin) in Hn.
Qed.

(** The creation of a CNAME once the wildcard guard has found nothing. *)
Lemma createDNSRecord_cname_step (cf : CloudflareAPI.t) (d zoneId : string)
    (data : RecordData.t) (w2 w3 : World) :
  getZoneIdForDomain cf d = Some zoneId -> zoneId <> "" ->
  RecordData.type data = "CNAME" ->
  hasWildcardARecord net cf d w2 = (Return false, w3) ->
  createDNSRecord net cf d data w2
  = try_catch
      (result <- makeRequest (mkRequest POST (CfDnsRecords zoneId) (CreateBody data))
                   (fun n => cf_create net n zoneId data) "Creating DNS record" ;;
       ret (CloudflareResponse.result result))
      (fun _ => ret None) w3.
Proof.
  intros Hz Hne Hty Hg. unfold createDNSRecord. rewrite Hz.
  assert (Ht : truthy (Some zoneId) = true).
  { cbn. destruct (String.eqb_spec zoneId ""); [contradiction | reflexivity]. }
  rewrite Ht, Hty. cbn [negb]. rewrite String.eqb_refl.
  unfold bind at 1. now rewrite Hg.
Qed.

(** C10, as the code has it.  While the domain name [d] (trimmed) of a
    changed or new host is processed, whether a record exists is read off
    the listing fetched for [d] after the root-record check.
    (1) A listing whose request fails is returned as the empty list.
    (2) If the listing shows a record named exactly [d], the processing of
    [d] issues no create for the name [d] and no update (nor delete) at
    all: its requests are listings and, at most, the creation of the root
    A record under another name.
    (3) If the listing shows no record named [d] (as a failed listing
    does, even when the record exists), [d] is a sub-domain that passed the
    root-record check, its zone id is known and the wildcard guard finds no
    wildcard A record, then the CNAME of [d] is created: the POST is issued
    at once after the guard and repeated at most twice.
    (4) If the listing shows no record named [d], [d] is its own root
    domain and auto-creation is disabled, nothing is created: after the
    listing only the public address is resolved.
    (5) If the root-record check fails, nothing more is done for [d]. *)
Theorem syncDomain_skips_listed_record :
  forall (cf : CloudflareAPI.t) (domain : string) (w : World),
    let d := trim domain in
    let root := getRootDomain cf d in
    let run := syncDomain net config cf domain w in
    (forall zoneId w0 e,
       getZoneIdForDomain cf d = Some zoneId -> zoneId <> "" ->
       fst (makeRequest (mkRequest GET (CfDnsRecords zoneId) NoBody)
              (fun n => cf_dns_records net n zoneId) "Fetching DNS records" w0) = Throw e ->
       fst (getDNSRecords net cf d w0) = Return [])
    /\ (forall w2 records,
          getDNSRecords net cf d (snd (rootCheck cf d w)) = (Return records, w2) ->
          existsb (hasName d) records = true ->
          exists l,
            sent (snd run) = sent w ++ l
            /\ Forall (fun s => leavesAlone d (request s)) l)
    /\ (forall wp w2 w3 records zoneId,
          d <> root ->
          rootCheck cf d w = (Return true, wp) ->
          getDNSRecords net cf d wp = (Return records, w2) ->
          existsb (hasName d) records = false ->
          getZoneIdForDomain cf d = Some zoneId -> zoneId <> "" ->
          hasWildcardARecord net cf d w2 = (Return false, w3) ->
          let create := mkRequest POST (CfDnsRecords zoneId)
                          (CreateBody (RecordData.mk d "CNAME" root true)) in
          exists rest,
            fst run = Return tt
            /\ sent (snd run) = sent w3 ++ (mkSent (now w3) create :: rest)
            /\ (List.length rest <= 2)%nat
            /\ Forall (fun s => request s = create) rest)
    /\ (forall w2 records,
          d = root ->
          getDNSRecords net cf d w = (Return records, w2) ->
          existsb (hasName d) records = false ->
          autoCreateRootRecords config = false ->
          run = match PublicIP.getPublicIP net w2 with
                | (Return _, w3) => (Return tt, w3)
                | (Throw e, w3) => (Throw e, w3)
                end)
    /\ (forall wp, rootCheck cf d w = (Return false, wp) -> run = (Return tt, wp)).
Proof.
  intros cf domain w d root run.
  split; [| split; [| split; [| split]]].
  - intros zoneId w0 e Hz Hne Hthrow. unfold getDNSRecords. rewrite Hz.
    assert (Ht : truthy (Some zoneId) = true).
    { cbn. destruct (String.eqb_spec zoneId ""); [contradiction | reflexivity]. }
    rewrite Ht. cbn [negb]. unfold try_catch, bind.
    destruct (makeRequest _ _ _ w0) as [[data | e0] w1]; cbn [fst] in Hthrow;
      [discriminate | reflexivity].
  - intros w2 records Hl Hex.
    destruct (proj1 (find_hasName d records) Hex) as [rec Hf].
    destruct (rootCheck_issues cf d w) as (l1 & E1 & F1).
    destruct (getDNSRecords_issues net cf d (snd (rootCheck cf d w))) as (l2 & E2 & F2).
    rewrite Hl in E2. cbn [snd] in E2.
    subst run. pose proof (syncDomain_step cf domain w) as Hstep. cbv zeta in Hstep.
    fold d in Hstep. rewrite Hstep.
    destruct (rootCheck cf d w) as [[[|] | e] wp]; cbn [snd] in E1, E2, Hl |- *.
    + rewrite Hl, Hf. cbn [snd]. exists (l1 ++ l2). split.
      * now rewrite E2, E1, app_assoc.
      * apply Forall_app. split; [exact F1 |].
        eapply Forall_impl; [| exact F2]. intros s Hs. now left.
    + now exists l1.
    + now exists l1.
  - intros wp w2 w3 records zoneId Hsub Hroot Hl Hex Hz Hne Hguard create.
    subst run. pose proof (syncDomain_step cf domain w) as Hstep. cbv zeta in Hstep.
    fold d in Hstep. fold root in Hstep.
    rewrite Hstep, Hroot, Hl, (proj2 (find_hasName d records) Hex).
    destruct (String.eqb_spec d root) as [E | _]; [contradiction |]. cbn [negb].
    pose proof (createDNSRecord_cname_step cf d zoneId (RecordData.mk d "CNAME" root true)
                  w2 w3 Hz Hne eq_refl Hguard) as Hc.
    destruct (guarded_request_sent create
                (fun n => cf_create net n zoneId (RecordData.mk d "CNAME" root true))
                "Creating DNS record"
                (fun result => ret (CloudflareResponse.result result))
                (fun _ => ret None) w3
                ltac:(intros; apply issues_ret) ltac:(intros; apply issues_ret))
      as (rest & Es & Hlen & Hall).
    destruct (createDNSRecord_noThrow net cf d (RecordData.mk d "CNAME" root true) w2)
      as [created Hcr].
    subst create. rewrite <- Hc in Es. unfold bind.
    destruct (createDNSRecord net cf d (RecordData.mk d "CNAME" root true) w2) as [r0 wc].
    cbn [fst snd] in Hcr, Es. subst r0. exists rest. cbn [fst snd ret]. auto.
  - intros w2 records Hself Hl Hex Hauto.
    subst run. pose proof (syncDomain_step cf domain w) as Hstep. cbv zeta in Hstep.
    fold d in Hstep. fold root in Hstep.
    assert (Hrc : rootCheck cf d w = (Return true, w)).
    { unfold rootCheck. fold root. rewrite <- Hself. now rewrite String.eqb_refl. }
    rewrite Hstep, Hrc, Hl, (proj2 (find_hasName d records) Hex).
    rewrite <- Hself at 1. rewrite String.eqb_refl. cbn [negb].
    unfold bind. rewrite Hauto.
    now destruct (PublicIP.getPublicIP net w2) as [[ip | e] w3].
  - intros wp Hrc. subst run. pose proof (syncDomain_step cf domain w) as Hstep.
    cbv zeta in Hstep. fold d in Hstep. now rewrite Hstep, Hrc.
Qed.

End WithNet.
End IndexFacts.

(* ================================================================== *)
(** ** The monitor when every fetch of the host list fails *)
(* ================================================================== *)

Module MonitorFacts.
Import JS Monitor NPMMonitor Trace.

(** The fields of the monitor that logging in and fetching leave alone. *)
Definition preserved (m m' : Monitor.t) : Prop :=
  lastKnownHosts m' = lastKnownHosts m
  /\ isInitialized m' = isInitialized m
  /\ isMonitoring m' = isMonitoring m
  /\ monitorInterval m' = monitorInterval m.

Definition keeps {A} (c : M A) : Prop :=
  forall w, preserved (monitor w) (monitor (snd (c w))).

Lemma preserved_refl (m : Monitor.t) : preserved m m.
Proof. now repeat split. Qed.

Lemma preserved_trans (a b c : Monitor.t) :
  preserved a b -> preserved b c -> preserved a c.
Proof. unfold preserved. intros (?&?&?&?) (?&?&?&?). repeat split; congruence. Qed.

Lemma keeps_same {A} (c : M A) :
  (forall w, monitor (snd (c w)) = monitor w) -> keeps c.
Proof. intros H w. rewrite H. apply preserved_refl. Qed.

Lemma keeps_bind {A B} (c : M A) (k : A -> M B) :
  keeps c -> (forall a, keeps (k a)) -> keeps (bind c k).
Proof.
  intros Hc Hk w. unfold bind. specialize (Hc w).
  destruct (c w) as [[a | e] w1]; cbn [snd] in *; [| exact Hc].
  eapply preserved_trans; [exact Hc | apply Hk].
Qed.

Lemma keeps_try_catch {A} (c : M A) (h : Error -> M A) :
  keeps c -> (forall e, keeps (h e)) -> keeps (try_catch c h).
Proof.
  intros Hc Hh w. unfold try_catch. specialize (Hc w).
  destruct (c w) as [[a | e] w1]; cbn [snd] in *; [exact Hc |].
  eapply preserved_trans; [exact Hc | apply Hh].
Qed.

Lemma keeps_fetch {T} (timeout : option Z) (req : Request) (answer : nat -> Reply T) :
  keeps (fetch timeout req answer).
Proof.
  apply keeps_same. intros w. unfold fetch.
  destruct timeout as [t|]; destruct (answer _) as [el | el r];
    try destruct (t <=? _); reflexivity.
Qed.

Lemma keeps_update (f : Monitor.t -> Monitor.t) :
  (forall m, preserved m (f m)) -> keeps (update f).
Proof. intros Hf w. cbn. apply Hf. Qed.

Lemma keeps_readJson {T} (r : HttpResponse T) : keeps (readJson r).
Proof. apply keeps_same. intros w. unfold readJson. now destruct (json r). Qed.

Ltac keeps_step :=
  match goal with
  | |- keeps (bind _ _) => apply keeps_bind; [| intros ?]
  | |- keeps (try_catch _ _) => apply keeps_try_catch; [| intros ?]
  | |- keeps (fetch _ _ _) => apply keeps_fetch
  | |- keeps (readJson _) => apply keeps_readJson
  | |- keeps (update _) => apply keeps_update; intros ?; now repeat split
  | |- keeps (ret _) => now apply keeps_same
  | |- keeps (throw _) => now apply keeps_same
  | |- keeps (sleep _) => now apply keeps_same
  | |- keeps getMonitor => now apply keeps_same
  | |- keeps (if ?b then _ else _) => destruct b
  | |- keeps (match ?x with _ => _ end) => destruct x
  end.

Definition fetchFails (reply : Reply (list NPMHost.t)) : Prop :=
  match reply with
  | NetworkError _ => True
  | Response el r =>
      requestTimeout <= Z.of_N el
      \/ (ok r = false /\ status r <> 401)
      \/ (ok r = true /\ json r = None)
  end.

Section WithPlatform.
Variable Date_getTime : string -> option Z.
Variable net : Net.
Variable email password : string.

Lemma keeps_bump :
  keeps (m <- getMonitor ;;
         setMonitor (set_consecutiveFailures (consecutiveFailures m + 1) m)).
Proof. intros w. cbn. now repeat split. Qed.

Lemma keeps_login_loop (remaining : nat) :
  forall attempt, keeps (login_loop net email password remaining attempt).
Proof.
  induction remaining as [|remaining IH]; intros attempt; cbn [login_loop].
  - change (keeps ((m <- getMonitor ;;
                    setMonitor (set_consecutiveFailures (consecutiveFailures m + 1) m)) ;;;
                   ret false)).
    apply keeps_bind; [apply keeps_bump | intros x; now apply keeps_same].
  - apply keeps_bind.
    + repeat keeps_step.
    + intros [b|]; [now apply keeps_same | apply IH].
Qed.

Lemma keeps_getHeaders : keeps (getHeaders net email password).
Proof.
  unfold getHeaders. apply keeps_bind; [now apply keeps_same |]. intros m.
  apply keeps_bind.
  - destruct (negb _); [| now apply keeps_same].
    apply keeps_bind; [apply keeps_login_loop |].
    intros logged. destruct (negb logged); now apply keeps_same.
  - intros x. repeat keeps_step.
Qed.

Lemma keeps_getProxyHosts_attempt (attempt : Z) :
  keeps (getProxyHosts_attempt net email password attempt).
Proof.
  unfold getProxyHosts_attempt. apply keeps_try_catch.
  - apply keeps_bind; [apply keeps_getHeaders |]. intros headers.
    repeat keeps_step.
  - intros e. repeat keeps_step.
Qed.


Hypothesis every_fetch_fails : forall n tok, fetchFails (npm_proxy_hosts net n tok).

Lemma getProxyHosts_attempt_fails (attempt : Z) (w : World) :
  fst (getProxyHosts_attempt net email password attempt w) = Return NextAttempt.
Proof.
  unfold getProxyHosts_attempt, try_catch.
  match goal with |- fst (let (_, _) := ?body w in _) = _ =>
    destruct (body w) as [[step | e] w'] eqn:Eb end.
  - exfalso. unfold bind at 1 in Eb.
    destruct (getHeaders net email password w) as [[headers | e] wh]; [| discriminate].
    unfold bind at 1, fetch in Eb.
    pose proof (every_fetch_fails (List.length (sent wh)) headers) as Hf.
    destruct (npm_proxy_hosts net (List.length (sent wh)) headers) as [el | el r].
    + destruct (requestTimeout <=? Z.of_N el); discriminate.
    + destruct (Z.leb_spec requestTimeout (Z.of_N el)) as [Hle | Hgt]; [discriminate |].
      destruct Hf as [Hto | [[Hok Hst] | [Hok Hj]]]; [lia | |].
      * rewrite Hok in Eb. cbn [negb] in Eb.
        apply Z.eqb_neq in Hst. rewrite Hst in Eb. discriminate.
      * rewrite Hok in Eb. cbn [negb] in Eb. unfold bind at 1, readJson in Eb.
        rewrite Hj in Eb. discriminate.
  - destruct (attempt <? maxRetries - 1); reflexivity.
Qed.

(** With every fetch failing, the loop runs to its end: it returns the
    empty list with the counter below the threshold, or throws with the
    counter at or above it. *)
Lemma getProxyHosts_loop_exhausts (remaining : nat) :
  forall (attempt : Z) (w : World),
    let r := getProxyHosts_loop net email password remaining attempt w in
    (fst r = Return (Some [])
     /\ consecutiveFailures (monitor (snd r)) < maxConsecutiveFailures
     /\ preserved (monitor w) (monitor (snd r)))
    \/ ((exists e, fst r = Throw e)
        /\ maxConsecutiveFailures <= consecutiveFailures (monitor (snd r))).
Proof.
  induction remaining as [|remaining IH]; intros attempt w; cbv zeta.
  - cbn [getProxyHosts_loop]. unfold bind, getMonitor, setMonitor, stopMonitoring, update.
    cbn [monitor consecutiveFailures set_consecutiveFailures fst snd].
    destruct (Z.leb_spec maxConsecutiveFailures (consecutiveFailures (monitor w) + 1))
      as [Hge | Hlt].
    + right. cbn. split; [eauto | exact Hge].
    + left. cbn. repeat split. exact Hlt.
  - pose proof (getProxyHosts_attempt_fails attempt w) as Hr.
    pose proof (keeps_getProxyHosts_attempt attempt w) as Hk.
    assert (Hstep : getProxyHosts_loop net email password (S remaining) attempt w
                    = getProxyHosts_loop net email password remaining (attempt + 1)
                        (snd (getProxyHosts_attempt net email password attempt w))).
    { cbn [getProxyHosts_loop]. unfold bind.
      destruct (getProxyHosts_attempt net email password attempt w) as [r0 w1].
      cbn [fst snd] in Hr |- *. now subst r0. }
    rewrite Hstep.
    destruct (IH (attempt + 1) (snd (getProxyHosts_attempt net email password attempt w)))
      as [(Hres & Hcf & Hp) | Hthrow]; [left | right; exact Hthrow].
    split; [exact Hres | split; [exact Hcf | eapply preserved_trans; eauto]].
Qed.

Lemma filter_all {A} (l : list A) : filter (fun _ => true) l = l.
Proof. induction l as [|x l IH]; cbn; congruence. Qed.

(** C2.  When every fetch of the proxy hosts fails (transport failure,
    timeout, a status outside 2xx other than 401, or an unreadable body) and
    the consecutive-failure counter, after the increment that follows the
    last attempt, is below 5, [getProxyHosts] returns the empty list
    instead of raising.  On an initialised monitor the check of that cycle
    then reports no changed host and every host of the baseline as deleted,
    replaces the baseline by the empty list, and, when the baseline
    was not empty, invokes the callback with the baseline as the deleted
    hosts. *)
Theorem exhausted_fetch_reports_all_deleted :
  forall (callback : Callback) (fuel : nat) (w : World),
    isInitialized (monitor w) = true ->
    let w1 := snd (getProxyHosts_loop net email password 3 0 w) in
    consecutiveFailures (monitor w1) < maxConsecutiveFailures ->
    let known := lastKnownHosts (monitor w) in
    let w2 := snd (setMonitor (set_baseline [] true (monitor w1)) w1) in
    getProxyHosts net email password (S fuel) w = Some (Return [], w1)
    /\ getChangesSinceLastCheck Date_getTime net email password (S fuel) w
       = Some (Return (mkChanges [] [] known), w2)
    /\ lastKnownHosts (monitor w2) = []
    /\ monitorCheck Date_getTime net email password (S fuel) callback w
       = Some (match known with
               | [] => (Return tt, w2)
               | _ :: _ =>
                   try_catch (callback [] [] known)
                     (fun _ =>
                        m <- getMonitor ;;
                        if maxConsecutiveFailures <=? consecutiveFailures m
                        then stopMonitoring else ret tt) w2
               end).
Proof.
  intros callback fuel w Hinit w1 Hcf known w2.
  assert (Hloop : getProxyHosts_loop net email password 3 0 w = (Return (Some []), w1)
                  /\ preserved (monitor w) (monitor w1)).
  { subst w1. destruct (getProxyHosts_loop_exhausts 3 0 w) as [(Hr & _ & Hp) | [_ Hge]].
    - split; [| exact Hp].
      destruct (getProxyHosts_loop net email password 3 0 w) as [r0 w0].
      cbn [fst snd] in *. now subst r0.
    - lia. }
  destruct Hloop as [Hloop (Hlk & Hin & _)].
  assert (Hget : getProxyHosts net email password (S fuel) w = Some (Return [], w1)).
  { cbn [getProxyHosts]. change (Z.to_nat maxRetries) with 3%nat. now rewrite Hloop. }
  assert (Hchanges : getChangesSinceLastCheck Date_getTime net email password (S fuel) w
                     = Some (Return (mkChanges [] [] known), w2)).
  { unfold getChangesSinceLastCheck. rewrite Hget. unfold diff.
    rewrite Hin, Hinit. cbn [negb]. unfold changedHosts, deletedHosts.
    cbn [filter existsb negb]. now rewrite filter_all, Hlk. }
  repeat split; auto.
  unfold monitorCheck. rewrite Hchanges. cbn [changed deleted currentHosts List.length].
  destruct known as [|h known']; reflexivity.
Qed.

End WithPlatform.
End MonitorFacts.

(* ================================================================== *)
(** ** Examples: the orchestrator and the monitor on a small account *)
(* ================================================================== *)

Module Scenarios.
Import JS Monitor NPMMonitor CloudflareAPI Index Networks IndexFacts MonitorFacts.

Definition config : Config := mkConfig "token" false.

Definition oldCname : DNSRecord.t :=
  DNSRecord.mk "r2" "old.example.com" "CNAME" "example.com" true.
Definition subCname : DNSRecord.t :=
  DNSRecord.mk "r3" "sub.example.com" "CNAME" "example.com" true.

Definition hostOld : NPMHost.t :=
  NPMHost.mk 2 (DomainArray ["old.example.com"]) "10.0.0.6" 80
             "2024-03-01T12:30:15.250Z" "2024-03-01T12:30:15.250Z".
Definition hostNew : NPMHost.t :=
  NPMHost.mk 3 (DomainString "new.example.com") "10.0.0.7" 80
             "2024-03-02T08:00:00.000Z" "2024-03-02T08:00:00.000Z".

Definition listZ1 : Request := mkRequest GET (CfDnsRecords "z1") NoBody.
Definition askIp : Request :=
  mkRequest GET (IpService "https://api64.ipify.org?format=json") NoBody.

(** *** Deletions first (C9) *)

Definition account : Net := serve (exampleZone [oldCname] always noHosts).

Example handleNPMChanges_trace :
  requests (snd (handleNPMChanges account config [hostNew] [hostNew] [hostOld]
                   (initialWorld 0)))
  = [ mkRequest GET CfZones NoBody; askIp; listZ1;          (* initZones *)
      listZ1; mkRequest DELETE (CfDnsRecord "z1" "r2") NoBody;   (* deleted hosts *)
      listZ1; listZ1; listZ1;                                (* changed hosts *)
      mkRequest POST (CfDnsRecords "z1")
        (CreateBody (RecordData.mk "new.example.com" "CNAME" "example.com" true)) ].
Proof. reflexivity. Qed.

(** *** An existing record is skipped (C10) *)

Definition withSub : Net := serve (exampleZone [subCname] always noHosts).

Lemma syncDomain_skips_listed_record_witness :
  (exists l,
     sent (snd (syncDomain withSub config client " sub.example.com" (initialWorld 0)))
     = sent (initialWorld 0) ++ l
     /\ Forall (fun s => leavesAlone (trim " sub.example.com") (request s)) l)
  /\ (let lost := serve (exampleZone [subCname] (fun n => (n <? 1)%nat || (4 <=? n)%nat)
                           noHosts) in
      let wp := snd (rootCheck lost config client "sub.example.com" (initialWorld 0)) in
      let w2 := snd (getDNSRecords lost client "sub.example.com" wp) in
      let w3 := snd (hasWildcardARecord lost client "sub.example.com" w2) in
      let create := mkRequest POST (CfDnsRecords "z1")
                      (CreateBody (RecordData.mk "sub.example.com" "CNAME" "example.com"
                                     true)) in
      exists rest,
        fst (syncDomain lost config client "sub.example.com" (initialWorld 0)) = Return tt
        /\ sent (snd (syncDomain lost config client "sub.example.com" (initialWorld 0)))
           = sent w3 ++ (mkSent (now w3) create :: rest)
        /\ (List.length rest <= 2)%nat
        /\ Forall (fun s => request s = create) rest).
Proof.
  split.
  - destruct (syncDomain_skips_listed_record withSub config client " sub.example.com"
                (initialWorld 0)) as (_ & Hskip & _).
    apply (Hskip (snd (getDNSRecords withSub client "sub.example.com"
                         (snd (rootCheck withSub config client "sub.example.com"
                                 (initialWorld 0)))))
                 [rootA; subCname]); reflexivity.
  - intros lost wp w2 w3 create.
    destruct (syncDomain_skips_listed_record lost config client "sub.example.com"
                (initialWorld 0)) as (_ & _ & Hcreate & _).
    apply (Hcreate wp w2 w3 [] "z1"); try reflexivity; discriminate.
Defined.

Example syncDomain_skip_trace :
  requests (snd (syncDomain withSub config client " sub.example.com" (initialWorld 0)))
  = [listZ1; listZ1].
Proof. reflexivity. Qed.

(** The record of sub.example.com exists in the zone, but the listing
    fetched for it (request 1 and its two retries) is answered 503: the
    processing of sub.example.com issues a create for that very name. *)
Definition listingLost : Net :=
  serve (exampleZone [subCname] (fun n => (n <? 1)%nat || (4 <=? n)%nat) noHosts).

Lemma syncDomain_creates_when_listing_fails :
  In subCname (recordsOf (exampleZone [subCname]
                            (fun n => (n <? 1)%nat || (4 <=? n)%nat) noHosts) "z1")
  /\ DNSRecord.name subCname = "sub.example.com"
  /\ getZoneIdForDomain client "sub.example.com" = Some "z1"
  /\ requests (snd (syncDomain listingLost config client "sub.example.com" (initialWorld 0)))
     = [ listZ1; listZ1; listZ1; listZ1; listZ1;
         mkRequest POST (CfDnsRecords "z1")
           (CreateBody (RecordData.mk "sub.example.com" "CNAME" "example.com" true)) ].
Proof. repeat split. right. now left. Qed.

(** *** NPM unreachable for one cycle (C2) *)

Definition npmDown : Net :=
  serve (exampleZone [oldCname] always (fun _ => unavailable)).

Definition watching : World :=
  mkWorld 0 [] None 0 (Monitor.mk (Some "jwt") true true [hostOld] 0 true).

Lemma npmDown_fails : forall n tok, fetchFails (npm_proxy_hosts npmDown n tok).
Proof. intros n tok. right. left. split; [reflexivity | discriminate]. Defined.

Lemma exhausted_fetch_reports_all_deleted_witness :
  let w1 := snd (getProxyHosts_loop npmDown "admin@example.com" "secret" 3 0 watching) in
  let w2 := snd (setMonitor (set_baseline [] true (monitor w1)) w1) in
  getProxyHosts npmDown "admin@example.com" "secret" 1 watching = Some (Return [], w1)
  /\ getChangesSinceLastCheck Sample.Date_getTime npmDown "admin@example.com" "secret" 1
       watching
     = Some (Return (mkChanges [] [] [hostOld]), w2)
  /\ lastKnownHosts (monitor w2) = []
  /\ monitorCheck Sample.Date_getTime npmDown "admin@example.com" "secret" 1
       (handleNPMChanges npmDown config) watching
     = Some (try_catch (handleNPMChanges npmDown config [] [] [hostOld])
               (fun _ =>
                  m <- getMonitor ;;
                  if maxConsecutiveFailures <=? consecutiveFailures m
                  then stopMonitoring else ret tt) w2).
Proof.
  exact (exhausted_fetch_reports_all_deleted Sample.Date_getTime npmDown
           "admin@example.com" "secret" npmDown_fails
           (handleNPMChanges npmDown config) 0 watching eq_refl eq_refl).
Defined.

(** The requests of that cycle: three failed fetches, then the callback,
    which deletes the record of the host that was only unreachable. *)
Example npm_outage_deletes_records :
  option_map (fun r => (fst r, requests (snd r), lastKnownHosts (monitor (snd r))))
    (monitorCheck Sample.Date_getTime npmDown "admin@example.com" "secret" 1
       (handleNPMChanges npmDown config) watching)
  = Some (Return tt,
          [ mkRequest GET NpmProxyHosts NoBody;
            mkRequest GET NpmProxyHosts NoBody;
            mkRequest GET NpmProxyHosts NoBody;
            mkRequest GET CfZones NoBody; askIp; listZ1;
            listZ1; mkRequest DELETE (CfDnsRecord "z1" "r2") NoBody ],
          []).
Proof. reflexivity. Qed.

End Scenarios.

(* ================================================================== *)
(** ** More of the sources: the IP-change pass of [index.ts] and
       [config.ts] *)
(* ================================================================== *)

Module IpChange.
Import CloudflareAPI Index.

Section WithNet.
Variable net : Net.
Variable config : Config.

(** [updateDomainIP] *)
Definition updateDomainIP (cf : CloudflareAPI.t) (domain newIP : string) : M unit :=
  records <- getDNSRecords net cf domain ;;
  match find (isRootA domain) records with
  | Some aRecord =>
      if negb (String.eqb (DNSRecord.content aRecord) newIP) then
        updateDNSRecord net cf domain (DNSRecord.id aRecord) (withContent aRecord newIP) ;;;
        ret tt
      else ret tt
  | None =>
      if autoCreateRootRecords config then
        createDNSRecord net cf domain (RecordData.mk domain "A" newIP true) ;;;
        ret tt
      else ret tt
  end.

(** [checkPublicIPChange].  The module variable [currentPublicIP] is passed
    in, and its value after the call is returned. *)
Definition checkPublicIPChange (cf : CloudflareAPI.t) (currentPublicIP : option string)
    : M (option string) :=
  try_catch
    (newIP <- PublicIP.getPublicIP net ;;
     match currentPublicIP with
     | None => ret (Some newIP)
     | Some current =>
         if negb (String.eqb newIP current) then
           zones <- getZones net ;;
           forEach zones (fun zone => updateDomainIP cf (CloudflareZone.name zone) newIP) ;;;
           ret (Some newIP)
         else ret currentPublicIP
     end)
    (fun _ => ret currentPublicIP).

End WithNet.
End IpChange.

Module ConfigTs.

(** [s.toLowerCase()] on code units below 256: A-Z and the capital
    letters of Latin-1 (all of C0-DE but the multiplication sign). *)
Definition lowerCode (c : ascii) : ascii :=
  let n := nat_of_ascii c in
  if (((65 <=? n) && (n <=? 90))
      || ((192 <=? n) && (n <=? 222) && negb (n =? 215)))%nat
  then ascii_of_nat (n + 32) else c.

Fixpoint toLowerCase (s : string) : string :=
  match s with
  | EmptyString => EmptyString
  | String c s' => String (lowerCode c) (toLowerCase s')
  end.

(** [process.env]: the variables of the environment, after [dotenv] has
    added those of the [.env] file outside production. *)
Definition Env : Type := string -> option string.

(** [process.env[name] || fallback] *)
Definition orElse (v : option string) (fallback : string) : string :=
  if JS.truthy v then match v with Some s => s | None => fallback end else fallback.

Definition validLevels : list string := ["error"; "warn"; "info"; "debug"].

(** [validateLogLevel] *)
Definition validateLogLevel (level : string) : string :=
  let normalizedLevel := toLowerCase level in
  if existsb (String.eqb normalizedLevel) validLevels then normalizedLevel else "info".

Record CloudflareConfig := mkCloudflareConfig { apiToken : string; cf_email : string }.
Record NPMConfig := mkNPMConfig { apiUrl : string; npm_email : string; password : string }.

(** [Config]; [checkInterval] is a number, [None] for NaN. *)
Record Config := mkConfig {
  cloudflare : CloudflareConfig;
  npm : NPMConfig;
  checkInterval : option Z;
  logLevel : string;
  autoCreateRootRecords : bool
}.

(** The table [requiredFields] of [validateConfig]: value and variable name. *)
Definition requiredFields (c : Config) : list (string * string) :=
  [ (apiToken (cloudflare c), "CF_API_TOKEN");
    (cf_email (cloudflare c), "CF_EMAIL");
    (apiUrl (npm c), "NPM_API_URL");
    (npm_email (npm c), "NPM_EMAIL");
    (password (npm c), "NPM_PASSWORD") ].

(** The [missingFields] that [validateConfig] collects. *)
Definition missingFields (c : Config) : list string :=
  map snd (filter (fun field => negb (JS.truthy (Some (fst field)))) (requiredFields c)).

(** [validateConfig] *)
Definition validateConfig (c : Config) : bool :=
  fold_left (fun isValid field => if negb (JS.truthy (Some (fst field))) then false else isValid)
            (requiredFields c) true.

(** [getConfig] *)
Definition getConfig (env : Env) : option Config :=
  let logLevel := validateLogLevel (orElse (env "LOG_LEVEL") "info") in
  let config :=
    mkConfig
      (mkCloudflareConfig (orElse (env "CF_API_TOKEN") "") (orElse (env "CF_EMAIL") ""))
      (mkNPMConfig (orElse (env "NPM_API_URL") "") (orElse (env "NPM_EMAIL") "")
                   (orElse (env "NPM_PASSWORD") ""))
      (JS.parseInt10 (orElse (env "CHECK_INTERVAL") "10000"))
      logLevel
      (match env "AUTO_CREATE_ROOT_RECORDS" with
       | Some v => String.eqb (toLowerCase v) "true"
       | None => false
       end) in
  if validateConfig config then Some config else None.

End ConfigTs.

(* ================================================================== *)
(** ** More on the public IP resolver: the cache and the request order *)
(* ================================================================== *)

Module ResolverFacts.
Import JS PublicIP Trace PublicIPFacts.

(** The request of one attempt at a provider. *)
Definition providerRequest (s : Service) : Request :=
  mkRequest GET (IpService (url s)) NoBody.

Lemma fetch_sent {T} (timeout : option Z) (req : Request) (answer : nat -> Reply T)
    (w : World) :
  sent (snd (fetch timeout req answer w)) = sent w ++ [mkSent (now w) req].
Proof.
  unfold fetch. destruct timeout as [t|];
    destruct (answer (List.length (sent w))) as [el | el r];
    try destruct (t <=? _); reflexivity.
Qed.

(** A fetch followed by code that issues nothing adds one request. *)
Lemma fetch_then_sent {T B} (timeout : option Z) (req : Request) (answer : nat -> Reply T)
    (k : HttpResponse T -> M B) (w : World) :
  (forall r, issues RequestLayer.nothing (k r)) ->
  sent (snd (bind (fetch timeout req answer) k w)) = sent w ++ [mkSent (now w) req].
Proof.
  intros Hk. unfold bind. pose proof (fetch_sent timeout req answer w) as Hf.
  destruct (fetch timeout req answer w) as [[r | e] w1]; cbn [snd] in Hf |- *;
    [| exact Hf].
  now rewrite (RequestLayer.issues_nothing_sent (k r) (Hk r)).
Qed.

Section WithNet.
Variable net : Net.

Lemma tryService_sent (t0 : Z) (s : Service) (w : World) :
  sent (snd (tryService net t0 s w)) = sent w ++ [mkSent (now w) (providerRequest s)].
Proof.
  unfold tryService. apply fetch_then_sent. intros response.
  unfold applyExtract. repeat issues_step.
Qed.

(** The attempts at one service issue the same request up to [remaining]
    times, all of them when no attempt succeeds, the first one at once. *)
Lemma attempts_requests (t0 : Z) (s : Service) (remaining : nat) :
  forall (attempt : Z) (w : World),
    let r := attempts net t0 s remaining attempt w in
    exists l,
      sent (snd r) = sent w ++ l
      /\ (List.length l <= remaining)%nat
      /\ map request l = repeat (providerRequest s) (List.length l)
      /\ (fst r = Return None -> List.length l = remaining)
      /\ (remaining <> 0%nat -> exists rest, l = mkSent (now w) (providerRequest s) :: rest).
Proof.
  induction remaining as [|remaining IH]; intros attempt w; cbv zeta.
  - exists []. cbn. rewrite app_nil_r. repeat split; auto. congruence.
  - rewrite attempts_step. pose proof (tryService_sent t0 s w) as Hs.
    destruct (tryService net t0 s w) as [[ip | e] w1]; cbn [snd] in Hs.
    + exists [mkSent (now w) (providerRequest s)]. cbn [fst snd].
      split; [exact Hs |]. split; [cbn; lia |]. split; [reflexivity |].
      split; [discriminate |]. intros _. now exists [].
    + set (w2 := if attempt <? MAX_RETRIES - 1
                 then advance (timerDelay (Some RETRY_DELAY)) w1 else w1).
      assert (Hw2 : sent w2 = sent w1)
        by (subst w2; destruct (attempt <? MAX_RETRIES - 1); reflexivity).
      destruct (IH (attempt + 1) w2) as (l & El & Hlen & Hm & Hn & _).
      exists (mkSent (now w) (providerRequest s) :: l).
      split; [now rewrite El, Hw2, Hs, <- app_assoc |].
      split; [cbn; lia |]. split; [cbn; now rewrite Hm |].
      split; [intros Hr; cbn; f_equal; now apply Hn |]. intros _. now exists l.
Qed.

Lemma firstn_repeat_prefix {A} (x : A) (k : nat) (rest : list A) :
  (k <= 3)%nat -> repeat x k = firstn k (x :: x :: x :: rest).
Proof.
  intros Hk. destruct k as [|[|[|[|k]]]]; try reflexivity. lia.
Qed.

(** The requests of the outer loop are a prefix of the attempts in order:
    each service three times, services in the order of the list. *)
Lemma tryServices_requests (t0 : Z) (l : list Service) :
  forall (w : World),
    exists sends k,
      sent (snd (tryServices net t0 l w)) = sent w ++ sends
      /\ map request sends
         = firstn k (map providerRequest (flat_map (fun s => [s; s; s]) l))
      /\ match l with
         | [] => True
         | s :: _ => exists rest, sends = mkSent (now w) (providerRequest s) :: rest
         end.
Proof.
  induction l as [|s l IH]; intros w.
  - exists [], 0%nat. cbn. now rewrite app_nil_r.
  - cbn [tryServices flat_map]. change (Z.to_nat MAX_RETRIES) with 3%nat. unfold bind.
    destruct (attempts_requests t0 s 3 0 w) as (l1 & E1 & Hlen & Hm & Hn & Hfirst).
    specialize (Hfirst ltac:(lia)).
    assert (Hpre : map request l1
                   = firstn (List.length l1)
                       (map providerRequest ([s; s; s] ++ flat_map (fun s => [s; s; s]) l))).
    { rewrite Hm. cbn [app map]. now apply firstn_repeat_prefix. }
    destruct (attempts net t0 s 3 0 w) as [[[ip|] | e] w1]; cbn [fst snd] in E1, Hn.
    + exists l1, (List.length l1). cbn [snd ret]. auto.
    + specialize (Hn eq_refl). destruct (IH w1) as (l2 & k2 & E2 & Hm2 & _).
      exists (l1 ++ l2), (3 + k2)%nat.
      split; [now rewrite E2, E1, app_assoc |]. split.
      * rewrite map_app, Hm, Hn, Hm2. reflexivity.
      * destruct Hfirst as [rest ->]. now exists (rest ++ l2).
    + exists l1, (List.length l1). cbn [snd]. auto.
Qed.

Lemma fresh_hit (w : World) (ip : string) :
  cachedIP w = Some ip -> ip <> "" -> now w - lastCheck w < CACHE_DURATION ->
  getPublicIP net w = (Return ip, w).
Proof.
  intros Hc Hne Hage. unfold getPublicIP, bind, getWorld. rewrite Hc.
  assert (Ht : truthy (Some ip) = true).
  { cbn. destruct (String.eqb_spec ip ""); [contradiction | reflexivity]. }
  rewrite Ht. apply Z.ltb_lt in Hage. now rewrite Hage.
Qed.

Lemma getPublicIP_sends (w : World) :
  exists sends k,
    sent (snd (getPublicIP net w)) = sent w ++ sends
    /\ map request sends = firstn k (map providerRequest schedule).
Proof.
  destruct (truthy (cachedIP w) && (now w - lastCheck w <? CACHE_DURATION)) eqn:Ef.
  - exists [], 0%nat. unfold getPublicIP, bind, getWorld. rewrite Ef.
    rewrite app_nil_r. split; [now destruct (cachedIP w) | reflexivity].
  - rewrite (PublicIPTheorems.getPublicIP_stale net w Ef).
    destruct (tryServices_requests (now w) services w) as (l & k & El & Hm & _).
    exists l, k. split; [| exact Hm].
    destruct (tryServices net (now w) services w) as [[[x|] | e] w']; cbn [snd] in El |- *;
      try exact El.
    destruct (truthy (cachedIP w')); exact El.
Qed.

End WithNet.

Lemma In_firstn {A} (x : A) (k : nat) (l : list A) : In x (firstn k l) -> In x l.
Proof.
  intros Hin. rewrite <- (firstn_skipn k l). apply in_or_app. now left.
Qed.

End ResolverFacts.

Module ResolverTheorems.
Import JS PublicIP Trace PublicIPFacts ResolverFacts.

(** X1.  A cached address that is younger than five minutes is returned by
    [getPublicIP] as it is: no request is issued and nothing changes.  Once
    the cached address is five minutes old or older, the call asks the
    providers again, beginning at once with the first provider of the
    table. *)
Theorem getPublicIP_cache_window :
  forall (net : Net) (w : World) (ip : string),
    cachedIP w = Some ip -> ip <> "" ->
    (now w - lastCheck w < CACHE_DURATION -> getPublicIP net w = (Return ip, w))
    /\ (CACHE_DURATION <= now w - lastCheck w ->
        exists rest,
          sent (snd (getPublicIP net w))
          = sent w ++ (mkSent (now w)
                         (mkRequest GET (IpService "https://api64.ipify.org?format=json")
                                    NoBody) :: rest)).
Proof.
  intros net w ip Hc Hne. split; [now apply fresh_hit |].
  intros Hold.
  assert (Hs : stale w).
  { unfold stale. apply andb_false_iff. right. apply Z.ltb_ge. exact Hold. }
  rewrite (PublicIPTheorems.getPublicIP_stale net w Hs).
  destruct (tryServices_requests net (now w) services w) as (l & k & El & _ & Hfirst).
  cbn [services] in Hfirst. destruct Hfirst as [rest ->]. exists rest.
  destruct (tryServices net (now w) services w) as [[[x|] | e] w']; cbn [snd] in El |- *;
    try exact El.
  destruct (truthy (cachedIP w')); exact El.
Qed.

(** Five past midnight less a millisecond, an address cached at midnight. *)
Definition freshWorld : World :=
  mkWorld 299999 [] (Some "198.51.100.4") 0 Monitor.initial.

Lemma getPublicIP_cache_window_witness :
  getPublicIP PublicIPTheorems.offline freshWorld = (Return "198.51.100.4", freshWorld)
  /\ exists rest,
       sent (snd (getPublicIP PublicIPTheorems.offline PublicIPTheorems.staleWorld))
       = [] ++ (mkSent 600000
                  (mkRequest GET (IpService "https://api64.ipify.org?format=json") NoBody)
                :: rest).
Proof.
  split.
  - apply (getPublicIP_cache_window PublicIPTheorems.offline freshWorld "198.51.100.4"
             eq_refl ltac:(discriminate)).
    reflexivity.
  - apply (getPublicIP_cache_window PublicIPTheorems.offline PublicIPTheorems.staleWorld
             "198.51.100.4" eq_refl ltac:(discriminate)).
    discriminate.
Defined.

(** X2.  Whatever the network does, one call of [getPublicIP] issues at
    most fifteen requests, and they are an initial part of the fixed
    sequence of attempts: a GET without body to each of the five providers,
    three times each, in the order of the table. *)
Theorem getPublicIP_requests_follow_schedule :
  forall (net : Net) (w : World),
    exists sends k,
      sent (snd (getPublicIP net w)) = sent w ++ sends
      /\ map request sends = firstn k (map providerRequest schedule)
      /\ (List.length sends <= 15)%nat.
Proof.
  intros net w. destruct (getPublicIP_sends net w) as (sends & k & El & Hm).
  exists sends, k. split; [exact El | split; [exact Hm |]].
  rewrite <- (length_map request), Hm, length_firstn. cbn. lia.
Qed.

(** X3.  An address that [getPublicIP] returns is the address the cache
    holds after the call; so a later call, made while the cache entry is
    younger than five minutes, returns the same address without asking any
    provider. *)
Theorem getPublicIP_then_cached :
  forall (net net' : Net) (w w2 : World) (ip : string),
    cacheValid w ->
    fst (getPublicIP net w) = Return ip ->
    let w1 := snd (getPublicIP net w) in
    cachedIP w1 = Some ip
    /\ (cachedIP w2 = cachedIP w1 -> lastCheck w2 = lastCheck w1 ->
        now w2 - lastCheck w1 < CACHE_DURATION ->
        getPublicIP net' w2 = (Return ip, w2)).
Proof.
  intros net net' w w2 ip Hv Hr w1.
  assert (Hc : cachedIP w1 = Some ip).
  { subst w1. revert Hr.
    destruct (truthy (cachedIP w) && (now w - lastCheck w <? CACHE_DURATION)) eqn:Ef.
    - unfold getPublicIP, bind, getWorld. rewrite Ef.
      apply andb_prop in Ef as [Ht _].
      destruct (cachedIP w) as [x|] eqn:Ec; [| discriminate]. cbn. now intros [= ->].
    - rewrite (PublicIPTheorems.getPublicIP_stale net w Ef).
      pose proof (tryServices_spec net (now w) services w) as Hs. cbv zeta in Hs.
      destruct (firstValid net (List.length (sent w)) _) as [x|].
      + destruct Hs as (Hres & Hc & _).
        destruct (tryServices net (now w) services w) as [r0 w']. cbn [fst snd] in *.
        subst r0. cbn. now intros [= <-].
      + destruct Hs as (Hres & Hc & _).
        destruct (tryServices net (now w) services w) as [r0 w']. cbn [fst snd] in *.
        subst r0. destruct (truthy (cachedIP w')) eqn:Et; [| discriminate].
        cbn. destruct (cachedIP w') as [x|]; [| discriminate]. now intros [= ->]. }
  split; [exact Hc |]. intros Hc2 Hl2 Hage.
  assert (Hne : ip <> "").
  { destruct (PublicIPTheorems.getPublicIP_cacheValid net w) as (_ & Hkeep & _).
    specialize (Hkeep Hv). fold w1 in Hkeep. unfold cacheValid in Hkeep.
    rewrite Hc in Hkeep. congruence. }
  apply fresh_hit; [congruence | exact Hne | rewrite Hl2; exact Hage].
Qed.

Lemma getPublicIP_then_cached_witness :
  let w1 := snd (getPublicIP PublicIPTheorems.secondAnswers PublicIPTheorems.staleWorld) in
  cachedIP w1 = Some "203.0.113.7"
  /\ getPublicIP PublicIPTheorems.offline (advance 200000 w1)
     = (Return "203.0.113.7", advance 200000 w1).
Proof.
  intros w1.
  destruct (getPublicIP_then_cached PublicIPTheorems.secondAnswers PublicIPTheorems.offline
              PublicIPTheorems.staleWorld (advance 200000 w1) "203.0.113.7"
              ltac:(discriminate) eq_refl) as [Hc Hnext].
  split; [exact Hc |]. apply Hnext; reflexivity.
Defined.

End ResolverTheorems.

(* ================================================================== *)
(** ** More on [makeRequest]: fatal answers, retried failures, results *)
(* ================================================================== *)

Module RetryFacts.
Import JS CloudflareAPI Trace CloudflareFacts RequestLayer.

(** Answers that [makeRequest] retries: a transport failure, a status of
    500 or more other than 530, or a 2xx answer whose body cannot be read. *)
Definition transient {T} (reply : Reply (CloudflareResponse.t T)) : Prop :=
  match reply with
  | NetworkError _ => True
  | Response _ r => (500 <= status r /\ status r <> 530) \/ (ok r = true /\ json r = None)
  end.

Definition elapsedOf {T} (reply : Reply T) : Z :=
  match reply with
  | NetworkError el => Z.of_N el
  | Response el _ => Z.of_N el
  end.

Definition accessDenied : Error :=
  CloudflareError "Access denied. Please check your API token permissions." 403.

Definition firstError {T} (data : CloudflareResponse.t T) : string :=
  firstMessage (CloudflareResponse.errors data) "Unknown error".

Section Loop.
Context {T : Type}.
Variable req : Request.
Variable answer : nat -> Reply (CloudflareResponse.t T).
Variable context : string.

Lemma makeRequest_attempt_403 (attempt : Z) (lastError : option Error) (w : World)
    (el : N) (r : HttpResponse (CloudflareResponse.t T)) :
  answer (List.length (sent w)) = Response el r -> status r = 403 ->
  makeRequest_attempt req answer context attempt lastError w
  = (Throw accessDenied, advance (Z.of_N el) (record req w)).
Proof.
  intros Ea Es. unfold makeRequest_attempt, try_catch. unfold bind at 1.
  rewrite fetch_run, Ea. unfold ok. now rewrite Es.
Qed.

Lemma makeRequest_attempt_body (attempt : Z) (lastError : option Error) (w : World)
    (el : N) (r : HttpResponse (CloudflareResponse.t T)) (data : CloudflareResponse.t T) :
  answer (List.length (sent w)) = Response el r -> ok r = true -> json r = Some data ->
  makeRequest_attempt req answer context attempt lastError w
  = (if CloudflareResponse.success data then Return (Done data)
     else Throw (CloudflareError (context +++ " failed: " +++ firstError data) (status r)),
     advance (Z.of_N el) (record req w)).
Proof.
  intros Ea Eo Ej. unfold makeRequest_attempt, try_catch. unfold bind at 1.
  rewrite fetch_run, Ea, Eo. cbn [negb]. unfold bind, readJson. rewrite Ej.
  unfold ret, throw, firstError. now destruct (CloudflareResponse.success data).
Qed.

Lemma makeRequest_attempt_transient (attempt : Z) (lastError : option Error) (w : World) :
  transient (answer (List.length (sent w))) ->
  let w1 := advance (elapsedOf (answer (List.length (sent w)))) (record req w) in
  exists lastError' e,
    makeRequest_attempt req answer context attempt lastError w
    = if attempt <? maxRetries - 1
      then (Return (Continue lastError'),
            advance (timerDelay (Some (Z.min (retryDelay * 2 ^ attempt) 10000))) w1)
      else (Throw e, w1).
Proof.
  intros Ht. cbv zeta. unfold makeRequest_attempt, try_catch. unfold bind at 1.
  rewrite fetch_run.
  destruct (answer (List.length (sent w))) as [el | el r]; cbn [transient elapsedOf] in *.
  - exists (Some (JsError "fetch failed")), (JsError "fetch failed").
    unfold delay, sleep, bind, ret, throw.
    now destruct (attempt <? maxRetries - 1).
  - destruct Ht as [[Hge Hne] | [Hok Hj]].
    + assert (Eo : ok r = false).
      { unfold ok. apply andb_false_iff. right. apply Z.leb_gt. lia. }
      rewrite Eo. cbn [negb].
      assert (E530 : (status r =? 530) = false) by now apply Z.eqb_neq.
      assert (E429 : (status r =? 429) = false) by (apply Z.eqb_neq; lia).
      assert (E403 : (status r =? 403) = false) by (apply Z.eqb_neq; lia).
      assert (E500 : (500 <=? status r) = true) by now apply Z.leb_le.
      rewrite E530, E429, E403, E500. cbn [andb].
      exists lastError,
        (CloudflareError (context +++ " failed: " +++ errorMessage r) (status r)).
      unfold delay, sleep, bind, ret, throw.
      now destruct (attempt <? maxRetries - 1).
    + rewrite Hok. cbn [negb]. unfold bind at 1, readJson. rewrite Hj.
      exists (Some (JsError "invalid json response body")),
        (JsError "invalid json response body").
      unfold delay, sleep, bind, ret, throw.
      now destruct (attempt <? maxRetries - 1).
Qed.

(** A result of one iteration is the body of the answer to its request,
    delivered with a 2xx status and marked successful. *)
Lemma makeRequest_attempt_Done (attempt : Z) (lastError : option Error) (w w1 : World)
    (data : CloudflareResponse.t T) :
  makeRequest_attempt req answer context attempt lastError w = (Return (Done data), w1) ->
  CloudflareResponse.success data = true
  /\ exists el r,
       answer (List.length (sent w)) = Response el r /\ ok r = true /\ json r = Some data.
Proof.
  unfold makeRequest_attempt, try_catch. unfold bind at 1. rewrite fetch_run.
  destruct (answer (List.length (sent w))) as [el | el r].
  - unfold delay, sleep, bind, ret, throw.
    destruct (attempt <? maxRetries - 1); discriminate.
  - destruct (ok r) eqn:Eo; cbn [negb].
    + unfold bind at 1, readJson. destruct (json r) as [d|] eqn:Ej.
      * unfold ret at 1.
        destruct (CloudflareResponse.success d) eqn:Es; cbn [negb]; unfold ret, throw.
        -- intros [= <- _]. split; [exact Es |]. now exists el, r.
        -- discriminate.
      * unfold throw at 1. unfold delay, sleep, bind, ret, throw.
        destruct (attempt <? maxRetries - 1); discriminate.
    + destruct (status r =? 530); [discriminate |].
      destruct (status r =? 429).
      { unfold sleep, bind, ret, throw. destruct (attempt <? maxRetries - 1); discriminate. }
      destruct (status r =? 403); [discriminate |].
      destruct ((500 <=? status r) && (attempt <? maxRetries - 1)); [| discriminate].
      unfold delay, sleep, bind, ret. discriminate.
Qed.

Lemma makeRequest_loop_Return (remaining : nat) :
  forall (attempt : Z) (lastError : option Error) (w : World)
         (data : CloudflareResponse.t T),
    fst (makeRequest_loop req answer context remaining attempt lastError w) = Return data ->
    CloudflareResponse.success data = true
    /\ exists n el r,
         (List.length (sent w) <= n < List.length (sent w) + remaining)%nat
         /\ answer n = Response el r /\ ok r = true /\ json r = Some data.
Proof.
  induction remaining as [|remaining IH]; intros attempt lastError w data.
  - cbn. discriminate.
  - rewrite makeRequest_loop_step.
    pose proof (makeRequest_attempt_sent req answer context attempt lastError w) as Hs.
    destruct (makeRequest_attempt req answer context attempt lastError w)
      as [[[d | le] | e] w1] eqn:Ea; cbn [fst snd] in *.
    + intros [= ->]. apply makeRequest_attempt_Done in Ea as (Hsucc & el & r & Hr).
      split; [exact Hsucc |]. exists (List.length (sent w)), el, r. split; [lia | exact Hr].
    + intros Hr. destruct (IH _ _ _ _ Hr) as (Hsucc & n & el & r & Hn & Hrest).
      split; [exact Hsucc |]. exists n, el, r. split; [| exact Hrest].
      rewrite Hs, length_app in Hn. cbn in Hn. lia.
    + discriminate.
Qed.

End Loop.
End RetryFacts.

Module RetryTheorems.
Import JS CloudflareAPI Trace CloudflareFacts RequestLayer RetryFacts.

(** X4.  In [makeRequest], whatever attempts are left: an answer with
    status 403 makes the call throw the access-denied error at once, and a
    2xx answer whose body says [success: false] makes it throw a Cloudflare
    error that carries the status of the answer; in both cases no further
    request is issued and no delay is taken. *)
Theorem makeRequest_403_and_refusal_fatal :
  forall (T : Type) (req : Request) (answer : nat -> Reply (CloudflareResponse.t T))
         (context : string) (remaining : nat) (attempt : Z) (lastError : option Error)
         (w : World) (el : N) (r : HttpResponse (CloudflareResponse.t T)),
    answer (List.length (sent w)) = Response el r ->
    let run := makeRequest_loop req answer context (S remaining) attempt lastError w in
    let w1 := mkWorld (now w + Z.of_N el) (sent w ++ [mkSent (now w) req])
                      (cachedIP w) (lastCheck w) (monitor w) in
    (status r = 403 -> run = (Throw accessDenied, w1))
    /\ (forall data,
          ok r = true -> json r = Some data -> CloudflareResponse.success data = false ->
          exists message, run = (Throw (CloudflareError message (status r)), w1)).
Proof.
  intros T req answer context remaining attempt lastError w el r Ea run w1. subst run.
  rewrite makeRequest_loop_step. split.
  - intros Es. now rewrite (makeRequest_attempt_403 req answer context _ _ w el r Ea Es).
  - intros data Eo Ej Ef.
    rewrite (makeRequest_attempt_body req answer context _ _ w el r data Ea Eo Ej).
    rewrite Ef. now exists (context +++ " failed: " +++ firstError data).
Qed.

Definition forbidden : HttpResponse (CloudflareResponse.t (list DNSRecord.t)) :=
  mkResponse 403 "Forbidden" None (Some "application/json") None "".

Lemma makeRequest_403_and_refusal_fatal_witness :
  @makeRequest (list DNSRecord.t) RequestLayerTheorems.listRecords
    (fun _ => Response 25 forbidden) "Fetching DNS records" (initialWorld 1000)
  = (Throw accessDenied,
     mkWorld 1025 [mkSent 1000 RequestLayerTheorems.listRecords] None 0 Monitor.initial).
Proof.
  apply (makeRequest_403_and_refusal_fatal _ RequestLayerTheorems.listRecords
           (fun _ => Response 25 forbidden) "Fetching DNS records" 2 0 None
           (initialWorld 1000) 25 forbidden eq_refl).
  reflexivity.
Defined.

(** X5.  Data that [makeRequest] returns is the parsed body of an answer
    to one of the (at most three) requests of the call, delivered with a
    2xx status, and its [success] member is true. *)
Theorem makeRequest_returns_successful_body :
  forall (T : Type) (req : Request) (answer : nat -> Reply (CloudflareResponse.t T))
         (context : string) (w : World) (data : CloudflareResponse.t T),
    fst (makeRequest req answer context w) = Return data ->
    CloudflareResponse.success data = true
    /\ exists n el r,
         (List.length (sent w) <= n < List.length (sent w) + 3)%nat
         /\ answer n = Response el r /\ ok r = true /\ json r = Some data.
Proof.
  intros T req answer context w data. unfold makeRequest.
  change (Z.to_nat maxRetries) with 3%nat. apply makeRequest_loop_Return.
Qed.

Lemma makeRequest_returns_successful_body_witness :
  CloudflareResponse.success (CloudflareResponse.mk [Networks.rootA] true []) = true
  /\ exists n el r,
       (0 <= n < 0 + 3)%nat
       /\ RequestLayerTheorems.limitedOnce n = Response el r /\ ok r = true
       /\ json r = Some (CloudflareResponse.mk [Networks.rootA] true []).
Proof.
  exact (makeRequest_returns_successful_body _ RequestLayerTheorems.listRecords
           RequestLayerTheorems.limitedOnce "Fetching DNS records" (initialWorld 1000)
           (CloudflareResponse.mk [Networks.rootA] true []) eq_refl).
Defined.

(** X6.  When the answers to the three requests of a [makeRequest] call
    are all of the retried kind (transport failure, status 500 or more
    other than 530, unreadable 2xx body), the call issues exactly three
    requests and then throws: the second request one second after the
    first answer, the third two seconds after the second answer, and no
    delay after the third. *)
Theorem makeRequest_retries_three_times :
  forall (T : Type) (req : Request) (answer : nat -> Reply (CloudflareResponse.t T))
         (context : string) (w : World),
    let n := List.length (sent w) in
    transient (answer n) -> transient (answer (S n)) -> transient (answer (S (S n))) ->
    let run := makeRequest req answer context w in
    let t1 := now w + elapsedOf (answer n) + 1000 in
    let t2 := t1 + elapsedOf (answer (S n)) + 2000 in
    (exists e, fst run = Throw e)
    /\ sent (snd run) = sent w ++ [mkSent (now w) req; mkSent t1 req; mkSent t2 req]
    /\ now (snd run) = t2 + elapsedOf (answer (S (S n))).
Proof.
  intros T req answer context w n H0 H1 H2 run t1 t2. subst run. unfold makeRequest.
  change (Z.to_nat maxRetries) with 3%nat.
  rewrite makeRequest_loop_step.
  destruct (makeRequest_attempt_transient req answer context 0 None w H0) as (le1 & e1 & E1).
  rewrite E1. change (0 <? maxRetries - 1) with true. cbv iota.
  set (w1 := advance _ (advance _ (record req w))).
  assert (L1 : List.length (sent w1) = S n).
  { subst w1. cbn [sent advance record]. rewrite length_app. cbn. fold n. lia. }
  rewrite makeRequest_loop_step.
  assert (H1' : transient (answer (List.length (sent w1)))) by now rewrite L1.
  destruct (makeRequest_attempt_transient req answer context (0 + 1) le1 w1 H1')
    as (le2 & e2 & E2).
  rewrite E2. change (0 + 1 <? maxRetries - 1) with true. cbv iota.
  set (w2 := advance _ (advance _ (record req w1))).
  assert (L2 : List.length (sent w2) = S (S n)).
  { subst w2. cbn [sent advance record]. rewrite length_app, L1. cbn. lia. }
  rewrite makeRequest_loop_step.
  assert (H2' : transient (answer (List.length (sent w2)))) by now rewrite L2.
  destruct (makeRequest_attempt_transient req answer context (0 + 1 + 1) le2 w2 H2')
    as (le3 & e3 & E3).
  rewrite E3. change (0 + 1 + 1 <? maxRetries - 1) with false. cbv iota.
  split; [now exists e3 |].
  rewrite L2. subst w2. rewrite L1. subst w1. fold n.
  change (timerDelay (Some (Z.min (retryDelay * 2 ^ 0) 10000))) with 1000.
  change (timerDelay (Some (Z.min (retryDelay * 2 ^ (0 + 1)) 10000))) with 2000.
  cbn [fst snd sent now advance record].
  subst t2 t1. split; [now rewrite <- !app_assoc | reflexivity].
Qed.

Lemma makeRequest_retries_three_times_witness :
  sent (snd (@makeRequest (list DNSRecord.t) RequestLayerTheorems.listRecords
               (fun _ => Networks.unavailable) "Fetching DNS records" (initialWorld 1000)))
  = [] ++ [mkSent 1000 RequestLayerTheorems.listRecords;
           mkSent 2020 RequestLayerTheorems.listRecords;
           mkSent 4040 RequestLayerTheorems.listRecords].
Proof.
  assert (Ht : forall n,
             transient ((fun _ : nat =>
                           @Networks.unavailable (CloudflareResponse.t (list DNSRecord.t))) n)).
  { intros n. left. cbn. lia. }
  exact (proj1 (proj2 (makeRequest_retries_three_times _ RequestLayerTheorems.listRecords
                         (fun _ => Networks.unavailable) "Fetching DNS records"
                         (initialWorld 1000) (Ht _) (Ht _) (Ht _)))).
Defined.

End RetryTheorems.

(* ================================================================== *)
(** ** More on the Cloudflare client: the zone map and its operations *)
(* ================================================================== *)

Module ClientFacts.
Import JS JSFacts CloudflareAPI Trace CloudflareFacts RequestLayer.

Lemma Map_get_set (m : ZoneMap) (k v k' : string) :
  Map_get (Map_set m k v) k' = if String.eqb k k' then Some v else Map_get m k'.
Proof.
  induction m as [|[k0 v0] m IH]; cbn [Map_set Map_get].
  - reflexivity.
  - destruct (String.eqb_spec k0 k) as [-> | Hne]; cbn [Map_get].
    + now destruct (String.eqb k k').
    + rewrite IH. destruct (String.eqb_spec k0 k') as [-> | Hne']; [| reflexivity].
      destruct (String.eqb_spec k k'); [congruence | reflexivity].
Qed.

Lemma Map_keys_set (m : ZoneMap) (k v x : string) :
  In x (Map_keys (Map_set m k v)) <-> x = k \/ In x (Map_keys m).
Proof.
  unfold Map_keys. induction m as [|[k0 v0] m IH]; cbn [Map_set map In fst].
  - intuition.
  - destruct (String.eqb_spec k0 k) as [-> | Hne]; cbn [map In fst].
    + intuition.
    + rewrite IH. intuition.
Qed.

Lemma Map_keys_set_NoDup (m : ZoneMap) (k v : string) :
  NoDup (Map_keys m) -> NoDup (Map_keys (Map_set m k v)).
Proof.
  induction m as [|[k0 v0] m IH]; cbn [Map_set].
  - intros _. repeat constructor. intros [].
  - intros Hn. inversion Hn as [|? ? Hnot Hrest]; subst.
    destruct (String.eqb_spec k0 k) as [-> | Hne].
    + now constructor.
    + change (NoDup (k0 :: Map_keys (Map_set m k v))). constructor; [| now apply IH].
      rewrite Map_keys_set. intros [-> | Hin]; [congruence | contradiction].
Qed.

Lemma Map_get_None (m : ZoneMap) (k : string) :
  ~ In k (Map_keys m) -> Map_get m k = None.
Proof.
  induction m as [|[k0 v0] m IH]; cbn [Map_get Map_keys map In fst]; [reflexivity |].
  intros Hn. destruct (String.eqb_spec k0 k) as [-> | Hne]; [now elim Hn; left |].
  apply IH. intros Hin. apply Hn. now right.
Qed.

(** The map that [initZones] builds from a zone listing. *)
Definition zoneMapOf (zs : list CloudflareZone.t) (m : ZoneMap) : ZoneMap :=
  fold_left (fun m z => Map_set m (CloudflareZone.name z) (CloudflareZone.id z)) zs m.

Lemma zoneMapOf_keys (zs : list CloudflareZone.t) :
  forall (m : ZoneMap) (k : string),
    In k (Map_keys (zoneMapOf zs m))
    <-> In k (map CloudflareZone.name zs) \/ In k (Map_keys m).
Proof.
  unfold zoneMapOf. induction zs as [|z zs IH]; intros m k; cbn [fold_left map In].
  - intuition.
  - rewrite IH, Map_keys_set. intuition.
Qed.

Lemma zoneMapOf_NoDup (zs : list CloudflareZone.t) :
  forall m, NoDup (Map_keys m) -> NoDup (Map_keys (zoneMapOf zs m)).
Proof.
  unfold zoneMapOf. induction zs as [|z zs IH]; intros m Hn; cbn [fold_left];
    [exact Hn |].
  apply IH. now apply Map_keys_set_NoDup.
Qed.

Lemma zoneMapOf_get (zs : list CloudflareZone.t) (k v : string) :
  (forall z, In z zs -> CloudflareZone.name z = k -> CloudflareZone.id z = v) ->
  forall m,
    (exists z, In z zs /\ CloudflareZone.name z = k) \/ Map_get m k = Some v ->
    Map_get (zoneMapOf zs m) k = Some v.
Proof.
  unfold zoneMapOf. induction zs as [|z zs IH]; intros Hid m Hsrc; cbn [fold_left].
  - destruct Hsrc as [(z & [] & _) | Hm]. exact Hm.
  - apply IH; [intros z' Hin; apply Hid; now right |].
    rewrite Map_get_set.
    destruct (String.eqb_spec (CloudflareZone.name z) k) as [Ek | Hne].
    + right. f_equal. apply Hid; [now left | exact Ek].
    + destruct Hsrc as [(z' & [<- | Hin] & Hz') | Hm]; [contradiction | left | now right].
      now exists z'.
Qed.

(** A registered zone name is its own root domain. *)
Lemma getRootDomain_of_key (cf : t) (k : string) :
  In k (Map_keys (zones cf)) -> getRootDomain cf k = k.
Proof.
  intros Hin.
  pose proof (RootDomain.getRootDomain_max cf k k Hin (endsWith_refl k)) as Hmax.
  destruct (RootDomain.getRootDomain_cases cf k) as [E | [_ Hs]].
  - rewrite E in Hmax |- *. cbn in Hmax. symmetry. apply length_zero. lia.
  - pose proof (endsWith_length _ _ Hs) as Hlen.
    apply (endsWith_same_length k); [exact Hs | apply endsWith_refl | lia].
Qed.

(** A domain under no registered zone has no root domain and no zone id. *)
Lemma unmapped_root (cf : t) (domain : string) :
  (forall k, In k (Map_keys (zones cf)) -> endsWith domain k = false) ->
  getRootDomain cf domain = "" /\ Map_get (zones cf) "" = None.
Proof.
  intros Hnone. split.
  - destruct (RootDomain.getRootDomain_cases cf domain) as [E | [Hin Hs]]; [exact E |].
    rewrite (Hnone _ Hin) in Hs. discriminate.
  - apply Map_get_None. intros Hin. specialize (Hnone _ Hin).
    assert (Ht : endsWith domain "" = true)
      by (apply endsWith_spec; exists domain; now rewrite append_empty_r).
    congruence.
Qed.

End ClientFacts.

Module ClientTheorems.
Import JS JSFacts CloudflareAPI Trace CloudflareFacts RequestLayer ClientFacts.


(** X8.  For a domain that ends with no registered zone name, every
    record operation of the client returns its failure value (no records,
    [null], [false]) without issuing a request or changing anything. *)
Theorem unmapped_domain_is_left_alone :
  forall (net : Net) (cf : CloudflareAPI.t) (domain recordId : string)
         (data : RecordData.t) (changes : PartialRecord.t) (w : World),
    (forall k, In k (Map_keys (zones cf)) -> endsWith domain k = false) ->
    getZoneIdForDomain cf domain = None
    /\ getDNSRecords net cf domain w = (Return [], w)
    /\ hasWildcardARecord net cf domain w = (Return false, w)
    /\ createDNSRecord net cf domain data w = (Return None, w)
    /\ updateDNSRecord net cf domain recordId changes w = (Return None, w)
    /\ deleteDNSRecord net cf domain recordId w = (Return false, w).
Proof.
  intros net cf domain recordId data changes w Hnone.
  destruct (unmapped_root cf domain Hnone) as [Hroot Hget].
  assert (Hz : getZoneIdForDomain cf domain = None).
  { unfold getZoneIdForDomain. now rewrite Hroot. }
  assert (Hz' : getZoneIdForDomain cf "" = None).
  { rewrite <- Hroot. now rewrite RootDomain.getRootDomain_of_root. }
  split; [exact Hz |].
  split; [unfold getDNSRecords; now rewrite Hz |].
  split.
  { unfold hasWildcardARecord, bind. rewrite Hroot. unfold getDNSRecords.
    now rewrite Hz'. }
  split; [unfold createDNSRecord; now rewrite Hz |].
  split; [unfold updateDNSRecord; now rewrite Hz |].
  unfold deleteDNSRecord. now rewrite Hz.
Qed.

Lemma unmapped_domain_is_left_alone_witness :
  getDNSRecords PublicIPTheorems.offline Networks.client "www.example.org" (initialWorld 0)
  = (Return [], initialWorld 0)
  /\ deleteDNSRecord PublicIPTheorems.offline Networks.client "www.example.org" "r0"
       (initialWorld 0)
     = (Return false, initialWorld 0).
Proof.
  assert (Hnone : forall k, In k (Map_keys (zones Networks.client)) ->
                            endsWith "www.example.org" k = false).
  { intros k [<- | []]. reflexivity. }
  destruct (unmapped_domain_is_left_alone PublicIPTheorems.offline Networks.client
              "www.example.org" "r0" (RecordData.mk "www.example.org" "A" "203.0.113.7" true)
              (PartialRecord.mk None None None None None) (initialWorld 0) Hnone)
    as (_ & Hl & _ & _ & _ & Hd).
  split; [exact Hl | exact Hd].
Defined.

(** X9.  The zone map behaves as a map: after [set(k, v)] a lookup of [k]
    gives [v] and every other key is as before; the keys are then the old
    keys and [k]; and a map without repeated keys stays so. *)
Theorem zone_map_set_then_get :
  forall (m : ZoneMap) (k v k' : string),
    Map_get (Map_set m k v) k = Some v
    /\ (k' <> k -> Map_get (Map_set m k v) k' = Map_get m k')
    /\ (In k' (Map_keys (Map_set m k v)) <-> k' = k \/ In k' (Map_keys m))
    /\ (NoDup (Map_keys m) -> NoDup (Map_keys (Map_set m k v))).
Proof.
  intros m k v k'.
  split; [rewrite Map_get_set; now rewrite String.eqb_refl |].
  split.
  { intros Hne. rewrite Map_get_set.
    destruct (String.eqb_spec k k'); [congruence | reflexivity]. }
  split; [apply Map_keys_set | apply Map_keys_set_NoDup].
Qed.

(** X10.  [initZones] always returns a client, with the token it had, whose
    zone map holds exactly the names of the zones that [getZones] listed
    (none when the listing failed; what the map held before is dropped), each
    once.  A listed zone whose name is listed with one id only is its own
    root domain and is mapped to its id. *)
Theorem initZones_maps_listed_zones :
  forall (net : Net) (cf : CloudflareAPI.t) (w : World),
    exists zs wz cf',
      getZones net w = (Return zs, wz)
      /\ fst (initZones net cf w) = Return cf'
      /\ apiToken cf' = apiToken cf
      /\ (forall k, In k (Map_keys (zones cf')) <-> In k (map CloudflareZone.name zs))
      /\ NoDup (Map_keys (zones cf'))
      /\ (forall z, In z zs ->
            (forall z', In z' zs -> CloudflareZone.name z' = CloudflareZone.name z ->
                        CloudflareZone.id z' = CloudflareZone.id z) ->
            getRootDomain cf' (CloudflareZone.name z) = CloudflareZone.name z
            /\ getZoneIdForDomain cf' (CloudflareZone.name z) = Some (CloudflareZone.id z)).
Proof.
  intros net cf w.
  destruct (getZones_noThrow net w) as [zs Hzs].
  destruct (getZones net w) as [r0 wz] eqn:Eg. cbn [fst] in Hzs. subst r0.
  set (cf' := mk (apiToken cf) (zoneMapOf zs [])).
  exists zs, wz, cf'.
  assert (Hkeys : forall k, In k (Map_keys (zones cf')) <-> In k (map CloudflareZone.name zs)).
  { intros k. subst cf'. cbn [zones]. rewrite zoneMapOf_keys. cbn. intuition. }
  split; [reflexivity |]. split.
  { unfold initZones, bind. rewrite Eg. fold (zoneMapOf zs []). fold cf'.
    assert (Hn : noThrow (updateRootDomainRecords net cf'))
      by (apply noThrow_try_catch; intros e; apply noThrow_ret).
    destruct (Hn wz) as [[] Hu].
    destruct (updateRootDomainRecords net cf' wz) as [r1 w1]. cbn [fst] in Hu.
    now subst r1. }
  split; [reflexivity |]. split; [exact Hkeys |].
  split; [subst cf'; cbn [zones]; apply zoneMapOf_NoDup; constructor |].
  intros z Hin Hid.
  assert (Hk : In (CloudflareZone.name z) (Map_keys (zones cf')))
    by (apply Hkeys; now apply in_map).
  pose proof (getRootDomain_of_key cf' _ Hk) as Hroot.
  split; [exact Hroot |].
  unfold getZoneIdForDomain. rewrite Hroot. subst cf'. cbn [zones].
  apply zoneMapOf_get; [exact Hid | left; now exists z].
Qed.

(** X11.  With the zone of the domain known, a record that is not a CNAME
    is created or updated without consulting the record listing, and a
    record is deleted likewise: the operation issues its own request (the
    POST with the record, the PUT with the changes, the DELETE of the
    record) at once, repeats it at most twice, and issues nothing else. *)
Theorem mutations_issue_only_their_request :
  forall (net : Net) (cf : CloudflareAPI.t) (domain zoneId recordId : string)
         (data : RecordData.t) (changes : PartialRecord.t) (w : World),
    getZoneIdForDomain cf domain = Some zoneId -> zoneId <> "" ->
    let only (req : Request) (w' : World) :=
      exists rest, sent w' = sent w ++ (mkSent (now w) req :: rest)
                   /\ (List.length rest <= 2)%nat
                   /\ Forall (fun s => request s = req) rest in
    (RecordData.type data <> "CNAME" ->
       only (mkRequest POST (CfDnsRecords zoneId) (CreateBody data))
            (snd (createDNSRecord net cf domain data w)))
    /\ (PartialRecord.type changes <> Some "CNAME" ->
        only (mkRequest PUT (CfDnsRecord zoneId recordId) (UpdateBody changes))
             (snd (updateDNSRecord net cf domain recordId changes w)))
    /\ only (mkRequest DELETE (CfDnsRecord zoneId recordId) NoBody)
            (snd (deleteDNSRecord net cf domain recordId w)).
Proof.
  intros net cf domain zoneId recordId data changes w Hz Hne only.
  assert (Ht : truthy (Some zoneId) = true).
  { cbn. destruct (String.eqb_spec zoneId ""); [contradiction | reflexivity]. }
  split; [| split].
  - intros Hty. unfold createDNSRecord. rewrite Hz, Ht. cbn [negb].
    destruct (String.eqb_spec (RecordData.type data) "CNAME") as [E | _];
      [contradiction |].
    unfold bind at 1, ret at 1. cbv iota.
    apply guarded_request_sent; intros; apply issues_ret.
  - intros Hty. unfold updateDNSRecord. rewrite Hz, Ht. cbn [negb].
    assert (Hc : isCNAME (PartialRecord.type changes) = false).
    { unfold isCNAME. destruct (PartialRecord.type changes) as [ty|]; [| reflexivity].
      destruct (String.eqb_spec ty "CNAME"); [subst; now elim Hty | reflexivity]. }
    rewrite Hc. unfold bind at 1, ret at 1. cbv iota.
    apply guarded_request_sent; intros; apply issues_ret.
  - unfold deleteDNSRecord. rewrite Hz, Ht. cbn [negb].
    apply guarded_request_sent; intros; apply issues_ret.
Qed.

Lemma mutations_issue_only_their_request_witness :
  exists rest,
    sent (snd (deleteDNSRecord PublicIPTheorems.offline Networks.client "www.example.com"
                 "r7" (initialWorld 50)))
    = [] ++ (mkSent 50 (mkRequest DELETE (CfDnsRecord "z1" "r7") NoBody) :: rest)
    /\ (List.length rest <= 2)%nat
    /\ Forall (fun s => request s = mkRequest DELETE (CfDnsRecord "z1" "r7") NoBody) rest.
Proof.
  exact (proj2 (proj2 (mutations_issue_only_their_request PublicIPTheorems.offline
                         Networks.client "www.example.com" "z1" "r7"
                         (RecordData.mk "www.example.com" "A" "203.0.113.7" true)
                         (PartialRecord.mk None None None None None) (initialWorld 50)
                         eq_refl ltac:(discriminate)))).
Defined.

End ClientTheorems.

(* ================================================================== *)
(** ** More on [index.ts]: the IP-change pass and the records created *)
(* ================================================================== *)

Module IpChangeFacts.
Import JS JSFacts CloudflareAPI Index IpChange Trace CloudflareFacts.

(** Requests to an IP provider. *)
Definition toProvider (r : Request) : Prop :=
  method r = GET /\ exists u, endpoint r = IpService u.

(** Requests that [updateDomainIP] may issue for [domain] and [newIP]:
    listings; the update of an A record of that name whose address differs,
    to the new address; and, with auto-creation enabled, the creation of the
    proxied A record. *)
Definition ipUpdateRequest (config : Config) (domain newIP : string) (r : Request) : Prop :=
  method r = GET
  \/ (exists rec,
        method r = PUT /\ body r = UpdateBody (withContent rec newIP)
        /\ DNSRecord.type rec = "A" /\ DNSRecord.name rec = domain
        /\ DNSRecord.content rec <> newIP)
  \/ (autoCreateRootRecords config = true /\ method r = POST
      /\ body r = CreateBody (RecordData.mk domain "A" newIP true)).

(** Requests that the loop over the changed hosts may issue: listings, and
    creations of proxied records, either a CNAME to the root domain of its
    name or, with auto-creation enabled, the A record of a root domain. *)
Definition createsProxied (config : Config) (cf : CloudflareAPI.t) (r : Request) : Prop :=
  method r = GET
  \/ exists data,
       method r = POST /\ body r = CreateBody data /\ RecordData.proxied data = true
       /\ ((RecordData.type data = "CNAME"
            /\ RecordData.content data = getRootDomain cf (RecordData.name data)
            /\ RecordData.name data <> RecordData.content data)
           \/ (RecordData.type data = "A" /\ autoCreateRootRecords config = true
               /\ getRootDomain cf (RecordData.name data) = RecordData.name data)).

Lemma issues_forEach_In {A} (P : Request -> Prop) (xs : list A) (body : A -> M unit) :
  (forall x, In x xs -> issues P (body x)) -> issues P (forEach xs body).
Proof.
  induction xs as [|x xs IH]; intros Hb; cbn [forEach]; [apply issues_ret |].
  apply issues_bind; [apply Hb; now left |]. intros _. apply IH.
  intros y Hy. apply Hb. now right.
Qed.

Section WithNet.
Variable net : Net.
Variable config : Config.

Lemma getPublicIP_toProvider : issues toProvider (PublicIP.getPublicIP net).
Proof.
  intros w.
  destruct (ResolverFacts.getPublicIP_sends net w) as (l & k & El & Hm).
  exists l. split; [exact El |].
  assert (Hall : Forall toProvider (map request l)).
  { rewrite Hm. apply Forall_forall. intros r Hin. apply ResolverFacts.In_firstn in Hin.
    apply in_map_iff in Hin as (s & <- & _). split; [reflexivity |].
    now exists (PublicIP.url s). }
  exact (proj1 (Forall_map request toProvider l) Hall).
Qed.

Lemma updateDNSRecord_issues_put (cf : CloudflareAPI.t) (domain recordId : string)
    (data : PartialRecord.t) :
  issues (fun r => method r = GET \/ (method r = PUT /\ body r = UpdateBody data))
         (updateDNSRecord net cf domain recordId data).
Proof.
  unfold updateDNSRecord. destruct (getZoneIdForDomain cf domain) as [zoneId|];
    [| apply issues_ret].
  destruct (negb _); [apply issues_ret |].
  apply issues_bind.
  - destruct (isCNAME _); [| apply issues_ret].
    eapply issues_weaken; [| apply hasWildcardARecord_issues]. now left.
  - intros [|]; [apply issues_ret |].
    apply issues_try_catch; [| intros e; apply issues_ret].
    apply issues_bind; [| intros d; apply issues_ret].
    apply makeRequest_issues. now right.
Qed.

Lemma updateDomainIP_issues (cf : CloudflareAPI.t) (domain newIP : string) :
  issues (ipUpdateRequest config domain newIP) (updateDomainIP net config cf domain newIP).
Proof.
  unfold updateDomainIP. apply issues_bind.
  { eapply issues_weaken; [| apply getDNSRecords_issues]. now left. }
  intros records. destruct (find (isRootA domain) records) as [rec|] eqn:Ef.
  - apply find_some in Ef as [_ Hroot]. unfold isRootA in Hroot.
    apply andb_prop in Hroot as [Hty Hname].
    apply String.eqb_eq in Hty, Hname.
    destruct (String.eqb_spec (DNSRecord.content rec) newIP) as [E | Hne]; cbn [negb];
      [apply issues_ret |].
    apply issues_bind; [| intros x; apply issues_ret].
    eapply issues_weaken; [| apply updateDNSRecord_issues_put].
    intros r [Hg | [Hp Hb]]; [now left | right; left]. now exists rec.
  - destruct (autoCreateRootRecords config) eqn:Eauto; [| apply issues_ret].
    apply issues_bind; [| intros x; apply issues_ret].
    eapply issues_weaken; [| apply createDNSRecord_issues].
    intros r [Hg | [Hp Hb]]; [now left | right; right; auto].
Qed.

Lemma updateDomainIP_noThrow (cf : CloudflareAPI.t) (domain newIP : string) :
  noThrow (updateDomainIP net config cf domain newIP).
Proof.
  unfold updateDomainIP. apply noThrow_bind; [apply getDNSRecords_noThrow |].
  intros records. destruct (find _ records) as [rec|].
  - destruct (negb _); [| apply noThrow_ret].
    apply noThrow_bind; [apply updateDNSRecord_noThrow | intros x; apply noThrow_ret].
  - destruct (autoCreateRootRecords config); [| apply noThrow_ret].
    apply noThrow_bind; [apply createDNSRecord_noThrow | intros x; apply noThrow_ret].
Qed.

(** The pass over the zones after an address change. *)
Definition updateZones (cf : CloudflareAPI.t) (newIP : string) : M unit :=
  zones <- getZones net ;;
  forEach zones (fun zone => updateDomainIP net config cf (CloudflareZone.name zone) newIP).

Lemma updateZones_issues (cf : CloudflareAPI.t) (newIP : string) :
  issues (fun r => exists domain, ipUpdateRequest config domain newIP r)
         (updateZones cf newIP).
Proof.
  unfold updateZones. apply issues_bind.
  { eapply issues_weaken; [| apply getZones_issues].
    intros r [Hg | []]. exists "". now left. }
  intros zs. apply issues_forEach. intros zone.
  eapply issues_weaken; [| apply updateDomainIP_issues].
  intros r Hr. now exists (CloudflareZone.name zone).
Qed.

Lemma updateZones_noThrow (cf : CloudflareAPI.t) (newIP : string) :
  noThrow (updateZones cf newIP).
Proof.
  unfold updateZones. apply noThrow_bind; [apply getZones_noThrow |].
  intros zs. apply noThrow_forEach. intros zone. apply updateDomainIP_noThrow.
Qed.

Lemma ensureRootDomainRecord_creates (cf : CloudflareAPI.t) (domain : string) :
  issues (createsProxied config cf) (ensureRootDomainRecord net config cf domain).
Proof.
  unfold ensureRootDomainRecord.
  destruct (negb (truthy _)); [apply issues_ret |].
  destruct (String.eqb domain _); [apply issues_ret |].
  apply issues_bind.
  { eapply issues_weaken; [| apply getDNSRecords_issues]. now left. }
  intros records. destruct (find _ records) as [rec|]; [apply issues_ret |].
  destruct (autoCreateRootRecords config) eqn:Eauto; cbn [negb]; [| apply issues_ret].
  apply issues_bind.
  { eapply issues_weaken; [| apply getPublicIP_issues]. now left. }
  intros publicIP. apply issues_bind.
  - eapply issues_weaken; [| apply createDNSRecord_issues].
    intros r [Hg | [Hp Hb]]; [now left | right].
    exists (RecordData.mk (getRootDomain cf domain) "A" publicIP true).
    split; [exact Hp |]. split; [exact Hb |]. split; [reflexivity |]. right.
    split; [reflexivity |]. split; [exact Eauto |].
    apply RootDomain.getRootDomain_idempotent.
  - intros [created|]; apply issues_ret.
Qed.

Lemma syncDomain_creates (cf : CloudflareAPI.t) (domain : string) :
  issues (createsProxied config cf) (syncDomain net config cf domain).
Proof.
  unfold syncDomain. set (d := trim domain).
  destruct (String.eqb_spec d (getRootDomain cf d)) as [Eroot | Hsub]; cbn [negb].
  - apply issues_bind; [apply issues_ret |]. intros proceed.
    destruct (negb proceed); [apply issues_ret |].
    apply issues_bind.
    { eapply issues_weaken; [| apply getDNSRecords_issues]. now left. }
    intros records. destruct (find _ records) as [rec|]; [apply issues_ret |].
    apply issues_bind.
    { eapply issues_weaken; [| apply getPublicIP_issues]. now left. }
    intros currentIP. destruct (autoCreateRootRecords config) eqn:Eauto;
      [| apply issues_ret].
    apply issues_bind; [| intros x; apply issues_ret].
    eapply issues_weaken; [| apply createDNSRecord_issues].
    intros r [Hg | [Hp Hb]]; [now left | right].
    exists (RecordData.mk d "A" currentIP true).
    split; [exact Hp |]. split; [exact Hb |]. split; [reflexivity |]. right.
    split; [reflexivity |]. split; [exact Eauto | now symmetry].
  - apply issues_bind; [apply ensureRootDomainRecord_creates |]. intros proceed.
    destruct (negb proceed); [apply issues_ret |].
    apply issues_bind.
    { eapply issues_weaken; [| apply getDNSRecords_issues]. now left. }
    intros records. destruct (find _ records) as [rec|]; [apply issues_ret |].
    apply issues_bind; [| intros x; apply issues_ret].
    eapply issues_weaken; [| apply createDNSRecord_issues].
    intros r [Hg | [Hp Hb]]; [now left | right].
    exists (RecordData.mk d "CNAME" (getRootDomain cf d) true).
    split; [exact Hp |]. split; [exact Hb |]. split; [reflexivity |]. left.
    split; [reflexivity |]. split; [reflexivity | exact Hsub].
Qed.

End WithNet.
End IpChangeFacts.

Module IpChangeTheorems.
Import JS JSFacts CloudflareAPI Index IpChange Trace CloudflareFacts IpChangeFacts.

Section WithNet.
Variable net : Net.
Variable config : Config.

Lemma checkPublicIPChange_step (cf : CloudflareAPI.t) (current : option string)
    (w : World) :
  checkPublicIPChange net config cf current w =
  match PublicIP.getPublicIP net w with
  | (Throw _, w1) => (Return current, w1)
  | (Return ip, w1) =>
      match current with
      | None => (Return (Some ip), w1)
      | Some old =>
          if negb (String.eqb ip old) then
            match updateZones net config cf ip w1 with
            | (Return _, w2) => (Return (Some ip), w2)
            | (Throw _, w2) => (Return current, w2)
            end
          else (Return current, w1)
      end
  end.
Proof.
  unfold checkPublicIPChange, updateZones, try_catch, bind, ret.
  destruct (PublicIP.getPublicIP net w) as [[ip | e] w1]; [| reflexivity].
  destruct current as [old|]; [| reflexivity].
  destruct (negb (String.eqb ip old)); [| reflexivity].
  destruct (getZones net w1) as [[zs | e] wz]; [| reflexivity].
  now destruct (forEach zs _ wz) as [[[] | e] w2].
Qed.


(** X13.  One run of [checkPublicIPChange], with [current] the stored
    address, never throws.  When [getPublicIP] fails, the stored address
    stays.  On the first run (nothing stored) and when the address found
    equals the stored one, the address found is the stored address after the
    run and nothing but the resolution has happened: no request goes to
    Cloudflare.  When the address found differs from the stored one, the
    zones are listed (the listing request is issued at once, and repeated
    at most twice), then [updateDomainIP] is run with the new address for
    each listed zone in the order of the listing, all of them, since none
    of these runs throws; the requests of that pass are those that
    [updateDomainIP] may issue for a listed zone and the new address; and
    the new address is stored whether or not the updates succeeded. *)
Theorem checkPublicIPChange_baseline :
  forall (cf : CloudflareAPI.t) (current : option string) (w : World),
    let ipRun := PublicIP.getPublicIP net w in
    let run := checkPublicIPChange net config cf current w in
    match fst ipRun with
    | Throw _ => run = (Return current, snd ipRun)
    | Return ip =>
        if match current with
           | None => true
           | Some old => String.eqb ip old
           end
        then run = (Return (Some ip), snd ipRun)
        else
          let listing := mkRequest GET CfZones NoBody in
          exists zones wz rest,
            getZones net (snd ipRun) = (Return zones, wz)
            /\ sent wz = sent (snd ipRun) ++ (mkSent (now (snd ipRun)) listing :: rest)
            /\ (List.length rest <= 2)%nat
            /\ Forall (fun s => request s = listing) rest
            /\ forEach zones (fun zone => updateDomainIP net config cf
                                            (CloudflareZone.name zone) ip) wz
               = (Return tt, snd run)
            /\ fst run = Return (Some ip)
            /\ exists l,
                 sent (snd run) = sent wz ++ l
                 /\ Forall (fun s => exists zone,
                                       In zone zones
                                       /\ ipUpdateRequest config (CloudflareZone.name zone) ip
                                                          (request s)) l
    end.
Proof.
  intros cf current w. cbv zeta. rewrite checkPublicIPChange_step.
  destruct (PublicIP.getPublicIP net w) as [[ip | e] w1]; cbn [fst snd]; [| reflexivity].
  destruct current as [old|]; [| reflexivity].
  destruct (String.eqb_spec ip old) as [-> | Hne]; cbn [negb]; [reflexivity |].
  destruct (getZones_noThrow net w1) as [zs Hzs].
  destruct (RequestLayer.guarded_request_sent (mkRequest GET CfZones NoBody) (cf_zones net)
              "Fetching zones" (fun data => ret (CloudflareResponse.result data))
              (fun _ => ret []) w1
              ltac:(intros; apply issues_ret) ltac:(intros; apply issues_ret))
    as (rest & Es & Hlen & Hall).
  change (try_catch _ _ w1) with (getZones net w1) in Es.
  unfold updateZones, bind.
  destruct (getZones net w1) as [r0 wz]. cbn [fst snd] in Hzs, Es. subst r0.
  set (body := fun zone => updateDomainIP net config cf (CloudflareZone.name zone) ip).
  assert (Hn : noThrow (forEach zs body))
    by (apply noThrow_forEach; intros zone; apply updateDomainIP_noThrow).
  assert (Hi : issues (fun r => exists zone,
                         In zone zs
                         /\ ipUpdateRequest config (CloudflareZone.name zone) ip r)
                      (forEach zs body)).
  { apply issues_forEach_In. intros zone Hin.
    eapply issues_weaken; [| apply updateDomainIP_issues]. intros r Hr. now exists zone. }
  destruct (Hn wz) as [[] Hr]. destruct (Hi wz) as (l & El & Fl).
  destruct (forEach zs body wz) as [r1 w2] eqn:Ef. cbn [fst snd] in Hr, El. subst r1.
  exists zs, wz, rest. cbn [fst snd].
  split; [reflexivity |]. split; [exact Es |]. split; [exact Hlen |].
  split; [exact Hall |]. split; [exact Ef |]. split; [reflexivity |]. now exists l.
Qed.

(** X14.  The loop over the changed hosts creates only proxied records.
    A CNAME it creates points to the root domain of its name, which is not
    the name itself; an A record is created only with auto-creation enabled
    and only for a name that is its own root domain.  So with auto-creation
    disabled the loop creates CNAME records only; and it never updates or
    deletes. *)
Theorem changed_hosts_create_proxied_records :
  forall (cf : CloudflareAPI.t) (hosts : list NPMHost.t),
    issues (createsProxied config cf) (handleChangedHosts net config cf hosts).
Proof.
  intros cf hosts. unfold handleChangedHosts. apply issues_forEach. intros host.
  apply issues_forEach. intros domain. apply syncDomain_creates.
Qed.

End WithNet.
End IpChangeTheorems.

(* ================================================================== *)
(** ** More on the monitor: logging in, fetching, polling *)
(* ================================================================== *)

Module LoginFacts.
Import JS Monitor NPMMonitor Trace MonitorFacts.

(** What a reply to a request of the monitor is worth, with the timeout of
    ten seconds: the parsed body of a 2xx answer delivered in time, or
    [None] when the attempt fails. *)
Definition accepted {T} (reply : Reply T) : option T :=
  match reply with
  | NetworkError _ => None
  | Response el r =>
      if requestTimeout <=? Z.of_N el then None
      else if ok r then json r else None
  end.

(** The time a request of the monitor takes: the time of the reply, or the
    timeout if that comes first. *)
Definition waited {T} (reply : Reply T) : Z :=
  let el := match reply with
            | NetworkError el => Z.of_N el
            | Response el _ => Z.of_N el
            end in
  if requestTimeout <=? el then requestTimeout else el.

(** A 401 answer delivered in time. *)
Definition unauthorized {T} (reply : Reply T) : bool :=
  match reply with
  | NetworkError _ => false
  | Response el r => negb (requestTimeout <=? Z.of_N el) && (status r =? 401)
  end.

(** The pauses of a retry loop that fails [remaining] times from
    [attempt] on. *)
Fixpoint pauses (remaining : nat) (attempt : Z) : Z :=
  match remaining with
  | O => 0
  | S remaining' =>
      (if attempt <? maxRetries - 1 then backoff attempt else 0)
      + pauses remaining' (attempt + 1)
  end.

(** The first accepted answer among the [k] replies to the requests
    number [n], [n + 1], ...: its position and its body. *)
Fixpoint firstAccepted {T} (answer : nat -> Reply T) (n k : nat) : option (nat * T) :=
  match k with
  | O => None
  | S k' =>
      match accepted (answer n) with
      | Some body => Some (O, body)
      | None =>
          match firstAccepted answer (S n) k' with
          | Some (i, body) => Some (S i, body)
          | None => None
          end
      end
  end.

Lemma firstAccepted_Some {T} (answer : nat -> Reply T) (k : nat) :
  forall (n i : nat) (body : T),
    firstAccepted answer n k = Some (i, body)
    <-> (i < k)%nat
        /\ accepted (answer (n + i)%nat) = Some body
        /\ forall j, (j < i)%nat -> accepted (answer (n + j)%nat) = None.
Proof.
  induction k as [|k IH]; intros n i body; cbn [firstAccepted].
  - split; [discriminate | intros [H _]; lia].
  - assert (Hn0 : (n + 0 = n)%nat) by lia.
    destruct (accepted (answer n)) as [b|] eqn:Ea.
    + split.
      * intros [= <- <-]. rewrite Hn0. repeat split; [lia | exact Ea | intros j; lia].
      * intros (Hi & Hacc & Hnone). destruct i as [|i].
        -- rewrite Hn0 in Hacc. congruence.
        -- specialize (Hnone 0%nat ltac:(lia)). rewrite Hn0 in Hnone. congruence.
    + destruct (firstAccepted answer (S n) k) as [[i' b']|] eqn:Ef.
      * apply IH in Ef as (Hi' & Hacc' & Hnone').
        rewrite Nat.add_succ_comm in Hacc'.
        assert (Hbefore : forall j, (j < S i')%nat -> accepted (answer (n + j)%nat) = None).
        { intros [|j] Hj; [now rewrite Hn0 |].
          rewrite <- Nat.add_succ_comm. apply Hnone'. lia. }
        split.
        -- intros [= <- <-]. split; [lia |]. split; [exact Hacc' | exact Hbefore].
        -- intros (Hi & Hacc & Hnone).
           destruct (Nat.lt_trichotomy i (S i')) as [Hlt | [-> | Hgt]].
           ++ rewrite (Hbefore i Hlt) in Hacc. discriminate.
           ++ congruence.
           ++ rewrite (Hnone (S i') Hgt) in Hacc'. discriminate.
      * split; [discriminate |]. intros (Hi & Hacc & Hnone). exfalso.
        destruct i as [|i].
        -- rewrite Hn0 in Hacc. congruence.
        -- assert (Hsome : firstAccepted answer (S n) k = Some (i, body)).
           { apply IH. split; [lia |]. split.
             - now rewrite Nat.add_succ_comm.
             - intros j Hj. rewrite Nat.add_succ_comm. apply Hnone. lia. }
           congruence.
Qed.

Lemma firstAccepted_None {T} (answer : nat -> Reply T) (k : nat) :
  forall n, (forall j, accepted (answer j) = None) -> firstAccepted answer n k = None.
Proof.
  induction k as [|k IH]; intros n Hnone; cbn [firstAccepted]; [reflexivity |].
  now rewrite Hnone, IH.
Qed.

Lemma waited_nonneg {T} (reply : Reply T) : 0 <= waited reply.
Proof.
  unfold waited, requestTimeout. destruct reply as [el | el r];
    destruct (10000 <=? Z.of_N el); lia.
Qed.

Section WithPlatform.
Variable net : Net.
Variable email password : string.

Definition loginRequest : Request := mkRequest POST NpmTokens (LoginBody email password).

Definition afterPause (attempt : Z) (w : World) : World :=
  if attempt <? maxRetries - 1 then advance (timerDelay (Some (backoff attempt))) w else w.

Lemma login_loop_step (remaining : nat) (attempt : Z) (w : World) :
  let reply := npm_tokens net (List.length (sent w)) in
  let w1 := advance (waited reply) (record loginRequest w) in
  login_loop net email password (S remaining) attempt w =
  match accepted reply with
  | Some tok =>
      (Return true,
       snd (setMonitor (set_consecutiveFailures 0 (set_token tok (monitor w1))) w1))
  | None => login_loop net email password remaining (attempt + 1) (afterPause attempt w1)
  end.
Proof.
  cbv zeta. cbn [login_loop]. unfold afterPause, accepted, waited.
  unfold bind at 1. unfold try_catch. unfold bind at 1. unfold fetch.
  fold loginRequest.
  destruct (npm_tokens net (List.length (sent w))) as [el | el r].
  - destruct (requestTimeout <=? Z.of_N el);
      unfold bind, sleep, ret; destruct (attempt <? maxRetries - 1); reflexivity.
  - destruct (requestTimeout <=? Z.of_N el).
    + unfold bind, sleep, ret; destruct (attempt <? maxRetries - 1); reflexivity.
    + destruct (ok r); cbn [negb].
      * unfold bind at 1, readJson. destruct (json r) as [tok|].
        -- reflexivity.
        -- unfold throw, bind, sleep, ret; destruct (attempt <? maxRetries - 1); reflexivity.
      * unfold throw, bind, sleep, ret; destruct (attempt <? maxRetries - 1); reflexivity.
Qed.

Lemma afterPause_facts (attempt : Z) (w : World) :
  sent (afterPause attempt w) = sent w /\ monitor (afterPause attempt w) = monitor w
  /\ now w + (if attempt <? maxRetries - 1 then backoff attempt else 0)
     <= now (afterPause attempt w).
Proof.
  unfold afterPause. destruct (Z.ltb_spec attempt (maxRetries - 1)) as [Hlt | Hge].
  - cbn [sent monitor now advance]. split; [reflexivity |]. split; [reflexivity |].
    assert (Hb : backoff attempt <= 10000).
    { unfold backoff, retryDelay. unfold maxRetries in Hlt.
      pose proof (Z.pow_le_mono_r 2 attempt 1 ltac:(lia) ltac:(lia)) as Hp.
      change (2 ^ 1) with 2 in Hp. lia. }
    unfold timerDelay, TIMEOUT_MAX.
    destruct (Z.ltb_spec (backoff attempt) 1);
      destruct (Z.ltb_spec 2147483647 (backoff attempt)); cbn [orb]; lia.
  - split; [reflexivity |]. split; [reflexivity | lia].
Qed.

(** The loop of [login]: it never throws; it repeats one request; it ends
    with [true] at the first accepted answer, and with [false] after
    [remaining] refused ones. *)
Lemma login_loop_outcome (remaining : nat) :
  forall (attempt : Z) (w : World),
    let run := login_loop net email password remaining attempt w in
    let m := monitor w in
    let m' := monitor (snd run) in
    exists l,
      sent (snd run) = sent w ++ l
      /\ Forall (fun s => request s = loginRequest) l
      /\ match firstAccepted (npm_tokens net) (List.length (sent w)) remaining with
         | Some (i, tok) =>
             fst run = Return true
             /\ List.length l = S i
             /\ m' = set_consecutiveFailures 0 (set_token tok m)
         | None =>
             fst run = Return false
             /\ List.length l = remaining
             /\ m' = set_consecutiveFailures (consecutiveFailures m + 1) m
             /\ now w + pauses remaining attempt <= now (snd run)
         end.
Proof.
  induction remaining as [|remaining IH]; intros attempt w; cbv zeta.
  - exists []. cbn. rewrite app_nil_r. repeat split; auto. lia.
  - rewrite login_loop_step. cbn [firstAccepted].
    set (reply := npm_tokens net (List.length (sent w))).
    set (w1 := advance (waited reply) (record loginRequest w)).
    destruct (accepted reply) as [tok|] eqn:Ea.
    + exists [mkSent (now w) loginRequest]. cbn [fst snd setMonitor sent monitor].
      split; [reflexivity |]. split; [now repeat constructor |]. now repeat split.
    + destruct (afterPause_facts attempt w1) as (Hs & Hm & Ht).
      destruct (IH (attempt + 1) (afterPause attempt w1)) as (l & El & Hall & Hout).
      assert (Hlen1 : List.length (sent (afterPause attempt w1)) = S (List.length (sent w))).
      { rewrite Hs. subst w1. cbn [sent advance record]. rewrite length_app. cbn. lia. }
      rewrite Hlen1, Hm in Hout. change (monitor w1) with (monitor w) in Hout.
      exists (mkSent (now w) loginRequest :: l).
      split.
      { rewrite El, Hs. subst w1. cbn [sent advance record]. now rewrite <- app_assoc. }
      split; [now constructor |].
      destruct (firstAccepted (npm_tokens net) (S (List.length (sent w))) remaining)
        as [[i tok]|].
      * destruct Hout as (Hr & Hl & Hmon). cbn [List.length]. auto.
      * destruct Hout as (Hr & Hl & Hmon & Hnow).
        split; [exact Hr |]. split; [cbn; lia |]. split; [exact Hmon |].
        cbn [pauses]. pose proof (waited_nonneg reply) as Hw.
        assert (Hn1 : now w1 = now w + waited reply) by reflexivity. lia.
Qed.

End WithPlatform.
End LoginFacts.

Module FetchFacts.
Import JS Monitor NPMMonitor Trace MonitorFacts LoginFacts.

Definition hostsRequest : Request := mkRequest GET NpmProxyHosts NoBody.

Definition unreachable : Error :=
  JsError "NPM API is unreachable after multiple attempts. Monitoring stopped.".

Section WithPlatform.
Variable net : Net.
Variable email password : string.

Lemma getHeaders_step (w : World) :
  getHeaders net email password w =
  if truthy (token (monitor w)) then (Return (token (monitor w)), w)
  else match login net email password w with
       | (Return true, w1) => (Return (token (monitor w1)), w1)
       | (Return false, w1) => (Throw (JsError "Unable to authenticate with NPM"), w1)
       | (Throw e, w1) => (Throw e, w1)
       end.
Proof.
  unfold getHeaders. unfold bind at 1. unfold getMonitor at 1.
  destruct (truthy (token (monitor w))); cbn [negb]; [reflexivity |].
  unfold bind. destruct (login net email password w) as [[[|] | e] w1]; reflexivity.
Qed.

Lemma unauthorized_not_accepted {T} (reply : Reply T) :
  unauthorized reply = true -> accepted reply = None.
Proof.
  unfold unauthorized, accepted. destruct reply as [el | el r]; [discriminate |].
  destruct (requestTimeout <=? Z.of_N el); [discriminate |]. cbn [negb andb].
  intros Hs. apply Z.eqb_eq in Hs. unfold ok. now rewrite Hs.
Qed.

Lemma getProxyHosts_attempt_step (attempt : Z) (w : World) :
  getProxyHosts_attempt net email password attempt w =
  match getHeaders net email password w with
  | (Throw _, wh) => (Return NextAttempt, afterPause attempt wh)
  | (Return headers, wh) =>
      let reply := npm_proxy_hosts net (List.length (sent wh)) headers in
      let w1 := advance (waited reply) (record hostsRequest wh) in
      if unauthorized reply then (Return Recurse, snd (update (set_token None) w1))
      else match accepted reply with
           | Some hosts =>
               (Return (Returned hosts), snd (update (set_consecutiveFailures 0) w1))
           | None => (Return NextAttempt, afterPause attempt w1)
           end
  end.
Proof.
  unfold getProxyHosts_attempt, try_catch. unfold bind at 1.
  assert (Hh : forall w0,
             ((if attempt <? maxRetries - 1 then sleep (Some (backoff attempt)) else ret tt) ;;;
              ret NextAttempt) w0 = (Return NextAttempt, afterPause attempt w0)).
  { intros w0. unfold afterPause, bind, sleep, ret.
    now destruct (attempt <? maxRetries - 1). }
  destruct (getHeaders net email password w) as [[headers | e] wh]; [| apply Hh].
  cbv zeta. unfold bind at 1. unfold fetch. fold hostsRequest.
  pose proof (unauthorized_not_accepted
                (npm_proxy_hosts net (List.length (sent wh)) headers)) as Hua.
  unfold unauthorized, accepted, waited in *.
  destruct (npm_proxy_hosts net (List.length (sent wh)) headers) as [el | el r].
  - destruct (requestTimeout <=? Z.of_N el); apply Hh.
  - destruct (requestTimeout <=? Z.of_N el); [apply Hh |]. cbn [negb andb] in *.
    destruct (status r =? 401) eqn:E401.
    + destruct (ok r) eqn:Eo; [| reflexivity].
      exfalso. apply Z.eqb_eq in E401. unfold ok in Eo. rewrite E401 in Eo. discriminate.
    + destruct (ok r); cbn [negb]; [| apply Hh].
      unfold bind at 1, readJson. destruct (json r) as [hosts|]; [reflexivity | apply Hh].
Qed.

(** [getHeaders] leaves the failure counter alone or resets it (a
    successful login) or adds one (a failed login). *)
Lemma getHeaders_counter (w : World) :
  let r := getHeaders net email password w in
  match fst r with
  | Return _ => True
  | Throw _ =>
      truthy (token (monitor w)) = false
      /\ monitor (snd r)
         = set_consecutiveFailures (consecutiveFailures (monitor w) + 1) (monitor w)
      /\ exists l, sent (snd r) = sent w ++ l /\ List.length l = 3%nat
                   /\ Forall (fun s => request s = loginRequest email password) l
  end.
Proof.
  cbv zeta. rewrite getHeaders_step.
  destruct (truthy (token (monitor w))); [exact I |].
  destruct (login_loop_outcome net email password 3 0 w) as (l & El & Hall & Hout).
  cbv zeta in Hout.
  change (login_loop net email password 3 0) with (login net email password) in *.
  destruct (firstAccepted (npm_tokens net) (List.length (sent w)) 3) as [[i tok]|].
  - destruct Hout as (Hr & _).
    destruct (login net email password w) as [r0 w1]. cbn [fst] in Hr. subst r0. exact I.
  - destruct Hout as (Hr & Hl & Hm & _).
    destruct (login net email password w) as [r0 w1]. cbn [fst snd] in *. subst r0.
    split; [reflexivity |]. split; [exact Hm |]. now exists l.
Qed.

End WithPlatform.
End FetchFacts.

Module FetchLoop.
Import JS Monitor NPMMonitor Trace MonitorFacts LoginFacts FetchFacts.

Section WithPlatform.
Variable net : Net.
Variable email password : string.

Lemma getProxyHosts_loop_step (remaining : nat) (attempt : Z) (w : World) :
  getProxyHosts_loop net email password (S remaining) attempt w =
  match getProxyHosts_attempt net email password attempt w with
  | (Return (Returned hosts), w1) => (Return (Some hosts), w1)
  | (Return Recurse, w1) => (Return None, w1)
  | (Return NextAttempt, w1) =>
      getProxyHosts_loop net email password remaining (attempt + 1) w1
  | (Throw e, w1) => (Throw e, w1)
  end.
Proof.
  cbn [getProxyHosts_loop]. unfold bind.
  now destruct (getProxyHosts_attempt net email password attempt w) as [[[hosts | |] | e] w1].
Qed.

(** The end of the loop: the counter is incremented; at the threshold the
    monitor is stopped and the call throws, below it the call returns the
    empty list. *)
Lemma getProxyHosts_loop_end (attempt : Z) (w : World) :
  let m := monitor w in
  let n := consecutiveFailures m + 1 in
  getProxyHosts_loop net email password 0 attempt w =
  if maxConsecutiveFailures <=? n
  then (Throw unreachable,
        mkWorld (now w) (sent w) (cachedIP w) (lastCheck w)
                (mk (token m) false false (lastKnownHosts m) n false))
  else (Return (Some []),
        mkWorld (now w) (sent w) (cachedIP w) (lastCheck w) (set_consecutiveFailures n m)).
Proof.
  cbv zeta. cbn [getProxyHosts_loop].
  unfold bind, getMonitor, setMonitor, stopMonitoring, update, bind, getMonitor, setMonitor.
  cbn [monitor consecutiveFailures set_consecutiveFailures fst snd].
  now destruct (maxConsecutiveFailures <=? consecutiveFailures (monitor w) + 1).
Qed.

(** How a call of the loop can end. *)
Lemma getProxyHosts_loop_outcome (remaining : nat) :
  forall (attempt : Z) (w : World),
    let r := getProxyHosts_loop net email password remaining attempt w in
    let m' := monitor (snd r) in
    match fst r with
    | Return (Some hosts) =>
        consecutiveFailures m' = 0
        \/ (hosts = [] /\ consecutiveFailures m' < maxConsecutiveFailures)
    | Return None => exists n tok, unauthorized (npm_proxy_hosts net n tok) = true
    | Throw e =>
        e = unreachable /\ maxConsecutiveFailures <= consecutiveFailures m'
        /\ isMonitoring m' = false /\ isInitialized m' = false
        /\ monitorInterval m' = false
    end.
Proof.
  induction remaining as [|remaining IH]; intros attempt w; cbv zeta.
  - rewrite getProxyHosts_loop_end. cbv zeta.
    destruct (Z.leb_spec maxConsecutiveFailures (consecutiveFailures (monitor w) + 1));
      cbn [fst snd monitor consecutiveFailures isMonitoring isInitialized monitorInterval
           set_consecutiveFailures].
    + repeat split. assumption.
    + right. split; [reflexivity | assumption].
  - rewrite getProxyHosts_loop_step, getProxyHosts_attempt_step.
    destruct (getHeaders net email password w) as [[headers | e] wh]; [| apply IH].
    cbv zeta. destruct (unauthorized _) eqn:Eu.
    + cbn [fst]. eauto.
    + destruct (accepted _) as [hosts|]; [| apply IH].
      cbn [fst snd]. now left.
Qed.

Lemma getHeaders_login_fails (w : World) :
  truthy (token (monitor w)) = false ->
  (forall n, accepted (npm_tokens net n) = None) ->
  exists e, fst (getHeaders net email password w) = Throw e.
Proof.
  intros Ht Hfail. rewrite getHeaders_step, Ht.
  destruct (login_loop_outcome net email password 3 0 w) as (l & _ & _ & Hout).
  cbv zeta in Hout.
  rewrite (firstAccepted_None (npm_tokens net) 3 (List.length (sent w)) Hfail) in Hout.
  change (login_loop net email password 3 0) with (login net email password) in *.
  destruct Hout as (Hr & _).
  destruct (login net email password w) as [r0 w1]. cbn [fst] in Hr. subst r0.
  now exists (JsError "Unable to authenticate with NPM").
Qed.

Lemma getHeaders_returns (w : World) :
  (forall n, accepted (npm_tokens net n) <> None) ->
  exists headers, fst (getHeaders net email password w) = Return headers.
Proof.
  intros Hok. rewrite getHeaders_step.
  destruct (truthy (token (monitor w))); [now exists (token (monitor w)) |].
  change (login net email password w) with (login_loop net email password 3 0 w).
  rewrite login_loop_step.
  cbv zeta. destruct (accepted (npm_tokens net (List.length (sent w)))) as [tok|] eqn:Ea.
  - cbn [fst]. eauto.
  - now elim (Hok (List.length (sent w))).
Qed.

(** With no token and every login refused, each attempt of the loop costs
    three login requests and one failure; no request for the hosts is made. *)
Lemma getProxyHosts_loop_login_fails (remaining : nat) :
  forall (attempt : Z) (w : World),
    truthy (token (monitor w)) = false ->
    (forall n, accepted (npm_tokens net n) = None) ->
    let r := getProxyHosts_loop net email password remaining attempt w in
    let n := consecutiveFailures (monitor w) + Z.of_nat remaining + 1 in
    (exists l, sent (snd r) = sent w ++ l
               /\ List.length l = (3 * remaining)%nat
               /\ Forall (fun s => request s = loginRequest email password) l)
    /\ consecutiveFailures (monitor (snd r)) = n
    /\ token (monitor (snd r)) = token (monitor w)
    /\ fst r = if maxConsecutiveFailures <=? n then Throw unreachable else Return (Some []).
Proof.
  induction remaining as [|remaining IH]; intros attempt w Ht Hfail; cbv zeta.
  - rewrite getProxyHosts_loop_end. cbv zeta. rewrite Z.add_0_r.
    destruct (maxConsecutiveFailures <=? consecutiveFailures (monitor w) + 1);
      cbn [fst snd sent monitor consecutiveFailures set_consecutiveFailures token];
      (split; [exists []; rewrite app_nil_r; repeat split; constructor |]);
      split; [reflexivity | split; reflexivity | reflexivity | split; reflexivity].
  - rewrite getProxyHosts_loop_step, getProxyHosts_attempt_step.
    destruct (getHeaders_login_fails w Ht Hfail) as [e He].
    pose proof (getHeaders_counter net email password w) as Hc. cbv zeta in Hc.
    destruct (getHeaders net email password w) as [r0 wh]. cbn [fst snd] in He, Hc.
    subst r0. destruct Hc as (_ & Hm & l1 & E1 & Hlen1 & Hall1).
    destruct (afterPause_facts attempt wh) as (Hs & Hmon & _).
    assert (Ht' : truthy (token (monitor (afterPause attempt wh))) = false).
    { rewrite Hmon, Hm. exact Ht. }
    destruct (IH (attempt + 1) (afterPause attempt wh) Ht' Hfail)
      as ((l2 & E2 & Hlen2 & Hall2) & Hcf & Htok & Hres).
    rewrite Hmon, Hm in Hcf, Hres, Htok.
    cbn [consecutiveFailures set_consecutiveFailures token] in Hcf, Hres, Htok.
    replace (consecutiveFailures (monitor w) + Z.of_nat (S remaining) + 1)
      with (consecutiveFailures (monitor w) + 1 + Z.of_nat remaining + 1) by lia.
    split; [| split; [exact Hcf | split; [exact Htok | exact Hres]]].
    exists (l1 ++ l2). split; [now rewrite E2, Hs, E1, app_assoc |].
    split; [rewrite length_app; lia | now apply Forall_app].
Qed.

End WithPlatform.
End FetchLoop.

Module MonitorTheorems.
Import JS Monitor NPMMonitor Trace MonitorFacts LoginFacts FetchFacts FetchLoop.

(** A network on which nothing answers. *)
Definition dead : Net :=
  mkNet (fun _ => NetworkError 40) (fun _ _ => NetworkError 40)
        (fun _ => NetworkError 40) (fun _ _ => NetworkError 40)
        (fun _ _ _ => NetworkError 40) (fun _ _ _ _ => NetworkError 40)
        (fun _ _ _ => NetworkError 40) (fun _ _ => NetworkError 40).

(** An NPM instance that accepts every login and answers every request for
    the hosts with 401. *)
Definition alwaysExpired : Net :=
  Networks.serve (Networks.exampleZone [] Networks.always
                    (fun _ => Networks.respond 10 401 "application/json" None "Unauthorized")).

Section WithPlatform.
Variable Date_getTime : string -> option Z.
Variable net : Net.
Variable email password : string.

(** X15.  [login] never throws and issues at most three requests, each
    the POST of the credentials to the token endpoint.  Of the answers to
    these requests, the first one that is accepted (delivered within ten
    seconds, with a 2xx status and a readable body) decides: if it is the
    answer to request number [i] (0, 1 or 2: the answers before it were
    refused), [login] returns [true] after exactly [i + 1] requests, the
    token of that body is stored and the failure counter is reset.  If none
    of the three answers is accepted, [login] returns [false] after exactly
    three requests: the token is as before, the failure counter is one
    higher, and at least fifteen seconds (the pauses of five and ten
    seconds) have passed. *)
Theorem login_outcomes :
  forall (w : World),
    let run := login net email password w in
    let m := monitor w in
    let m' := monitor (snd run) in
    let n := List.length (sent w) in
    (forall i tok,
       firstAccepted (npm_tokens net) n 3 = Some (i, tok)
       <-> (i < 3)%nat
           /\ accepted (npm_tokens net (n + i)%nat) = Some tok
           /\ forall j, (j < i)%nat -> accepted (npm_tokens net (n + j)%nat) = None)
    /\ exists l,
         sent (snd run) = sent w ++ l
         /\ Forall (fun s => request s = mkRequest POST NpmTokens (LoginBody email password)) l
         /\ match firstAccepted (npm_tokens net) n 3 with
            | Some (i, tok) =>
                fst run = Return true
                /\ List.length l = S i
                /\ m' = set_consecutiveFailures 0 (set_token tok m)
            | None =>
                fst run = Return false
                /\ List.length l = 3%nat
                /\ m' = set_consecutiveFailures (consecutiveFailures m + 1) m
                /\ now w + 15000 <= now (snd run)
            end.
Proof.
  intros w. cbv zeta. split; [intros i tok; apply firstAccepted_Some |].
  exact (login_loop_outcome net email password 3 0 w).
Qed.

(** X16.  While the NPM instance accepts the login and answers the request
    for the hosts with 401, [getProxyHosts] does not come to an end: each
    401 clears the token and starts the function again, without counting an
    attempt or a failure, so no number of rounds yields a result. *)
Theorem persistent_401_never_returns :
  forall (fuel : nat) (w : World),
    (forall n, accepted (npm_tokens net n) <> None) ->
    (forall n tok, unauthorized (npm_proxy_hosts net n tok) = true) ->
    getProxyHosts net email password fuel w = None.
Proof.
  intros fuel w Hlogin H401. revert w.
  induction fuel as [|fuel IH]; intros w; [reflexivity |].
  cbn [getProxyHosts]. change (Z.to_nat maxRetries) with 3%nat.
  rewrite getProxyHosts_loop_step, getProxyHosts_attempt_step.
  destruct (getHeaders_returns net email password w Hlogin) as [headers Hh].
  destruct (getHeaders net email password w) as [r0 wh]. cbn [fst] in Hh. subst r0.
  cbv zeta. rewrite H401. apply IH.
Qed.

(** X17.  When no request for the hosts is answered with 401,
    [getProxyHosts] comes to an end within one round of three attempts.
    If it returns a list, either the failure counter is zero (a fetch
    succeeded) or the list is empty and the counter is below five (all
    attempts failed).  If it throws, the error is the unreachable error, the
    counter is five or more, and monitoring has been stopped: the timer is
    cleared and the monitor is neither monitoring nor initialised. *)
Theorem getProxyHosts_outcomes :
  forall (fuel : nat) (w : World),
    (forall n tok, unauthorized (npm_proxy_hosts net n tok) = false) ->
    exists res w',
      getProxyHosts net email password (S fuel) w = Some (res, w')
      /\ match res with
         | Return hosts =>
             consecutiveFailures (monitor w') = 0
             \/ (hosts = [] /\ consecutiveFailures (monitor w') < maxConsecutiveFailures)
         | Throw e =>
             e = unreachable
             /\ maxConsecutiveFailures <= consecutiveFailures (monitor w')
             /\ isMonitoring (monitor w') = false
             /\ isInitialized (monitor w') = false
             /\ monitorInterval (monitor w') = false
         end.
Proof.
  intros fuel w Hno. cbn [getProxyHosts]. change (Z.to_nat maxRetries) with 3%nat.
  pose proof (getProxyHosts_loop_outcome net email password 3 0 w) as Hout.
  cbv zeta in Hout.
  destruct (getProxyHosts_loop net email password 3 0 w) as [[[hosts|] | e] w'];
    cbn [fst snd] in Hout.
  - exists (Return hosts), w'. split; [reflexivity | exact Hout].
  - destruct Hout as (n & tok & Hu). rewrite Hno in Hu. discriminate.
  - exists (Throw e), w'. split; [reflexivity | exact Hout].
Qed.

(** X18.  With no token stored and every login refused, one call of
    [getProxyHosts] raises the failure counter by four: one for each of the
    three failed logins and one at the end.  The call issues nine login
    requests and none for the hosts; it returns the empty list while the
    new counter is below five and otherwise stops the monitoring and throws.
    So, from a counter of zero, the second poll stops the monitoring. *)
Theorem refused_logins_count_four_per_poll :
  forall (fuel : nat) (w : World),
    truthy (token (monitor w)) = false ->
    (forall n, accepted (npm_tokens net n) = None) ->
    let n := consecutiveFailures (monitor w) + 4 in
    exists w' l,
      getProxyHosts net email password (S fuel) w
      = Some (if maxConsecutiveFailures <=? n then Throw unreachable else Return [], w')
      /\ consecutiveFailures (monitor w') = n
      /\ token (monitor w') = token (monitor w)
      /\ sent w' = sent w ++ l
      /\ List.length l = 9%nat
      /\ Forall (fun s => request s = mkRequest POST NpmTokens (LoginBody email password)) l.
Proof.
  intros fuel w Ht Hfail n. cbn [getProxyHosts]. change (Z.to_nat maxRetries) with 3%nat.
  pose proof (getProxyHosts_loop_login_fails net email password 3 0 w Ht Hfail) as Hloop.
  cbv zeta in Hloop.
  replace (consecutiveFailures (monitor w) + Z.of_nat 3 + 1) with n in Hloop
    by (subst n; lia).
  destruct Hloop as ((l & El & Hlen & Hall) & Hcf & Htok & Hres).
  destruct (getProxyHosts_loop net email password 3 0 w) as [r0 w']. cbn [fst snd] in *.
  exists w', l. subst r0.
  split; [now destruct (maxConsecutiveFailures <=? n) |]. auto.
Qed.

End WithPlatform.

Lemma persistent_401_never_returns_witness :
  getProxyHosts alwaysExpired "admin@example.com" "secret" 50 (initialWorld 0) = None.
Proof.
  apply (persistent_401_never_returns alwaysExpired "admin@example.com" "secret" 50
           (initialWorld 0)).
  - intros n. discriminate.
  - intros n tok. reflexivity.
Defined.

Lemma getProxyHosts_outcomes_witness :
  exists res w',
    getProxyHosts Scenarios.npmDown "admin@example.com" "secret" 1 Scenarios.watching
    = Some (res, w')
    /\ match res with
       | Return hosts =>
           consecutiveFailures (monitor w') = 0
           \/ (hosts = [] /\ consecutiveFailures (monitor w') < maxConsecutiveFailures)
       | Throw e =>
           e = unreachable
           /\ maxConsecutiveFailures <= consecutiveFailures (monitor w')
           /\ isMonitoring (monitor w') = false
           /\ isInitialized (monitor w') = false
           /\ monitorInterval (monitor w') = false
       end.
Proof.
  apply (getProxyHosts_outcomes Scenarios.npmDown "admin@example.com" "secret" 0
           Scenarios.watching).
  intros n tok. reflexivity.
Defined.

(** The first poll of a fresh monitor on a dead network returns the empty
    list with four failures counted; the second stops the monitoring. *)
Lemma refused_logins_count_four_per_poll_witness :
  exists w1 w2 l1 l2,
    getProxyHosts dead "admin@example.com" "secret" 1 (initialWorld 0)
    = Some (Return [], w1)
    /\ consecutiveFailures (monitor w1) = 4
    /\ sent w1 = [] ++ l1 /\ List.length l1 = 9%nat
    /\ getProxyHosts dead "admin@example.com" "secret" 1 w1 = Some (Throw unreachable, w2)
    /\ consecutiveFailures (monitor w2) = 4 + 4
    /\ sent w2 = sent w1 ++ l2 /\ List.length l2 = 9%nat.
Proof.
  destruct (refused_logins_count_four_per_poll dead "admin@example.com" "secret" 0
              (initialWorld 0) eq_refl (fun _ => eq_refl))
    as (w1 & l1 & E1 & C1 & T1 & S1 & L1 & _).
  change (consecutiveFailures (monitor (initialWorld 0)) + 4) with 4 in C1, E1.
  assert (Ht1 : truthy (token (monitor w1)) = false) by now rewrite T1.
  destruct (refused_logins_count_four_per_poll dead "admin@example.com" "secret" 0
              w1 Ht1 (fun _ => eq_refl))
    as (w2 & l2 & E2 & C2 & _ & S2 & L2 & _).
  rewrite C1 in E2, C2.
  exists w1, w2, l1, l2.
  split; [exact E1 |]. split; [exact C1 |]. split; [exact S1 |]. split; [exact L1 |].
  split; [exact E2 |]. split; [exact C2 |]. split; [exact S2 | exact L2].
Defined.

End MonitorTheorems.

Module PollTheorems.
Import JS Monitor NPMMonitor DiffFacts.

Lemma filter_nil {A} (f : A -> bool) (l : list A) :
  (forall x, In x l -> f x = false) -> filter f l = [].
Proof.
  induction l as [|x l IH]; intros Hf; cbn [filter]; [reflexivity |].
  rewrite (Hf x) by now left. apply IH. intros y Hy. apply Hf. now right.
Qed.

(** An NPM instance that keeps answering with the same host. *)
Definition steady : Net :=
  Networks.serve (Networks.exampleZone [] Networks.always
                    (fun _ => Networks.respond 10 200 "application/json"
                                (Some [Scenarios.hostOld]) "")).

(** A host whose time stamp does not parse. *)
Definition hostUndated : NPMHost.t :=
  NPMHost.mk 9 (DomainArray ["app.example.com"]) "10.0.0.5" 8080 "yesterday" "yesterday".

Section WithPlatform.
Variable Date_getTime : string -> option Z.

Lemma diff_same (m : Monitor.t) :
  isInitialized m = true ->
  uniqueIds (lastKnownHosts m) -> validTimes Date_getTime (lastKnownHosts m) ->
  diff Date_getTime (lastKnownHosts m) m = (mkChanges (lastKnownHosts m) [] [], m).
Proof.
  intros Hinit Hu Hv. unfold diff. rewrite Hinit. cbn [negb].
  assert (Hc : changedHosts Date_getTime (lastKnownHosts m) (lastKnownHosts m) = []).
  { unfold changedHosts. apply filter_nil. intros h Hh.
    destruct (find (fun p => sameId p h) (lastKnownHosts m)) as [p|] eqn:Ef.
    - apply find_some in Ef as [Hp Hid]. unfold sameId in Hid. apply Z.eqb_eq in Hid.
      assert (p = h) by (apply (uniqueIds_inj (lastKnownHosts m)); auto). subst p.
      apply hasChanged_false_iff. repeat split.
      destruct (Date_getTime (NPMHost.modified_on h)) as [t|] eqn:Et.
      + now exists t.
      + now elim (Hv h Hh).
    - pose proof (find_none _ _ Ef h Hh) as Hn. unfold sameId in Hn.
      now rewrite Z.eqb_refl in Hn. }
  assert (Hd : deletedHosts (lastKnownHosts m) (lastKnownHosts m) = []).
  { unfold deletedHosts. apply filter_nil. intros p Hp. apply negb_false_iff.
    apply existsb_exists. exists p. split; [exact Hp |]. unfold sameId. apply Z.eqb_refl. }
  rewrite Hc, Hd. f_equal. destruct m. cbn in *. now subst.
Qed.

(** X19.  A poll that fetches exactly the baseline (ids unique, time
    stamps valid) on an initialised monitor reports nothing: no host is
    changed or deleted, the callback is not invoked, and the state after the
    check is the state after the fetch. *)
Theorem unchanged_poll_is_silent :
  forall (net : Net) (email password : string) (fuel : nat) (callback : Callback)
         (w w1 : World),
    getProxyHosts net email password fuel w
    = Some (Return (lastKnownHosts (monitor w1)), w1) ->
    isInitialized (monitor w1) = true ->
    uniqueIds (lastKnownHosts (monitor w1)) ->
    validTimes Date_getTime (lastKnownHosts (monitor w1)) ->
    getChangesSinceLastCheck Date_getTime net email password fuel w
    = Some (Return (mkChanges (lastKnownHosts (monitor w1)) [] []), w1)
    /\ monitorCheck Date_getTime net email password fuel callback w = Some (Return tt, w1).
Proof.
  intros net email password fuel callback w w1 Hget Hinit Hu Hv.
  assert (Hc : getChangesSinceLastCheck Date_getTime net email password fuel w
               = Some (Return (mkChanges (lastKnownHosts (monitor w1)) [] []), w1)).
  { unfold getChangesSinceLastCheck. rewrite Hget, (diff_same _ Hinit Hu Hv).
    now destruct w1. }
  split; [exact Hc |]. unfold monitorCheck. now rewrite Hc.
Qed.

(** X20.  A fetched host whose [modified_on] is not a valid date is
    reported as changed by every later check, whatever the baseline holds:
    the time stamps are compared as numbers, and NaN differs from every
    number, itself included. *)
Theorem invalid_time_always_changed :
  forall (m : Monitor.t) (current : list NPMHost.t) (h : NPMHost.t),
    In h current ->
    Date_getTime (NPMHost.modified_on h) = None ->
    In h (changed (fst (diff Date_getTime current m))).
Proof.
  intros m current h Hin Hnan. unfold diff.
  destruct (isInitialized m); cbn [negb fst changed]; [| exact Hin].
  unfold changedHosts. apply filter_In. split; [exact Hin |].
  destruct (find _ (lastKnownHosts m)) as [p|]; [| reflexivity].
  unfold hasChanged. now rewrite Hnan.
Qed.

End WithPlatform.

Lemma unchanged_poll_is_silent_witness :
  let w1 := snd (getProxyHosts_loop steady "admin@example.com" "secret" 3 0
                   Scenarios.watching) in
  getChangesSinceLastCheck Sample.Date_getTime steady "admin@example.com" "secret" 1
    Scenarios.watching
  = Some (Return (mkChanges [Scenarios.hostOld] [] []), w1)
  /\ monitorCheck Sample.Date_getTime steady "admin@example.com" "secret" 1
       (Index.handleNPMChanges steady Scenarios.config) Scenarios.watching
     = Some (Return tt, w1).
Proof.
  intros w1.
  apply (unchanged_poll_is_silent Sample.Date_getTime steady "admin@example.com" "secret" 1
           (Index.handleNPMChanges steady Scenarios.config) Scenarios.watching w1).
  - reflexivity.
  - reflexivity.
  - unfold uniqueIds. repeat constructor. intros [].
  - intros h [<- | []]. discriminate.
Defined.

Lemma invalid_time_always_changed_witness :
  In hostUndated
     (changed (fst (diff Sample.Date_getTime [hostUndated]
                      (DiffExamples.running [hostUndated])))).
Proof.
  apply (invalid_time_always_changed Sample.Date_getTime (DiffExamples.running [hostUndated])
           [hostUndated] hostUndated); [now left | reflexivity].
Defined.

End PollTheorems.

(* ================================================================== *)
(** ** The configuration ([config.ts]) *)
(* ================================================================== *)

Module ConfigFacts.
Import JS ConfigTs.

Definition requiredNames : list string :=
  ["CF_API_TOKEN"; "CF_EMAIL"; "NPM_API_URL"; "NPM_EMAIL"; "NPM_PASSWORD"].

(** A variable that is unset or empty. *)
Definition missing (env : Env) (name : string) : Prop :=
  env name = None \/ env name = Some "".

Lemma lowerCode_idempotent (c : ascii) : lowerCode (lowerCode c) = lowerCode c.
Proof. destruct c as [[] [] [] [] [] [] [] []]; reflexivity. Qed.

Lemma toLowerCase_idempotent (s : string) : toLowerCase (toLowerCase s) = toLowerCase s.
Proof.
  induction s as [|c s IH]; cbn [toLowerCase]; [reflexivity |].
  now rewrite lowerCode_idempotent, IH.
Qed.

Lemma validateLogLevel_In (level : string) : In (validateLogLevel level) validLevels.
Proof.
  unfold validateLogLevel.
  destruct (existsb (String.eqb (toLowerCase level)) validLevels) eqn:Ex.
  - apply existsb_exists in Ex as (x & Hin & Hx). apply String.eqb_eq in Hx. now subst.
  - cbn. auto.
Qed.

Lemma truthy_orElse (v : option string) : truthy (Some (orElse v "")) = truthy v.
Proof.
  unfold orElse. destruct v as [s|]; [| reflexivity].
  cbn [truthy]. destruct (String.eqb s "") eqn:E; cbn [negb]; [reflexivity |].
  now rewrite E.
Qed.

Lemma orElse_truthy (v : option string) (fallback : string) :
  truthy v = true -> v = Some (orElse v fallback).
Proof.
  unfold orElse. intros Ht. rewrite Ht. destruct v; [reflexivity | discriminate].
Qed.

Lemma truthy_false_iff (v : option string) : truthy v = false <-> v = None \/ v = Some "".
Proof.
  destruct v as [s|]; cbn [truthy].
  - rewrite negb_false_iff, String.eqb_eq. split.
    + intros ->. now right.
    + intros [H | [= ->]]; [discriminate | reflexivity].
  - split; auto.
Qed.

(** [validateConfig] on the object that [getConfig] builds. *)
Lemma getConfig_valid (env : Env) :
  getConfig env = None
  <-> truthy (env "CF_API_TOKEN") && truthy (env "CF_EMAIL") && truthy (env "NPM_API_URL")
      && truthy (env "NPM_EMAIL") && truthy (env "NPM_PASSWORD") = false.
Proof.
  unfold getConfig, validateConfig, requiredFields.
  cbn [fold_left fst cloudflare npm apiToken cf_email apiUrl npm_email password].
  rewrite !truthy_orElse.
  destruct (truthy (env "CF_API_TOKEN")), (truthy (env "CF_EMAIL")),
    (truthy (env "NPM_API_URL")), (truthy (env "NPM_EMAIL")), (truthy (env "NPM_PASSWORD"));
    cbn; split; congruence.
Qed.

End ConfigFacts.

Module ConfigTheorems.
Import JS ConfigTs ConfigFacts.

(** X21.  [validateLogLevel] always returns one of error, warn, info and
    debug: the argument in lower case when that is one of the four, and info
    otherwise.  It ignores the case of its argument, and applying it again
    changes nothing. *)
Theorem validateLogLevel_valid :
  forall (level : string),
    In (validateLogLevel level) validLevels
    /\ (In (toLowerCase level) validLevels -> validateLogLevel level = toLowerCase level)
    /\ (~ In (toLowerCase level) validLevels -> validateLogLevel level = "info")
    /\ validateLogLevel (toLowerCase level) = validateLogLevel level
    /\ validateLogLevel (validateLogLevel level) = validateLogLevel level.
Proof.
  intros level. split; [apply validateLogLevel_In |]. split; [| split; [| split]].
  - intros Hin. unfold validateLogLevel.
    destruct (existsb (String.eqb (toLowerCase level)) validLevels) eqn:Ex; [reflexivity |].
    assert (Hx : existsb (String.eqb (toLowerCase level)) validLevels = true).
    { apply existsb_exists. exists (toLowerCase level). split; [exact Hin |].
      apply String.eqb_refl. }
    congruence.
  - intros Hn. unfold validateLogLevel.
    destruct (existsb (String.eqb (toLowerCase level)) validLevels) eqn:Ex; [| reflexivity].
    apply existsb_exists in Ex as (x & Hin & Hx). apply String.eqb_eq in Hx. now subst.
  - unfold validateLogLevel. now rewrite toLowerCase_idempotent.
  - pose proof (validateLogLevel_In level) as Hin.
    destruct Hin as [<- | [<- | [<- | [<- | []]]]]; reflexivity.
Qed.

(** X22.  [getConfig] returns [null] exactly when one of the five
    required variables (CF_API_TOKEN, CF_EMAIL, NPM_API_URL, NPM_EMAIL,
    NPM_PASSWORD) is unset or empty; the other variables never make the
    configuration invalid. *)
Theorem getConfig_null_iff_missing :
  forall (env : Env),
    getConfig env = None <-> exists name, In name requiredNames /\ missing env name.
Proof.
  intros env. rewrite getConfig_valid, !andb_false_iff, !truthy_false_iff.
  unfold requiredNames, missing. cbn [In]. split.
  - intros [[[[H | H] | H] | H] | H]; eexists; (split; [| exact H]); auto 6.
  - intros (name & Hin & H).
    destruct Hin as [<- | [<- | [<- | [<- | [<- | []]]]]]; auto 6.
Qed.

(** X23.  A configuration that [getConfig] returns holds the values of
    the five required variables, all non-empty, and a valid log level, which
    is info when LOG_LEVEL is unset or empty.  The check interval is 10000
    when CHECK_INTERVAL is unset or empty and otherwise what [parseInt]
    reads from it, NaN included: the value is not validated.  Auto-creation
    of root records is on exactly when AUTO_CREATE_ROOT_RECORDS is set to
    true in any letter case. *)
Theorem getConfig_fields :
  forall (env : Env) (c : Config),
    getConfig env = Some c ->
    (env "CF_API_TOKEN" = Some (apiToken (cloudflare c)) /\ apiToken (cloudflare c) <> "")
    /\ (env "CF_EMAIL" = Some (cf_email (cloudflare c)) /\ cf_email (cloudflare c) <> "")
    /\ (env "NPM_API_URL" = Some (apiUrl (npm c)) /\ apiUrl (npm c) <> "")
    /\ (env "NPM_EMAIL" = Some (npm_email (npm c)) /\ npm_email (npm c) <> "")
    /\ (env "NPM_PASSWORD" = Some (password (npm c)) /\ password (npm c) <> "")
    /\ In (logLevel c) validLevels
    /\ (missing env "LOG_LEVEL" -> logLevel c = "info")
    /\ (missing env "CHECK_INTERVAL" -> checkInterval c = Some 10000)
    /\ (forall v, env "CHECK_INTERVAL" = Some v -> v <> "" -> checkInterval c = parseInt10 v)
    /\ (autoCreateRootRecords c = true
        <-> exists v, env "AUTO_CREATE_ROOT_RECORDS" = Some v /\ toLowerCase v = "true").
Proof.
  intros env c Hc.
  assert (Hvalid : getConfig env <> None) by congruence.
  rewrite getConfig_valid in Hvalid. apply not_false_is_true in Hvalid.
  apply andb_prop in Hvalid as [Hvalid H5]. apply andb_prop in Hvalid as [Hvalid H4].
  apply andb_prop in Hvalid as [Hvalid H3]. apply andb_prop in Hvalid as [H1 H2].
  assert (Hfield : forall v, truthy v = true ->
                             v = Some (orElse v "") /\ orElse v "" <> "").
  { intros v Ht. split; [now apply orElse_truthy |].
    intros E. rewrite <- truthy_orElse, E in Ht. discriminate. }
  unfold getConfig in Hc.
  destruct (validateConfig _); [| discriminate]. injection Hc as <-.
  cbn [cloudflare npm apiToken cf_email apiUrl npm_email password logLevel checkInterval
       autoCreateRootRecords].
  split; [now apply Hfield |]. split; [now apply Hfield |]. split; [now apply Hfield |].
  split; [now apply Hfield |]. split; [now apply Hfield |].
  split; [apply validateLogLevel_In |].
  split.
  { intros Hm. apply truthy_false_iff in Hm. unfold orElse. now rewrite Hm. }
  split.
  { intros Hm. apply truthy_false_iff in Hm. unfold orElse. now rewrite Hm. }
  split.
  { intros v Hv Hne. unfold orElse. rewrite Hv. cbn [truthy].
    destruct (String.eqb_spec v ""); [contradiction | reflexivity]. }
  destruct (env "AUTO_CREATE_ROOT_RECORDS") as [v|].
  - rewrite String.eqb_eq. split.
    + intros Hv. now exists v.
    + now intros (v' & [= <-] & Hv).
  - split; [discriminate | now intros (v & Hv & _)].
Qed.

(** A deployment with the required variables, an interval that does not
    parse and auto-creation switched on in capitals. *)
Definition sampleEnv : Env :=
  fun name =>
    if String.eqb name "CF_API_TOKEN" then Some "cf-token"
    else if String.eqb name "CF_EMAIL" then Some "ops@example.com"
    else if String.eqb name "NPM_API_URL" then Some "http://npm:81"
    else if String.eqb name "NPM_EMAIL" then Some "admin@example.com"
    else if String.eqb name "NPM_PASSWORD" then Some "secret"
    else if String.eqb name "CHECK_INTERVAL" then Some "soon"
    else if String.eqb name "LOG_LEVEL" then Some "Verbose"
    else if String.eqb name "AUTO_CREATE_ROOT_RECORDS" then Some "TRUE"
    else None.

Definition sampleConfig : Config :=
  mkConfig (mkCloudflareConfig "cf-token" "ops@example.com")
           (mkNPMConfig "http://npm:81" "admin@example.com" "secret")
           None "info" true.

Lemma getConfig_fields_witness :
  getConfig sampleEnv = Some sampleConfig
  /\ checkInterval sampleConfig = parseInt10 "soon"
  /\ (autoCreateRootRecords sampleConfig = true
      <-> exists v, sampleEnv "AUTO_CREATE_ROOT_RECORDS" = Some v /\ toLowerCase v = "true").
Proof.
  destruct (getConfig_fields sampleEnv sampleConfig eq_refl)
    as (_ & _ & _ & _ & _ & _ & _ & _ & Hint & Hauto).
  split; [reflexivity |]. split; [| exact Hauto].
  apply (Hint "soon"); [reflexivity | discriminate].
Defined.

End ConfigTheorems.

(* ================================================================== *)
(** ** More on the orchestration: unmapped domains, deletions, the
       reconciliation of root records *)
(* ================================================================== *)

Module OrchestratorFacts.
Import JS JSFacts CloudflareAPI Index Trace CloudflareFacts RequestLayer ClientFacts.


Section WithNet.
Variable net : Net.
Variable config : Config.

Lemma deleteDomain_step (cf : CloudflareAPI.t) (domain : string) (w : World) :
  deleteDomain net cf domain w =
  match getDNSRecords net cf (trim domain) w with
  | (Return records, w1) =>
      match find (hasName (trim domain)) records with
      | Some rec =>
          match deleteDNSRecord net cf (trim domain) (DNSRecord.id rec) w1 with
          | (Return _, w2) => (Return tt, w2)
          | (Throw e, w2) => (Throw e, w2)
          end
      | None => (Return tt, w1)
      end
  | (Throw e, w1) => (Throw e, w1)
  end.
Proof.
  unfold deleteDomain, bind, ret.
  destruct (getDNSRecords net cf (trim domain) w) as [[records | e] w1]; [| reflexivity].
  destruct (find (hasName (trim domain)) records) as [rec|]; [| reflexivity].
  now destruct (deleteDNSRecord net cf (trim domain) (DNSRecord.id rec) w1) as [[b | e] w2].
Qed.




End WithNet.
End OrchestratorFacts.

Module OrchestratorTheorems.
Import JS JSFacts CloudflareAPI Index Trace CloudflareFacts RequestLayer ClientFacts
       OrchestratorFacts.

Section WithNet.
Variable net : Net.
Variable config : Config.

(** X24.  A domain name of a host that, trimmed, ends with no registered
    zone name causes no request to Cloudflare.  For a deleted host nothing
    happens at all.  For a changed host nothing happens at all when the name
    is not empty; for an empty name (as a trailing comma in [domain_names]
    leaves) the public address is still resolved, and a failure of that
    resolution is thrown to the caller. *)
Theorem unmapped_domain_is_skipped :
  forall (cf : CloudflareAPI.t) (domain : string) (w : World),
    (forall k, In k (Map_keys (zones cf)) -> endsWith (trim domain) k = false) ->
    deleteDomain net cf domain w = (Return tt, w)
    /\ (trim domain <> "" -> syncDomain net config cf domain w = (Return tt, w))
    /\ (trim domain = "" ->
        syncDomain net config cf domain w
        = match PublicIP.getPublicIP net w with
          | (Return _, w1) => (Return tt, w1)
          | (Throw e, w1) => (Throw e, w1)
          end).
Proof.
  intros cf domain w Hnone.
  destruct (unmapped_root cf (trim domain) Hnone) as [Hroot Hget].
  assert (Hz : getZoneIdForDomain cf (trim domain) = None).
  { unfold getZoneIdForDomain. now rewrite Hroot. }
  assert (Hl : forall w0, getDNSRecords net cf (trim domain) w0 = (Return [], w0)).
  { intros w0. unfold getDNSRecords. now rewrite Hz. }
  split; [| split].
  - rewrite deleteDomain_step, Hl. reflexivity.
  - intros Hne. unfold syncDomain. cbv zeta. rewrite Hroot.
    destruct (String.eqb_spec (trim domain) "") as [E | _]; [contradiction |].
    cbn [negb]. unfold ensureRootDomainRecord. rewrite Hroot. reflexivity.
  - intros E. unfold syncDomain. cbv zeta. rewrite Hroot. rewrite E in *.
    cbn [String.eqb negb]. unfold bind at 1. unfold ret at 1. cbn [negb].
    unfold bind at 1. rewrite Hl. cbn [find]. unfold bind at 1.
    destruct (PublicIP.getPublicIP net w) as [[ip | e] w1]; [| reflexivity].
    destruct (autoCreateRootRecords config); [| reflexivity].
    unfold bind, createDNSRecord. now rewrite Hz.
Qed.

(** X25.  For a domain of a deleted host whose record listing is
    delivered: when no listed record has exactly the trimmed name, nothing
    is deleted; otherwise exactly one record is deleted, the first listed
    one with that name, whatever its type, by a DELETE of its id (repeated
    at most twice); other records of the same name stay. *)
Theorem deleteDomain_deletes_first_named :
  forall (cf : CloudflareAPI.t) (domain : string) (w w1 : World)
         (records : list DNSRecord.t),
    getDNSRecords net cf (trim domain) w = (Return records, w1) ->
    match find (hasName (trim domain)) records with
    | None => deleteDomain net cf domain w = (Return tt, w1)
    | Some rec =>
        exists zoneId rest,
          getZoneIdForDomain cf (trim domain) = Some zoneId
          /\ fst (deleteDomain net cf domain w) = Return tt
          /\ sent (snd (deleteDomain net cf domain w))
             = sent w1 ++ (mkSent (now w1)
                             (mkRequest DELETE (CfDnsRecord zoneId (DNSRecord.id rec)) NoBody)
                           :: rest)
          /\ (List.length rest <= 2)%nat
          /\ Forall (fun s => request s
                              = mkRequest DELETE (CfDnsRecord zoneId (DNSRecord.id rec)) NoBody)
                    rest
    end.
Proof.
  intros cf domain w w1 records Hl. rewrite deleteDomain_step, Hl.
  destruct (find (hasName (trim domain)) records) as [rec|] eqn:Ef; [| reflexivity].
  apply find_some in Ef as [Hin _].
  destruct (WildcardGuard.getDNSRecords_nonempty net cf (trim domain) w w1 records rec Hl Hin)
    as (zoneId & Hz & Ht).
  pose proof (guarded_request_sent
                (mkRequest DELETE (CfDnsRecord zoneId (DNSRecord.id rec)) NoBody)
                (fun n => cf_delete net n zoneId (DNSRecord.id rec)) "Deleting DNS record"
                (fun _ => ret true) (fun _ => ret false) w1
                ltac:(intros; apply issues_ret) ltac:(intros; apply issues_ret))
    as (rest & Es & Hlen & Hall).
  destruct (deleteDNSRecord_noThrow net cf (trim domain) (DNSRecord.id rec) w1) as [b Hb].
  assert (Hd : deleteDNSRecord net cf (trim domain) (DNSRecord.id rec) w1
               = try_catch
                   (makeRequest (mkRequest DELETE (CfDnsRecord zoneId (DNSRecord.id rec)) NoBody)
                      (fun n => cf_delete net n zoneId (DNSRecord.id rec))
                      "Deleting DNS record" ;;; ret true)
                   (fun _ => ret false) w1).
  { unfold deleteDNSRecord. now rewrite Hz, Ht. }
  rewrite <- Hd in Es.
  destruct (deleteDNSRecord net cf (trim domain) (DNSRecord.id rec) w1) as [r0 w2].
  cbn [fst snd] in Hb, Es. subst r0. exists zoneId, rest. cbn [fst snd]. auto.
Qed.


End WithNet.

Lemma unmapped_domain_is_skipped_witness :
  deleteDomain PublicIPTheorems.offline Networks.client " www.example.org " (initialWorld 0)
  = (Return tt, initialWorld 0)
  /\ syncDomain PublicIPTheorems.offline Scenarios.config Networks.client " www.example.org "
       (initialWorld 0)
     = (Return tt, initialWorld 0).
Proof.
  assert (Hnone : forall k, In k (Map_keys (zones Networks.client)) ->
                            endsWith (trim " www.example.org ") k = false).
  { intros k [<- | []]. reflexivity. }
  destruct (unmapped_domain_is_skipped PublicIPTheorems.offline Scenarios.config
              Networks.client " www.example.org " (initialWorld 0) Hnone) as (Hd & Hs & _).
  split; [exact Hd | apply Hs; discriminate].
Defined.

(** Two records named old.example.com: only the first is deleted. *)
Definition oldTxt : DNSRecord.t :=
  DNSRecord.mk "r1" "old.example.com" "TXT" "v=spf1 -all" false.

Definition twoNamed : Net :=
  Networks.serve (Networks.exampleZone [oldTxt; Scenarios.oldCname] Networks.always
                    Networks.noHosts).

Lemma deleteDomain_deletes_first_named_witness :
  exists zoneId rest,
    getZoneIdForDomain Networks.client (trim "old.example.com") = Some zoneId
    /\ fst (deleteDomain twoNamed Networks.client "old.example.com" (initialWorld 0))
       = Return tt
    /\ sent (snd (deleteDomain twoNamed Networks.client "old.example.com" (initialWorld 0)))
       = sent (snd (getDNSRecords twoNamed Networks.client "old.example.com" (initialWorld 0)))
         ++ (mkSent 20 (mkRequest DELETE (CfDnsRecord zoneId "r1") NoBody) :: rest)
    /\ (List.length rest <= 2)%nat
    /\ Forall (fun s => request s = mkRequest DELETE (CfDnsRecord zoneId "r1") NoBody) rest.
Proof.
  exact (deleteDomain_deletes_first_named twoNamed Networks.client "old.example.com"
           (initialWorld 0)
           (snd (getDNSRecords twoNamed Networks.client "old.example.com" (initialWorld 0)))
           [Networks.rootA; oldTxt; Scenarios.oldCname] eq_refl).
Defined.

End OrchestratorTheorems.

Module StartTheorems.
Import JS Monitor NPMMonitor Trace MonitorFacts LoginFacts FetchFacts FetchLoop.

(** [startMonitoring] up to its first check: the flags it sets. *)
Definition started (w : World) : World :=
  let m := monitor w in
  snd (setMonitor (mk (token m) (monitorInterval m) true (lastKnownHosts m)
                      (consecutiveFailures m) false) w).

(** The installation of the interval timer. *)
Definition timerInstalled (w : World) : World :=
  let m := monitor w in
  snd (setMonitor (mk (token m) true (isMonitoring m) (lastKnownHosts m)
                      (consecutiveFailures m) (isInitialized m)) w).

(** The [catch] of a monitoring check. *)
Definition onError : M unit :=
  m <- getMonitor ;;
  if maxConsecutiveFailures <=? consecutiveFailures m then stopMonitoring else ret tt.

Section WithPlatform.
Variable Date_getTime : string -> option Z.
Variable net : Net.
Variable email password : string.

Lemma getProxyHosts_loop_preserved (remaining : nat) :
  forall (attempt : Z) (w : World),
    let r := getProxyHosts_loop net email password remaining attempt w in
    match fst r with
    | Return _ => preserved (monitor w) (monitor (snd r))
    | Throw _ => True
    end.
Proof.
  induction remaining as [|remaining IH]; intros attempt w; cbv zeta.
  - rewrite getProxyHosts_loop_end. cbv zeta.
    destruct (maxConsecutiveFailures <=? consecutiveFailures (monitor w) + 1);
      cbn [fst snd monitor]; [exact I | now repeat split].
  - rewrite getProxyHosts_loop_step.
    pose proof (keeps_getProxyHosts_attempt net email password attempt w) as Hk.
    destruct (getProxyHosts_attempt net email password attempt w)
      as [[[hosts | |] | e] w1]; cbn [fst snd] in *; try exact Hk; [| exact I].
    specialize (IH (attempt + 1) w1). cbv zeta in IH.
    destruct (fst (getProxyHosts_loop net email password remaining (attempt + 1) w1));
      [| exact I].
    eapply preserved_trans; eauto.
Qed.

(** A fetch that returns leaves the baseline and the flags of the monitor
    as they were. *)
Lemma getProxyHosts_preserved (fuel : nat) :
  forall (w w' : World) (hosts : list NPMHost.t),
    getProxyHosts net email password fuel w = Some (Return hosts, w') ->
    preserved (monitor w) (monitor w').
Proof.
  induction fuel as [|fuel IH]; intros w w' hosts; cbn [getProxyHosts]; [discriminate |].
  pose proof (getProxyHosts_loop_preserved (Z.to_nat maxRetries) 0 w) as Hp.
  cbv zeta in Hp.
  destruct (getProxyHosts_loop net email password (Z.to_nat maxRetries) 0 w)
    as [[[hs|] | e] w1]; cbn [fst snd] in Hp.
  - intros [= <- <-]. exact Hp.
  - intros Hrec. eapply preserved_trans; [exact Hp | eapply IH; exact Hrec].
  - discriminate.
Qed.

(** X27.  [startMonitoring] does nothing when the monitor is already
    monitoring.  Otherwise it marks the monitor as monitoring and not
    initialised and runs one check at once: when the fetch of that check
    returns, every fetched host is reported as changed and none as deleted,
    whatever baseline an earlier run left; the fetched list becomes the
    baseline; the callback is invoked with it unless it is empty; and then
    the interval timer is installed, whether or not the callback failed. *)
Theorem startMonitoring_reports_all_hosts :
  forall (fuel : nat) (callback : Callback) (w : World),
    (isMonitoring (monitor w) = true ->
       startMonitoring Date_getTime net email password fuel callback w = Some (Return tt, w))
    /\ (isMonitoring (monitor w) = false ->
        forall (hosts : list NPMHost.t) (w1 : World),
          getProxyHosts net email password fuel (started w) = Some (Return hosts, w1) ->
          let w2 := snd (setMonitor (set_baseline hosts true (monitor w1)) w1) in
          let checked := match hosts with
                         | [] => (Return tt, w2)
                         | _ :: _ => try_catch (callback hosts hosts []) (fun _ => onError) w2
                         end in
          getChangesSinceLastCheck Date_getTime net email password fuel (started w)
          = Some (Return (mkChanges hosts hosts []), w2)
          /\ startMonitoring Date_getTime net email password fuel callback w
             = Some (Return tt, timerInstalled (snd checked))).
Proof.
  intros fuel callback w. split.
  - intros Hm. unfold startMonitoring. now rewrite Hm.
  - intros Hm hosts w1 Hget w2 checked.
    assert (Hinit : isInitialized (monitor w1) = false).
    { destruct (getProxyHosts_preserved fuel (started w) w1 hosts Hget) as (_ & Hi & _).
      rewrite Hi. reflexivity. }
    assert (Hc : getChangesSinceLastCheck Date_getTime net email password fuel (started w)
                 = Some (Return (mkChanges hosts hosts []), w2)).
    { unfold getChangesSinceLastCheck. rewrite Hget. unfold diff. now rewrite Hinit. }
    split; [exact Hc |].
    unfold startMonitoring. rewrite Hm. fold (started w).
    unfold monitorCheck. rewrite Hc. cbn [changed deleted currentHosts].
    subst checked. destruct hosts as [|h hosts]; [reflexivity |].
    assert (Hpos : (0 <? Z.of_nat (List.length (h :: hosts))) = true)
      by (apply Z.ltb_lt; cbn [List.length]; lia).
    rewrite Hpos. cbn [orb]. unfold onError.
    match goal with
    | |- context [try_catch ?c ?h ?w0] => destruct (try_catch c h w0) as [r0 w3]
    end.
    reflexivity.
Qed.

End WithPlatform.

Lemma startMonitoring_reports_all_hosts_witness :
  let callback := Index.handleNPMChanges PollTheorems.steady Scenarios.config in
  let w1 := snd (getProxyHosts_loop PollTheorems.steady "admin@example.com" "secret" 3 0
                   (started (initialWorld 0))) in
  let w2 := snd (setMonitor (set_baseline [Scenarios.hostOld] true (monitor w1)) w1) in
  startMonitoring Sample.Date_getTime PollTheorems.steady "admin@example.com" "secret" 1
    callback (initialWorld 0)
  = Some (Return tt,
          timerInstalled
            (snd (try_catch (callback [Scenarios.hostOld] [Scenarios.hostOld] [])
                    (fun _ => onError) w2))).
Proof.
  intros callback w1 w2.
  destruct (startMonitoring_reports_all_hosts Sample.Date_getTime PollTheorems.steady
              "admin@example.com" "secret" 1 callback (initialWorld 0)) as [_ Hstart].
  exact (proj2 (Hstart eq_refl [Scenarios.hostOld] w1 eq_refl)).
Defined.

End StartTheorems.

(* ================================================================== *)
(** ** Examples: an address change *)
(* ================================================================== *)

Module IpChangeExamples.
Import JS CloudflareAPI Index IpChange Networks.

(** The zone example.com whose A record still has the old address, while
    the providers report 203.0.113.7. *)
Definition oldRootA : DNSRecord.t :=
  DNSRecord.mk "r0" "example.com" "A" "198.51.100.4" true.

Definition moved : Net :=
  serve (mkServer [CloudflareZone.mk "z1" "example.com"]
                  (fun zoneId => if String.eqb zoneId "z1" then [oldRootA] else [])
                  always (fun _ _ => ipJson "203.0.113.7") noHosts).

Example checkPublicIPChange_first_run :
  let run := checkPublicIPChange moved Scenarios.config client None (initialWorld 0) in
  fst run = Return (Some "203.0.113.7")
  /\ requests (snd run) = [Scenarios.askIp].
Proof. split; reflexivity. Qed.

Example checkPublicIPChange_changed :
  let run := checkPublicIPChange moved Scenarios.config client (Some "198.51.100.4")
               (initialWorld 0) in
  fst run = Return (Some "203.0.113.7")
  /\ requests (snd run)
     = [ Scenarios.askIp; mkRequest GET CfZones NoBody; Scenarios.listZ1;
         mkRequest PUT (CfDnsRecord "z1" "r0")
           (UpdateBody (PartialRecord.mk (Some "r0") (Some "example.com") (Some "A")
                          (Some "203.0.113.7") (Some true))) ].
Proof. split; reflexivity. Qed.

Example checkPublicIPChange_unchanged :
  let run := checkPublicIPChange moved Scenarios.config client (Some "203.0.113.7")
               (initialWorld 0) in
  fst run = Return (Some "203.0.113.7")
  /\ requests (snd run) = [Scenarios.askIp].
Proof. split; reflexivity. Qed.

End IpChangeExamples.
